(** * Traffic simulation kernel: vehicles, registry and tick loop

    A shallow embedding of [Backend/vehicle.py] and
    [Backend/multi_vehicle_simulator.py].

    Python objects become records, dictionaries become finite maps
    ([gmap]), the set of active ids a [gset], and dictionaries whose
    insertion order is observable become association lists.  Methods
    that mutate [self] take the object and return the new one.  Calls to
    [time.time()] and to [random] become explicit inputs.  The modules
    [pathfinder], [traffic_analyzer] and [config] are collaborators of the
    kernel and enter as section variables.

    Python's [float] is kept abstract behind the class [Number], with two
    instances: [binary64] (the arithmetic CPython executes, on Rocq's
    primitive floats) and [exact] (rationals, no rounding). *)

From Stdlib Require Import QArith Qabs Lqa Floats ZArith Lia.
From stdpp Require Import gmap strings list fin_maps pretty.

Set Default Proof Using "Type".
Open Scope string_scope.

(** ** Numbers *)

(** The operations the kernel performs on floats.  [num_lit n d] is the
    decimal literal [n/d]; comparisons are Python's [<] and [<=]. *)
Class Number (F : Type) := {
  num_lit : Z → positive → F;
  num_add : F → F → F;
  num_sub : F → F → F;
  num_mul : F → F → F;
  num_div : F → F → F;
  num_abs : F → F;
  num_ltb : F → F → bool;
  num_leb : F → F → bool;
  num_eqb : F → F → bool
}.

Declare Scope num_scope.
Delimit Scope num_scope with num.
Infix "+" := num_add : num_scope.
Infix "-" := num_sub : num_scope.
Infix "*" := num_mul : num_scope.
Infix "/" := num_div : num_scope.
Infix "<?" := num_ltb : num_scope.
Infix "<=?" := num_leb : num_scope.

(** IEEE 754 binary64, round to nearest even.  A literal is the correctly
    rounded quotient of two integers that are exact in binary64, which is
    the double nearest to the decimal. *)
Definition float_of_Z (z : Z) : float :=
  if (z <? 0)%Z then PrimFloat.opp (PrimFloat.of_uint63 (Uint63.of_Z (- z)))
  else PrimFloat.of_uint63 (Uint63.of_Z z).

#[export] Instance binary64 : Number float := {|
  num_lit n d := PrimFloat.div (float_of_Z n) (float_of_Z (Zpos d));
  num_add := PrimFloat.add;
  num_sub := PrimFloat.sub;
  num_mul := PrimFloat.mul;
  num_div := PrimFloat.div;
  num_abs := PrimFloat.abs;
  num_ltb := PrimFloat.ltb;
  num_leb := PrimFloat.leb;
  num_eqb := PrimFloat.eqb
|}.

(** Exact rational arithmetic. *)
#[export] Instance exact : Number Q := {|
  num_lit n d := (n # d)%Q;
  num_add := Qplus;
  num_sub := Qminus;
  num_mul := Qmult;
  num_div := Qdiv;
  num_abs := Qabs;
  num_ltb x y := negb (Qle_bool y x);
  num_leb := Qle_bool;
  num_eqb := Qeq_bool
|}.

(** ** Exceptions *)

Inductive exn := KeyError | ZeroDivisionError.

(** The outcome of a call that may raise. *)
Inductive res (A : Type) :=
  | Ok (a : A)
  | Raise (e : exn).
Arguments Ok {A} a.
Arguments Raise {A} e.

Definition raises {A} (r : res A) : bool :=
  match r with Ok _ => false | Raise _ => true end.

(** ** Enumerations of [vehicle.py] *)

Inductive VehicleType := CAR | BIKE | PEDESTRIAN.

(** [VehicleType.value] *)
Definition value (t : VehicleType) : string :=
  match t with
  | CAR => "car"
  | BIKE => "bicycle"
  | PEDESTRIAN => "pedestrian"
  end.

Inductive VehicleStatus := WAITING | MOVING | STUCK | ARRIVED | REROUTING.

#[export] Instance VehicleStatus_eq_dec : EqDecision VehicleStatus.
Proof. solve_decision. Defined.

#[export] Instance VehicleType_eq_dec : EqDecision VehicleType.
Proof. solve_decision. Defined.

(** An edge is a pair [(from_node, to_node)]. *)
Abbreviation Edge := (string * string)%type.

Section Vehicle.
Context {F : Type} `{!Number F}.
Local Open Scope num_scope.

(** [Vehicle.SPEED_MULTIPLIERS] *)
Definition SPEED_MULTIPLIERS (t : VehicleType) : F :=
  match t with
  | CAR => num_lit 30 1
  | BIKE => num_lit 20 1
  | PEDESTRIAN => num_lit 10 1
  end.

(** [Vehicle.CAPACITY_USAGE] *)
Definition CAPACITY_USAGE (t : VehicleType) : F :=
  match t with
  | CAR => num_lit 1 1
  | BIKE => num_lit 5 10
  | PEDESTRIAN => num_lit 2 10
  end.

(** The attributes of a [Vehicle] object ([veh_id] and [veh_type] are
    [self.id] and [self.type]). *)
Record Vehicle := {
  veh_id : string;
  veh_type : VehicleType;
  start_node : string;
  goal_node : string;
  current_node : string;
  next_node : option string;
  path : list string;
  path_index : nat;
  status : VehicleStatus;
  speed_multiplier : F;
  capacity_usage : F;
  spawn_time : F;
  arrival_time : option F;
  total_distance : F;
  position_on_edge : F;
  current_speed : F;
  target_speed : F;
  acceleration : F;
  wait_time : F;
  reroute_count : nat
}.

(** Attribute assignments. *)
Definition with_current_node (x : string) (v : Vehicle) : Vehicle :=
  {| veh_id := veh_id v; veh_type := veh_type v; start_node := start_node v;
     goal_node := goal_node v; current_node := x; next_node := next_node v;
     path := path v; path_index := path_index v; status := status v;
     speed_multiplier := speed_multiplier v; capacity_usage := capacity_usage v;
     spawn_time := spawn_time v; arrival_time := arrival_time v;
     total_distance := total_distance v; position_on_edge := position_on_edge v;
     current_speed := current_speed v; target_speed := target_speed v;
     acceleration := acceleration v; wait_time := wait_time v;
     reroute_count := reroute_count v |}.

Definition with_next_node (x : option string) (v : Vehicle) : Vehicle :=
  {| veh_id := veh_id v; veh_type := veh_type v; start_node := start_node v;
     goal_node := goal_node v; current_node := current_node v; next_node := x;
     path := path v; path_index := path_index v; status := status v;
     speed_multiplier := speed_multiplier v; capacity_usage := capacity_usage v;
     spawn_time := spawn_time v; arrival_time := arrival_time v;
     total_distance := total_distance v; position_on_edge := position_on_edge v;
     current_speed := current_speed v; target_speed := target_speed v;
     acceleration := acceleration v; wait_time := wait_time v;
     reroute_count := reroute_count v |}.

Definition with_path (x : list string) (v : Vehicle) : Vehicle :=
  {| veh_id := veh_id v; veh_type := veh_type v; start_node := start_node v;
     goal_node := goal_node v; current_node := current_node v;
     next_node := next_node v; path := x; path_index := path_index v;
     status := status v; speed_multiplier := speed_multiplier v;
     capacity_usage := capacity_usage v; spawn_time := spawn_time v;
     arrival_time := arrival_time v; total_distance := total_distance v;
     position_on_edge := position_on_edge v; current_speed := current_speed v;
     target_speed := target_speed v; acceleration := acceleration v;
     wait_time := wait_time v; reroute_count := reroute_count v |}.

Definition with_path_index (x : nat) (v : Vehicle) : Vehicle :=
  {| veh_id := veh_id v; veh_type := veh_type v; start_node := start_node v;
     goal_node := goal_node v; current_node := current_node v;
     next_node := next_node v; path := path v; path_index := x;
     status := status v; speed_multiplier := speed_multiplier v;
     capacity_usage := capacity_usage v; spawn_time := spawn_time v;
     arrival_time := arrival_time v; total_distance := total_distance v;
     position_on_edge := position_on_edge v; current_speed := current_speed v;
     target_speed := target_speed v; acceleration := acceleration v;
     wait_time := wait_time v; reroute_count := reroute_count v |}.

Definition with_status (x : VehicleStatus) (v : Vehicle) : Vehicle :=
  {| veh_id := veh_id v; veh_type := veh_type v; start_node := start_node v;
     goal_node := goal_node v; current_node := current_node v;
     next_node := next_node v; path := path v; path_index := path_index v;
     status := x; speed_multiplier := speed_multiplier v;
     capacity_usage := capacity_usage v; spawn_time := spawn_time v;
     arrival_time := arrival_time v; total_distance := total_distance v;
     position_on_edge := position_on_edge v; current_speed := current_speed v;
     target_speed := target_speed v; acceleration := acceleration v;
     wait_time := wait_time v; reroute_count := reroute_count v |}.

Definition with_arrival_time (x : option F) (v : Vehicle) : Vehicle :=
  {| veh_id := veh_id v; veh_type := veh_type v; start_node := start_node v;
     goal_node := goal_node v; current_node := current_node v;
     next_node := next_node v; path := path v; path_index := path_index v;
     status := status v; speed_multiplier := speed_multiplier v;
     capacity_usage := capacity_usage v; spawn_time := spawn_time v;
     arrival_time := x; total_distance := total_distance v;
     position_on_edge := position_on_edge v; current_speed := current_speed v;
     target_speed := target_speed v; acceleration := acceleration v;
     wait_time := wait_time v; reroute_count := reroute_count v |}.

Definition with_position_on_edge (x : F) (v : Vehicle) : Vehicle :=
  {| veh_id := veh_id v; veh_type := veh_type v; start_node := start_node v;
     goal_node := goal_node v; current_node := current_node v;
     next_node := next_node v; path := path v; path_index := path_index v;
     status := status v; speed_multiplier := speed_multiplier v;
     capacity_usage := capacity_usage v; spawn_time := spawn_time v;
     arrival_time := arrival_time v; total_distance := total_distance v;
     position_on_edge := x; current_speed := current_speed v;
     target_speed := target_speed v; acceleration := acceleration v;
     wait_time := wait_time v; reroute_count := reroute_count v |}.

Definition with_current_speed (x : F) (v : Vehicle) : Vehicle :=
  {| veh_id := veh_id v; veh_type := veh_type v; start_node := start_node v;
     goal_node := goal_node v; current_node := current_node v;
     next_node := next_node v; path := path v; path_index := path_index v;
     status := status v; speed_multiplier := speed_multiplier v;
     capacity_usage := capacity_usage v; spawn_time := spawn_time v;
     arrival_time := arrival_time v; total_distance := total_distance v;
     position_on_edge := position_on_edge v; current_speed := x;
     target_speed := target_speed v; acceleration := acceleration v;
     wait_time := wait_time v; reroute_count := reroute_count v |}.

Definition with_target_speed (x : F) (v : Vehicle) : Vehicle :=
  {| veh_id := veh_id v; veh_type := veh_type v; start_node := start_node v;
     goal_node := goal_node v; current_node := current_node v;
     next_node := next_node v; path := path v; path_index := path_index v;
     status := status v; speed_multiplier := speed_multiplier v;
     capacity_usage := capacity_usage v; spawn_time := spawn_time v;
     arrival_time := arrival_time v; total_distance := total_distance v;
     position_on_edge := position_on_edge v; current_speed := current_speed v;
     target_speed := x; acceleration := acceleration v;
     wait_time := wait_time v; reroute_count := reroute_count v |}.

Definition with_wait_time (x : F) (v : Vehicle) : Vehicle :=
  {| veh_id := veh_id v; veh_type := veh_type v; start_node := start_node v;
     goal_node := goal_node v; current_node := current_node v;
     next_node := next_node v; path := path v; path_index := path_index v;
     status := status v; speed_multiplier := speed_multiplier v;
     capacity_usage := capacity_usage v; spawn_time := spawn_time v;
     arrival_time := arrival_time v; total_distance := total_distance v;
     position_on_edge := position_on_edge v; current_speed := current_speed v;
     target_speed := target_speed v; acceleration := acceleration v;
     wait_time := x; reroute_count := reroute_count v |}.

Definition with_reroute_count (x : nat) (v : Vehicle) : Vehicle :=
  {| veh_id := veh_id v; veh_type := veh_type v; start_node := start_node v;
     goal_node := goal_node v; current_node := current_node v;
     next_node := next_node v; path := path v; path_index := path_index v;
     status := status v; speed_multiplier := speed_multiplier v;
     capacity_usage := capacity_usage v; spawn_time := spawn_time v;
     arrival_time := arrival_time v; total_distance := total_distance v;
     position_on_edge := position_on_edge v; current_speed := current_speed v;
     target_speed := target_speed v; acceleration := acceleration v;
     wait_time := wait_time v; reroute_count := x |}.

(** Python's [min(a, b)] and [max(a, b)]: the first argument is kept
    unless the second compares strictly better. *)
Definition pymin (a b : F) : F := if b <? a then b else a.
Definition pymax (a b : F) : F := if a <? b then b else a.

(** Truth value of an [Optional[str]]: [None] and the empty string are
    false. *)
Definition truthy (o : option string) : bool :=
  match o with
  | None => false
  | Some s => negb (String.eqb s "")
  end.

(** [Vehicle.__init__], given the value [Vehicle._id_counter] has after
    the increment and the clock reading; [path] is left to its default. *)
Definition Vehicle_init (counter : nat) (now : F) (vehicle_type : VehicleType)
    (start goal : string) : Vehicle :=
  {| veh_id := value vehicle_type +:+ "_" +:+ pretty counter;
     veh_type := vehicle_type;
     start_node := start;
     goal_node := goal;
     current_node := start;
     next_node := None;
     path := [];
     path_index := 0;
     status := WAITING;
     speed_multiplier := SPEED_MULTIPLIERS vehicle_type;
     capacity_usage := CAPACITY_USAGE vehicle_type;
     spawn_time := now;
     arrival_time := None;
     total_distance := num_lit 0 1;
     position_on_edge := num_lit 0 1;
     current_speed := num_lit 0 1;
     target_speed := SPEED_MULTIPLIERS vehicle_type;
     acceleration := num_lit 15 10;
     wait_time := num_lit 0 1;
     reroute_count := 0 |}.

(** [Vehicle.set_path] *)
Definition set_path (new_path : list string) (cost : F) (v : Vehicle) : Vehicle :=
  let v := with_path_index 0 (with_path new_path v) in
  if decide (1 < List.length new_path)%nat then
    with_status MOVING (with_next_node (new_path !! 1) v)
  else
    with_next_node None v.

(** [Vehicle.move_to_next_node]; [now] is the clock reading taken when
    the vehicle arrives. *)
Definition move_to_next_node (now : F) (v : Vehicle) : Vehicle * bool :=
  if decide (path v = [] ∨ List.length (path v) - 1 ≤ path_index v)%nat then
    (with_arrival_time (Some now) (with_status ARRIVED v), false)
  else
    let i := S (path_index v) in
    let v := with_path_index i v in
    let v := with_current_node (default (current_node v) (path v !! i)) v in
    if decide (i < List.length (path v) - 1)%nat then
      (with_position_on_edge (num_lit 0 1)
         (with_status MOVING (with_next_node (path v !! S i) v)), true)
    else
      (with_arrival_time (Some now)
         (with_status ARRIVED (with_next_node None v)), true).

(** [Vehicle.update_position].  The division raises on a zero edge
    length, after [current_speed] has been assigned. *)
Definition update_position (delta_time edge_length : F) (v : Vehicle)
    : Vehicle * res bool :=
  if negb (bool_decide (status v = MOVING)) && negb (bool_decide (status v = STUCK)) then
    (v, Ok false)
  else
    let speed_diff := target_speed v - current_speed v in
    let v :=
      if num_abs speed_diff <? acceleration v * delta_time then
        with_current_speed (target_speed v) v
      else if num_lit 0 1 <? speed_diff then
        with_current_speed (current_speed v + acceleration v * delta_time) v
      else
        with_current_speed (current_speed v - acceleration v * delta_time) v in
    let distance_moved := current_speed v * delta_time in
    if num_eqb edge_length (num_lit 0 1) then (v, Raise ZeroDivisionError)
    else
      let v := with_position_on_edge
                 (position_on_edge v + distance_moved / edge_length) v in
      if num_lit 1 1 <=? position_on_edge v then
        (with_position_on_edge (num_lit 1 1) v, Ok true)
      else
        (v, Ok false).

(** [Vehicle.slow_down_for_vehicle_ahead] *)
Definition slow_down_for_vehicle_ahead (distance_to_vehicle min_distance : F)
    (v : Vehicle) : Vehicle :=
  if distance_to_vehicle <? min_distance then
    with_status STUCK (with_target_speed (num_lit 0 1) v)
  else if distance_to_vehicle <? min_distance * num_lit 2 1 then
    with_status STUCK
      (with_target_speed
         (speed_multiplier v * (distance_to_vehicle / (min_distance * num_lit 2 1))) v)
  else
    let v := with_target_speed (speed_multiplier v) v in
    if bool_decide (status v = STUCK) then with_status MOVING v else v.

(** [Vehicle.get_current_edge] *)
Definition get_current_edge (v : Vehicle) : option Edge :=
  if truthy (next_node v) then
    match next_node v with
    | Some n => Some (current_node v, n)
    | None => None
    end
  else None.

(** [Vehicle.increment_reroute] *)
Definition increment_reroute (v : Vehicle) : Vehicle :=
  with_status REROUTING (with_reroute_count (S (reroute_count v)) v).

(** [Vehicle.add_wait_time] *)
Definition add_wait_time (time_delta : F) (v : Vehicle) : Vehicle :=
  with_status STUCK (with_wait_time (wait_time v + time_delta) v).

End Vehicle.

Arguments Vehicle F : clear implicits.

(** ** The registry: [VehicleManager] *)

(** A key handed to [dict.get].  The keys of [self.vehicles] are
    strings; a [Vehicle] object defines neither [__eq__] nor [__hash__],
    so it compares by identity and equals no string. *)
Inductive pykey (F : Type) :=
  | KStr (s : string)
  | KVehicle (v : Vehicle F).
Arguments KStr {F} s.
Arguments KVehicle {F} v.

Section VehicleManager.
Context {F : Type} `{!Number F}.
Local Open Scope num_scope.

Record VehicleManager := {
  vehicles : gmap string (Vehicle F);
  active_vehicles : gset string;
  edge_occupancy : gmap Edge (list string)
}.

(** [VehicleManager.__init__] *)
Definition VehicleManager_init : VehicleManager :=
  {| vehicles := ∅; active_vehicles := ∅; edge_occupancy := ∅ |}.

Definition with_vehicles (x : gmap string (Vehicle F)) (m : VehicleManager) :=
  {| vehicles := x; active_vehicles := active_vehicles m;
     edge_occupancy := edge_occupancy m |}.
Definition with_active_vehicles (x : gset string) (m : VehicleManager) :=
  {| vehicles := vehicles m; active_vehicles := x;
     edge_occupancy := edge_occupancy m |}.
Definition with_edge_occupancy (x : gmap Edge (list string)) (m : VehicleManager) :=
  {| vehicles := vehicles m; active_vehicles := active_vehicles m;
     edge_occupancy := x |}.

(** [VehicleManager.add_vehicle] *)
Definition add_vehicle (v : Vehicle F) (m : VehicleManager) : VehicleManager * string :=
  let m := with_vehicles (<[veh_id v := v]> (vehicles m)) m in
  let m := if bool_decide (status v ≠ ARRIVED)
           then with_active_vehicles ({[veh_id v]} ∪ active_vehicles m) m
           else m in
  (m, veh_id v).

(** [list.remove]: drops the first occurrence. *)
Fixpoint list_remove (x : string) (l : list string) : list string :=
  match l with
  | [] => []
  | y :: l' => if String.eqb x y then l' else y :: list_remove x l'
  end.

(** [VehicleManager.remove_vehicle] *)
Definition remove_vehicle (vehicle_id : string) (m : VehicleManager)
    : VehicleManager * bool :=
  match vehicles m !! vehicle_id with
  | Some _ =>
      (with_edge_occupancy (list_remove vehicle_id <$> edge_occupancy m)
         (with_active_vehicles (active_vehicles m ∖ {[vehicle_id]})
            (with_vehicles (delete vehicle_id (vehicles m)) m)), true)
  | None => (m, false)
  end.

(** [VehicleManager.get_vehicle]: [self.vehicles.get(vehicle_id)]. *)
Definition get_vehicle (vehicle_id : pykey F) (m : VehicleManager) : option (Vehicle F) :=
  match vehicle_id with
  | KStr s => vehicles m !! s
  | KVehicle _ => None
  end.

(** [VehicleManager.get_all_vehicles] *)
Definition get_all_vehicles (m : VehicleManager) : list (Vehicle F) :=
  snd <$> map_to_list (vehicles m).

(** The ids [get_active_vehicles] yields a vehicle for, in the order the
    set is iterated. *)
Definition active_ids (m : VehicleManager) : list string :=
  filter (λ vid, is_Some (vehicles m !! vid)) (elements (active_vehicles m)).

(** [VehicleManager.get_active_vehicles] *)
Definition get_active_vehicles (m : VehicleManager) : list (Vehicle F) :=
  omap (λ vid, vehicles m !! vid) (elements (active_vehicles m)).

(** [VehicleManager.get_vehicles_on_edge] *)
Definition get_vehicles_on_edge (from_node to_node : string) (m : VehicleManager)
    : list (Vehicle F) :=
  omap (λ vid, vehicles m !! vid)
       (default [] (edge_occupancy m !! (from_node, to_node))).

(** [VehicleManager.update_edge_occupancy] *)
Definition update_edge_occupancy (m : VehicleManager) : VehicleManager :=
  with_edge_occupancy
    (foldl (λ (occ : gmap Edge (list string)) v,
              match get_current_edge v return gmap Edge (list string) with
              | Some edge => <[edge := (default [] (occ !! edge) ++ [veh_id v])%list]> occ
              | None => occ
              end) ∅ (get_active_vehicles m)) m.

(** [VehicleManager.get_edge_vehicle_count] *)
Definition get_edge_vehicle_count (from_node to_node : string) (m : VehicleManager) : nat :=
  List.length (default [] (edge_occupancy m !! (from_node, to_node))).

(** [VehicleManager.mark_vehicle_arrived] *)
Definition mark_vehicle_arrived (vehicle_id : string) (m : VehicleManager) : VehicleManager :=
  if bool_decide (vehicle_id ∈ active_vehicles m) then
    let m := with_active_vehicles (active_vehicles m ∖ {[vehicle_id]}) m in
    match vehicles m !! vehicle_id with
    | Some v => with_vehicles (<[vehicle_id := with_status ARRIVED v]> (vehicles m)) m
    | None => m
    end
  else m.

(** [VehicleManager.clear_arrived_vehicles] *)
Definition clear_arrived_vehicles (m : VehicleManager) : VehicleManager :=
  let arrived :=
    fst <$> filter (λ kv, status (snd kv) = ARRIVED) (map_to_list (vehicles m)) in
  foldl (λ m vid, fst (remove_vehicle vid m)) m arrived.

(** [VehicleManager.reset].  [Vehicle._id_counter] is a class attribute:
    the first component is its value after the call. *)
Definition reset (m : VehicleManager) : nat * VehicleManager :=
  (0%nat, {| vehicles := ∅; active_vehicles := ∅; edge_occupancy := ∅ |}).

End VehicleManager.

Arguments VehicleManager F : clear implicits.

(** ** The kernel: [MultiVehicleSimulator] *)

Inductive Severity := minor | moderate | severe.

Section Simulator.
Context {F : Type} `{!Number F}.
(** The state of the [TrafficAnalyzer] object. *)
Context {A : Type}.
Local Open Scope num_scope.

(** An entry of [self.accidents]. *)
Record Accident := {
  acc_id : string;
  acc_from_node : string;
  acc_to_node : string;
  severity : Severity;
  created_at : F;
  duration : F
}.

(** An entry of [self.blocked_roads]. *)
Record BlockInfo := {
  blk_from_node : string;
  blk_to_node : string;
  reason : string;
  blocked_at : F
}.

(** The graph maps a node to the ["to"] field of each of its outgoing
    edges, in order; the cost attributes of an edge are read by the
    path finder only.  [accidents] keeps insertion order. *)
Record MultiVehicleSimulator := {
  graph : gmap string (list string);
  heuristic_coords : gmap string (F * F);
  vehicle_manager : VehicleManager F;
  traffic_analyzer : A;
  traffic_multipliers : gmap Edge F;
  simulation_step : nat;
  is_running : bool;
  total_spawned : nat;
  last_update_time : F;
  edge_lengths : gmap Edge F;
  start_time : F;
  blocked_roads : gmap Edge BlockInfo;
  accidents : list (string * Accident);
  accident_counter : nat;
  congestion_points : list Edge
}.

Definition with_vehicle_manager (x : VehicleManager F) (s : MultiVehicleSimulator) :=
  {| graph := graph s; heuristic_coords := heuristic_coords s;
     vehicle_manager := x; traffic_analyzer := traffic_analyzer s;
     traffic_multipliers := traffic_multipliers s;
     simulation_step := simulation_step s; is_running := is_running s;
     total_spawned := total_spawned s; last_update_time := last_update_time s;
     edge_lengths := edge_lengths s; start_time := start_time s;
     blocked_roads := blocked_roads s; accidents := accidents s;
     accident_counter := accident_counter s;
     congestion_points := congestion_points s |}.

Definition with_traffic_analyzer (x : A) (s : MultiVehicleSimulator) :=
  {| graph := graph s; heuristic_coords := heuristic_coords s;
     vehicle_manager := vehicle_manager s; traffic_analyzer := x;
     traffic_multipliers := traffic_multipliers s;
     simulation_step := simulation_step s; is_running := is_running s;
     total_spawned := total_spawned s; last_update_time := last_update_time s;
     edge_lengths := edge_lengths s; start_time := start_time s;
     blocked_roads := blocked_roads s; accidents := accidents s;
     accident_counter := accident_counter s;
     congestion_points := congestion_points s |}.

Definition with_traffic_multipliers (x : gmap Edge F) (s : MultiVehicleSimulator) :=
  {| graph := graph s; heuristic_coords := heuristic_coords s;
     vehicle_manager := vehicle_manager s; traffic_analyzer := traffic_analyzer s;
     traffic_multipliers := x;
     simulation_step := simulation_step s; is_running := is_running s;
     total_spawned := total_spawned s; last_update_time := last_update_time s;
     edge_lengths := edge_lengths s; start_time := start_time s;
     blocked_roads := blocked_roads s; accidents := accidents s;
     accident_counter := accident_counter s;
     congestion_points := congestion_points s |}.

Definition with_simulation_step (x : nat) (s : MultiVehicleSimulator) :=
  {| graph := graph s; heuristic_coords := heuristic_coords s;
     vehicle_manager := vehicle_manager s; traffic_analyzer := traffic_analyzer s;
     traffic_multipliers := traffic_multipliers s;
     simulation_step := x; is_running := is_running s;
     total_spawned := total_spawned s; last_update_time := last_update_time s;
     edge_lengths := edge_lengths s; start_time := start_time s;
     blocked_roads := blocked_roads s; accidents := accidents s;
     accident_counter := accident_counter s;
     congestion_points := congestion_points s |}.

Definition with_is_running (x : bool) (s : MultiVehicleSimulator) :=
  {| graph := graph s; heuristic_coords := heuristic_coords s;
     vehicle_manager := vehicle_manager s; traffic_analyzer := traffic_analyzer s;
     traffic_multipliers := traffic_multipliers s;
     simulation_step := simulation_step s; is_running := x;
     total_spawned := total_spawned s; last_update_time := last_update_time s;
     edge_lengths := edge_lengths s; start_time := start_time s;
     blocked_roads := blocked_roads s; accidents := accidents s;
     accident_counter := accident_counter s;
     congestion_points := congestion_points s |}.

Definition with_total_spawned (x : nat) (s : MultiVehicleSimulator) :=
  {| graph := graph s; heuristic_coords := heuristic_coords s;
     vehicle_manager := vehicle_manager s; traffic_analyzer := traffic_analyzer s;
     traffic_multipliers := traffic_multipliers s;
     simulation_step := simulation_step s; is_running := is_running s;
     total_spawned := x; last_update_time := last_update_time s;
     edge_lengths := edge_lengths s; start_time := start_time s;
     blocked_roads := blocked_roads s; accidents := accidents s;
     accident_counter := accident_counter s;
     congestion_points := congestion_points s |}.

Definition with_last_update_time (x : F) (s : MultiVehicleSimulator) :=
  {| graph := graph s; heuristic_coords := heuristic_coords s;
     vehicle_manager := vehicle_manager s; traffic_analyzer := traffic_analyzer s;
     traffic_multipliers := traffic_multipliers s;
     simulation_step := simulation_step s; is_running := is_running s;
     total_spawned := total_spawned s; last_update_time := x;
     edge_lengths := edge_lengths s; start_time := start_time s;
     blocked_roads := blocked_roads s; accidents := accidents s;
     accident_counter := accident_counter s;
     congestion_points := congestion_points s |}.

Definition with_edge_lengths (x : gmap Edge F) (s : MultiVehicleSimulator) :=
  {| graph := graph s; heuristic_coords := heuristic_coords s;
     vehicle_manager := vehicle_manager s; traffic_analyzer := traffic_analyzer s;
     traffic_multipliers := traffic_multipliers s;
     simulation_step := simulation_step s; is_running := is_running s;
     total_spawned := total_spawned s; last_update_time := last_update_time s;
     edge_lengths := x; start_time := start_time s;
     blocked_roads := blocked_roads s; accidents := accidents s;
     accident_counter := accident_counter s;
     congestion_points := congestion_points s |}.

Definition with_blocked_roads (x : gmap Edge BlockInfo) (s : MultiVehicleSimulator) :=
  {| graph := graph s; heuristic_coords := heuristic_coords s;
     vehicle_manager := vehicle_manager s; traffic_analyzer := traffic_analyzer s;
     traffic_multipliers := traffic_multipliers s;
     simulation_step := simulation_step s; is_running := is_running s;
     total_spawned := total_spawned s; last_update_time := last_update_time s;
     edge_lengths := edge_lengths s; start_time := start_time s;
     blocked_roads := x; accidents := accidents s;
     accident_counter := accident_counter s;
     congestion_points := congestion_points s |}.

Definition with_accidents (x : list (string * Accident)) (s : MultiVehicleSimulator) :=
  {| graph := graph s; heuristic_coords := heuristic_coords s;
     vehicle_manager := vehicle_manager s; traffic_analyzer := traffic_analyzer s;
     traffic_multipliers := traffic_multipliers s;
     simulation_step := simulation_step s; is_running := is_running s;
     total_spawned := total_spawned s; last_update_time := last_update_time s;
     edge_lengths := edge_lengths s; start_time := start_time s;
     blocked_roads := blocked_roads s; accidents := x;
     accident_counter := accident_counter s;
     congestion_points := congestion_points s |}.

Definition with_accident_counter (x : nat) (s : MultiVehicleSimulator) :=
  {| graph := graph s; heuristic_coords := heuristic_coords s;
     vehicle_manager := vehicle_manager s; traffic_analyzer := traffic_analyzer s;
     traffic_multipliers := traffic_multipliers s;
     simulation_step := simulation_step s; is_running := is_running s;
     total_spawned := total_spawned s; last_update_time := last_update_time s;
     edge_lengths := edge_lengths s; start_time := start_time s;
     blocked_roads := blocked_roads s; accidents := accidents s;
     accident_counter := x;
     congestion_points := congestion_points s |}.

(** *** Collaborators *)

(** [pathfinder.a_star(graph, heuristic_coords, traffic_multipliers,
    start, goal, mode)], returning the pair [(path, cost)]; a path that
    tests false ([None] or the empty list) is the empty list. *)
Variable a_star :
  gmap string (list string) → gmap string (F * F) → gmap Edge F →
  string → string → string → list string * F.

(** [TrafficAnalyzer.update_traffic_multipliers], which mutates the
    dictionary it is handed, and [TrafficAnalyzer.get_congestion_probability].
    The analyzer holds a reference to the registry. *)
Variable update_traffic_multipliers :
  A → VehicleManager F → gmap Edge F → A * gmap Edge F.
Variable get_congestion_probability :
  A → VehicleManager F → string → string → F.

(** The float power [x ** 0.5] of [_calculate_edge_lengths]. *)
Variable pow_half : F → F.

(** Modelled from the spec: [config.DEFAULT_TRAFFIC_MULTIPLIER], the
    constant of the configuration module, which the specification gives
    as the default multiplier 1.0. *)
Definition DEFAULT_TRAFFIC_MULTIPLIER : F := num_lit 1 1.

(** *** Dictionary helpers for [self.accidents] *)

Fixpoint alist_lookup {V} (k : string) (l : list (string * V)) : option V :=
  match l with
  | [] => None
  | (k', x) :: l' => if String.eqb k k' then Some x else alist_lookup k l'
  end.

(** [d[k] = x]: an existing key keeps its place, a new one goes last. *)
Fixpoint alist_insert {V} (k : string) (x : V) (l : list (string * V))
    : list (string * V) :=
  match l with
  | [] => [(k, x)]
  | (k', y) :: l' =>
      if String.eqb k k' then (k, x) :: l' else (k', y) :: alist_insert k x l'
  end.

(** [del d[k]] *)
Fixpoint alist_delete {V} (k : string) (l : list (string * V)) : list (string * V) :=
  match l with
  | [] => []
  | (k', y) :: l' =>
      if String.eqb k k' then l' else (k', y) :: alist_delete k l'
  end.

(** [random.choice(seq)] on a non-empty sequence, from the index drawn. *)
Definition choice {V} (draw : nat) (l : list V) : option V :=
  l !! (draw mod List.length l)%nat.

(** *** Construction *)

(** [_initialize_traffic_multipliers] *)
Definition _initialize_traffic_multipliers (s : MultiVehicleSimulator)
    : MultiVehicleSimulator :=
  with_traffic_multipliers
    (foldl (λ (tm : gmap Edge F) (entry : string * list string),
              foldl (λ (tm : gmap Edge F) (to_node : string),
                       <[(entry.1, to_node) := DEFAULT_TRAFFIC_MULTIPLIER]> tm)
                    tm entry.2)
           (traffic_multipliers s) (map_to_list (graph s))) s.

(** [_calculate_edge_lengths] *)
Definition _calculate_edge_lengths (s : MultiVehicleSimulator)
    : MultiVehicleSimulator :=
  with_edge_lengths
    (foldl (λ (el : gmap Edge F) (entry : string * list string),
              match heuristic_coords s !! entry.1 with
              | None => el
              | Some (x1, y1) =>
                  foldl (λ (el : gmap Edge F) (to_node : string),
                           match heuristic_coords s !! to_node with
                           | None => el
                           | Some (x2, y2) =>
                               let distance :=
                                 pow_half ((x2 - x1) * (x2 - x1) + (y2 - y1) * (y2 - y1))
                                 * num_lit 110 1 in
                               <[(entry.1, to_node) := pymax distance (num_lit 50 1)]> el
                           end)
                        el entry.2
              end)
           (edge_lengths s) (map_to_list (graph s))) s.

(** [MultiVehicleSimulator.__init__]; [now] is the clock reading and
    [hotspots] the edges [_identify_congestion_hotspots] selects with its
    random draws. *)
Definition MultiVehicleSimulator_init (g : gmap string (list string))
    (coords : gmap string (F * F)) (analyzer : A) (now : F)
    (hotspots : list Edge) : MultiVehicleSimulator :=
  _calculate_edge_lengths
    (_initialize_traffic_multipliers
       {| graph := g; heuristic_coords := coords;
          vehicle_manager := VehicleManager_init;
          traffic_analyzer := analyzer;
          traffic_multipliers := ∅;
          simulation_step := 0; is_running := false; total_spawned := 0;
          last_update_time := now; edge_lengths := ∅; start_time := now;
          blocked_roads := ∅; accidents := []; accident_counter := 0;
          congestion_points := hotspots |}).

(** *** Incidents and blocks *)

(** [severity_multipliers] *)
Definition severity_multipliers (sev : Severity) : F :=
  match sev with
  | minor => num_lit 2 1
  | moderate => num_lit 4 1
  | severe => num_lit 10 1
  end.

(** The random draws and the clock reading of one [create_accident]. *)
Record AccidentDraw := {
  draw_node : nat;
  draw_edge : nat;
  draw_severity : Severity;
  draw_duration : nat;
  draw_now : F
}.

(** The tail of [create_accident], once the edge is known. *)
Definition record_accident (d : AccidentDraw) (from_node to_node : string)
    (s : MultiVehicleSimulator) : MultiVehicleSimulator * res (option Accident) :=
  let s := with_accident_counter (S (accident_counter s)) s in
  let accident_id := "accident_" +:+ pretty (accident_counter s) in
  let accident :=
    {| acc_id := accident_id; acc_from_node := from_node; acc_to_node := to_node;
       severity := draw_severity d; created_at := draw_now d;
       duration := num_lit (Z.of_nat (30 + draw_duration d mod 91)) 1 |} in
  let s := with_accidents (alist_insert accident_id accident (accidents s)) s in
  match traffic_multipliers s !! (from_node, to_node) with
  | None => (s, Raise KeyError)
  | Some m =>
      (with_traffic_multipliers
         (<[(from_node, to_node) := m * severity_multipliers (severity accident)]>
            (traffic_multipliers s)) s,
       Ok (Some accident))
  end.

(** [create_accident] *)
Definition create_accident (d : AccidentDraw) (from_node to_node : option string)
    (s : MultiVehicleSimulator) : MultiVehicleSimulator * res (option Accident) :=
  match from_node, to_node with
  | Some f, Some t => record_accident d f t s
  | _, _ =>
      let nodes := fst <$> map_to_list (graph s) in
      match choice (draw_node d) nodes with
      | None => (s, Ok None)
      | Some f =>
          let edges := default [] (graph s !! f) in
          match choice (draw_edge d) edges with
          | None => (s, Ok None)
          | Some t => record_accident d f t s
          end
      end
  end.

(** [resolve_accident] *)
Definition resolve_accident (accident_id : string) (s : MultiVehicleSimulator)
    : MultiVehicleSimulator * res bool :=
  match alist_lookup accident_id (accidents s) with
  | None => (s, Ok false)
  | Some accident =>
      let edge := (acc_from_node accident, acc_to_node accident) in
      match traffic_multipliers s !! edge with
      | None => (s, Raise KeyError)
      | Some m =>
          let s := with_traffic_multipliers
                     (<[edge := m / severity_multipliers (severity accident)]>
                        (traffic_multipliers s)) s in
          (with_accidents (alist_delete accident_id (accidents s)) s, Ok true)
      end
  end.

(** [block_road]; [now] is the clock reading stored as [blocked_at]. *)
Definition block_road (now : F) (from_node to_node reason : string)
    (s : MultiVehicleSimulator) : MultiVehicleSimulator * bool :=
  let edge := (from_node, to_node) in
  match traffic_multipliers s !! edge with
  | None => (s, false)
  | Some _ =>
      let s := with_blocked_roads
                 (<[edge := {| blk_from_node := from_node; blk_to_node := to_node;
                               reason := reason; blocked_at := now |}]>
                    (blocked_roads s)) s in
      (with_traffic_multipliers (<[edge := num_lit 100 1]> (traffic_multipliers s)) s,
       true)
  end.

(** [unblock_road] *)
Definition unblock_road (from_node to_node : string) (s : MultiVehicleSimulator)
    : MultiVehicleSimulator * bool :=
  let edge := (from_node, to_node) in
  match blocked_roads s !! edge with
  | None => (s, false)
  | Some _ =>
      let s := with_blocked_roads (delete edge (blocked_roads s)) s in
      (with_traffic_multipliers
         (<[edge := DEFAULT_TRAFFIC_MULTIPLIER]> (traffic_multipliers s)) s, true)
  end.

(** [get_elapsed_time], from the clock reading. *)
Definition get_elapsed_time (now : F) (s : MultiVehicleSimulator) : F :=
  now - start_time s.

(** *** Spawning *)

(** The random indices of one [spawn_vehicle]. *)
Record SpawnDraw := {
  draw_start : nat;
  draw_goal : nat
}.

(** [spawn_vehicle].  [counter] is [Vehicle._id_counter] before the
    call; the first component of the result is its value afterwards. *)
Definition spawn_vehicle (d : SpawnDraw) (now : F) (vehicle_type : VehicleType)
    (start_node goal_node : option string) (counter : nat)
    (s : MultiVehicleSimulator)
    : nat * MultiVehicleSimulator * option (Vehicle F) :=
  let nodes := fst <$> map_to_list (graph s) in
  match choice (draw_start d) nodes with
  | None => (counter, s, None)
  | Some drawn_start =>
      let start := default drawn_start start_node in
      let goal :=
        match goal_node with
        | Some g => Some g
        | None => choice (draw_goal d) (filter (λ n, n ≠ start) nodes)
        end in
      match goal with
      | None => (counter, s, None)
      | Some goal =>
          let counter := S counter in
          let vehicle := Vehicle_init counter now vehicle_type start goal in
          let '(new_path, cost) :=
            a_star (graph s) (heuristic_coords s) (traffic_multipliers s)
                   start goal (value vehicle_type) in
          match new_path with
          | [] => (counter, s, None)
          | _ =>
              let vehicle := set_path new_path cost vehicle in
              let s := with_vehicle_manager
                         (fst (add_vehicle vehicle (vehicle_manager s))) s in
              (counter, with_total_spawned (S (total_spawned s)) s, Some vehicle)
          end
      end
  end.

(** *** Rerouting *)

(** The look-ahead window of [_should_reroute]. *)
Definition upcoming_edges (v : Vehicle F) : list Edge :=
  omap (λ i, match path v !! i, path v !! S i with
             | Some a, Some b => Some (a, b)
             | _, _ => None
             end)
       (seq (path_index v)
            (Nat.min (path_index v + 3) (List.length (path v) - 1) - path_index v)).

(** [_should_reroute] *)
Definition _should_reroute (s : MultiVehicleSimulator) (v : Vehicle F) : bool :=
  if bool_decide (List.length (path v) < 2)%nat then false
  else if existsb (λ edge, bool_decide (is_Some (blocked_roads s !! edge)))
                  (upcoming_edges v) then true
  else existsb (λ edge,
                  num_lit 5 10 <?
                  get_congestion_probability (traffic_analyzer s) (vehicle_manager s)
                                             edge.1 edge.2)
               (upcoming_edges v).

(** [_reroute_vehicle] *)
Definition _reroute_vehicle (s : MultiVehicleSimulator) (v : Vehicle F) : Vehicle F :=
  let '(new_path, new_cost) :=
    a_star (graph s) (heuristic_coords s) (traffic_multipliers s)
           (current_node v) (goal_node v) (value (veh_type v)) in
  if bool_decide (new_path ≠ []) && bool_decide (new_path ≠ drop (path_index v) (path v))
  then
    let v := set_path new_path new_cost v in
    let v := increment_reroute v in
    let v := with_path_index 0 v in
    let v := with_target_speed (speed_multiplier v) v in
    with_status MOVING v
  else v.

(** Assignment through the reference held in [self.vehicles]. *)
Definition store_vehicle (vid : string) (v : Vehicle F) (s : MultiVehicleSimulator) :=
  with_vehicle_manager
    (with_vehicles (<[vid := v]> (vehicles (vehicle_manager s))) (vehicle_manager s)) s.

(** [move_vehicle], on the vehicle registered under [vid]. *)
Definition move_vehicle (now : F) (vid : string) (s : MultiVehicleSimulator)
    : MultiVehicleSimulator * bool :=
  match vehicles (vehicle_manager s) !! vid with
  | None => (s, false)
  | Some v =>
      if bool_decide (status v = ARRIVED) then (s, false)
      else
        let v := if _should_reroute s v then _reroute_vehicle s v else v in
        let '(v, success) := move_to_next_node now v in
        let s := store_vehicle vid v s in
        let s := if bool_decide (status v = ARRIVED)
                 then with_vehicle_manager
                        (mark_vehicle_arrived (veh_id v) (vehicle_manager s)) s
                 else s in
        (s, success)
  end.

(** *** The tick *)

(** [other_id == vehicle.id] *)
Definition pykey_eq_str (k : pykey F) (x : string) : bool :=
  match k with
  | KStr y => String.eqb y x
  | KVehicle _ => false
  end.

(** The search for the vehicle directly ahead.  The loop variable ranges
    over the [Vehicle] objects that [get_vehicles_on_edge] returns.  The
    result is [ahead_vehicle] with [min_distance]; [None] is the initial
    pair [(None, float('inf'))]. *)
Definition find_ahead (s : MultiVehicleSimulator) (v : Vehicle F) (edge : Edge)
    : option (Vehicle F * F) :=
  foldl (λ (acc : option (Vehicle F * F)) (other_id : Vehicle F),
           if pykey_eq_str (KVehicle other_id) (veh_id v) then acc
           else
             match get_vehicle (KVehicle other_id) (vehicle_manager s) with
             | None => acc
             | Some other =>
                 if position_on_edge v <? position_on_edge other then
                   let distance := position_on_edge other - position_on_edge v in
                   let edge_length := default (num_lit 100 1) (edge_lengths s !! edge) in
                   let pixel_distance := distance * edge_length in
                   match acc with
                   | None => Some (other, pixel_distance)
                   | Some (_, min_distance) =>
                       if pixel_distance <? min_distance
                       then Some (other, pixel_distance) else acc
                   end
                 else acc
             end)
        None (get_vehicles_on_edge edge.1 edge.2 (vehicle_manager s)).

(** The speed control applied when no vehicle is ahead. *)
Definition congestion_speed_control (s : MultiVehicleSimulator) (v : Vehicle F)
    (edge : Edge) : Vehicle F :=
  let traffic_multiplier := default (num_lit 1 1) (traffic_multipliers s !! edge) in
  let ideal_speed :=
    if num_lit 1 1 <? traffic_multiplier then
      let speed_factor := num_lit 1 1 / traffic_multiplier in
      speed_multiplier v * pymax speed_factor (num_lit 2 10)
    else speed_multiplier v in
  let v :=
    if current_speed v <? num_lit 10 1 then
      if target_speed v <? speed_multiplier v * num_lit 9 10
      then with_target_speed (speed_multiplier v) v else v
    else
      let speed_diff := ideal_speed - target_speed v in
      if num_lit 2 1 <? num_abs speed_diff then
        if num_lit 0 1 <? speed_diff
        then with_target_speed (pymin (target_speed v + num_lit 1 10) ideal_speed) v
        else with_target_speed (pymax ideal_speed (target_speed v - num_lit 1 10)) v
      else if num_lit 5 10 <? num_abs speed_diff then
        if num_lit 0 1 <? speed_diff
        then with_target_speed (pymin (target_speed v + num_lit 2 10) ideal_speed) v
        else with_target_speed (pymax ideal_speed (target_speed v - num_lit 2 10)) v
      else v in
  if (num_lit 3 1 <? traffic_multiplier) && (current_speed v <? num_lit 1 1) then
    with_status STUCK v
  else if bool_decide (status v = STUCK) && (num_lit 3 1 <? current_speed v) then
    with_status MOVING v
  else v.

(** The body of the first loop over [active_vehicles]. *)
Definition first_pass_vehicle (s : MultiVehicleSimulator) (v : Vehicle F) : Vehicle F :=
  if bool_decide (status v = ARRIVED) || negb (truthy (next_node v)) then v
  else
    let edge := (current_node v, default "" (next_node v)) in
    if bool_decide (is_Some (blocked_roads s !! edge)) then
      if _should_reroute s v then _reroute_vehicle s v
      else with_status STUCK (with_target_speed (num_lit 0 1) v)
    else
      match find_ahead s v edge with
      | Some (_, min_distance) =>
          slow_down_for_vehicle_ahead min_distance (num_lit 30 1) v
      | None => congestion_speed_control s v edge
      end.

(** The first loop.  [ids] are the keys of the objects in
    [active_vehicles]; each object is mutated in place. *)
Definition first_pass (ids : list string) (s : MultiVehicleSimulator)
    : MultiVehicleSimulator :=
  foldl (λ s vid,
           match vehicles (vehicle_manager s) !! vid with
           | Some v => store_vehicle vid (first_pass_vehicle s v) s
           | None => s
           end) s ids.

(** The body of the second loop: the vehicle afterwards, and whether it
    counts as moved and as arrived. *)
Definition second_pass_vehicle (delta_time now : F) (s : MultiVehicleSimulator)
    (v : Vehicle F) : Vehicle F * res (bool * bool) :=
  if bool_decide (status v = ARRIVED) || negb (truthy (next_node v)) then
    (v, Ok (false, false))
  else
    let edge := (current_node v, default "" (next_node v)) in
    let edge_length := default (num_lit 100 1) (edge_lengths s !! edge) in
    match update_position delta_time edge_length v with
    | (v, Raise e) => (v, Raise e)
    | (v, Ok false) => (v, Ok (false, false))
    | (v, Ok true) =>
        let '(v, success) := move_to_next_node now v in
        (v, Ok (success, bool_decide (status v = ARRIVED)))
    end.

(** The second loop, with the counters [moved] and [arrived]. *)
Fixpoint second_pass (delta_time : F) (arrival_clock : string → F)
    (ids : list string) (moved arrived : nat) (s : MultiVehicleSimulator)
    : MultiVehicleSimulator * res (nat * nat) :=
  match ids with
  | [] => (s, Ok (moved, arrived))
  | vid :: ids =>
      match vehicles (vehicle_manager s) !! vid with
      | None => second_pass delta_time arrival_clock ids moved arrived s
      | Some v =>
          match second_pass_vehicle delta_time (arrival_clock vid) s v with
          | (v, Raise e) => (store_vehicle vid v s, Raise e)
          | (v, Ok (m, a)) =>
              second_pass delta_time arrival_clock ids
                (if m then S moved else moved)
                (if a then S arrived else arrived)
                (store_vehicle vid v s)
          end
      end
  end.

(** What one tick reads from the clock and from [random]. *)
Record TickInputs := {
  tick_time : F;
  elapsed_clock : F;
  accident_roll : F;
  accident_draw : AccidentDraw;
  hotspot_uniform : nat → F;
  arrival_clock : string → F
}.

(** The dictionary a tick returns. *)
Record TickResult := {
  res_step : nat;
  res_active_vehicles : Z;
  res_moved : nat;
  res_arrived : nat;
  res_total_vehicles : nat;
  res_delta_time : F;
  res_elapsed_time : F;
  res_accidents : list Accident;
  res_blocked_roads : list BlockInfo
}.

(** The loop that resolves expired accidents, over the ids present when
    it starts. *)
Fixpoint resolve_expired (current_time : F) (ids : list string)
    (s : MultiVehicleSimulator) : MultiVehicleSimulator * res unit :=
  match ids with
  | [] => (s, Ok tt)
  | accident_id :: ids =>
      match alist_lookup accident_id (accidents s) with
      | None => (s, Raise KeyError)
      | Some accident =>
          if duration accident <? current_time - created_at accident then
            match resolve_accident accident_id s with
            | (s, Raise e) => (s, Raise e)
            | (s, Ok _) => resolve_expired current_time ids s
            end
          else resolve_expired current_time ids s
      end
  end.

(** The hotspot loop; [k] counts the calls to [random.uniform]. *)
Fixpoint hotspot_drift (congestion_factor : F) (uniform : nat → F) (k : nat)
    (edges : list Edge) (tm : gmap Edge F) : gmap Edge F :=
  match edges with
  | [] => tm
  | edge :: edges =>
      match tm !! edge with
      | Some base_multiplier =>
          if num_lit 3 10 <? congestion_factor then
            let time_penalty := num_lit 1 1 + congestion_factor * uniform k in
            let new_multiplier := pymin (base_multiplier * time_penalty) (num_lit 5 1) in
            hotspot_drift congestion_factor uniform (S k) edges
              (<[edge := base_multiplier * num_lit 7 10 + new_multiplier * num_lit 3 10]> tm)
          else hotspot_drift congestion_factor uniform k edges tm
      | None => hotspot_drift congestion_factor uniform k edges tm
      end
  end.

(** [simulation_tick] *)
Definition simulation_tick (inp : TickInputs) (s : MultiVehicleSimulator)
    : MultiVehicleSimulator * res TickResult :=
  let current_time := tick_time inp in
  let delta_time := current_time - last_update_time s in
  let s := with_last_update_time current_time s in
  let delta_time := pymin delta_time (num_lit 2 10) in
  let s := with_simulation_step (S (simulation_step s)) s in
  let elapsed_time := get_elapsed_time (elapsed_clock inp) s in
  let congestion_factor := pymin (elapsed_time / num_lit 60 1) (num_lit 1 1) in
  let '(s, created) :=
    if accident_roll inp <? num_lit 5 100000 * (elapsed_time / num_lit 60 1)
    then create_accident (accident_draw inp) None None s
    else (s, Ok None) in
  match created with
  | Raise e => (s, Raise e)
  | Ok _ =>
      match resolve_expired current_time (fst <$> accidents s) s with
      | (s, Raise e) => (s, Raise e)
      | (s, Ok _) =>
          let '(analyzer, tm) :=
            update_traffic_multipliers (traffic_analyzer s) (vehicle_manager s)
                                       (traffic_multipliers s) in
          let s := with_traffic_multipliers tm (with_traffic_analyzer analyzer s) in
          let s :=
            if bool_decide (simulation_step s mod 30 = 0)%nat then
              with_traffic_multipliers
                (hotspot_drift congestion_factor (hotspot_uniform inp) 0
                               (congestion_points s) (traffic_multipliers s)) s
            else s in
          let ids := active_ids (vehicle_manager s) in
          let s := first_pass ids s in
          match second_pass delta_time (arrival_clock inp) ids 0 0 s with
          | (s, Raise e) => (s, Raise e)
          | (s, Ok (moved, arrived)) =>
              let s := with_vehicle_manager
                         (update_edge_occupancy (vehicle_manager s)) s in
              (s, Ok {| res_step := simulation_step s;
                        res_active_vehicles := Z.of_nat (List.length ids) - Z.of_nat arrived;
                        res_moved := moved;
                        res_arrived := arrived;
                        res_total_vehicles :=
                          List.length (get_all_vehicles (vehicle_manager s));
                        res_delta_time := delta_time;
                        res_elapsed_time := elapsed_time;
                        res_accidents := snd <$> accidents s;
                        res_blocked_roads := snd <$> map_to_list (blocked_roads s) |})
          end
      end
  end.

(** *** Reset and stop *)

(** [reset_simulation]; the first component is [Vehicle._id_counter]
    after the call. *)
Definition reset_simulation (s : MultiVehicleSimulator)
    : nat * MultiVehicleSimulator :=
  let '(counter, m) := reset (vehicle_manager s) in
  let s := with_vehicle_manager m s in
  let s := _initialize_traffic_multipliers s in
  let s := with_simulation_step 0 s in
  let s := with_is_running false s in
  (counter, with_total_spawned 0 s).

(** [stop_simulation] *)
Definition stop_simulation (s : MultiVehicleSimulator) : MultiVehicleSimulator :=
  with_is_running false s.

(** *** Vocabulary of the statements below *)

(** The registry and the cached edge lengths of [s'] are those of [s]. *)
Definition same_fleet (s s' : MultiVehicleSimulator) : Prop :=
  vehicle_manager s' = vehicle_manager s ∧ edge_lengths s' = edge_lengths s.

(** The accident [record_accident] builds. *)
Definition new_accident (d : AccidentDraw) (u v : string)
    (s : MultiVehicleSimulator) : Accident :=
  {| acc_id := "accident_" +:+ pretty (S (accident_counter s));
     acc_from_node := u; acc_to_node := v;
     severity := draw_severity d; created_at := draw_now d;
     duration := num_lit (Z.of_nat (30 + draw_duration d mod 91)) 1 |}.

(** The path the router returns for a vehicle. *)
Definition routed (s : MultiVehicleSimulator) (v : Vehicle F) : list string :=
  (a_star (graph s) (heuristic_coords s) (traffic_multipliers s)
          (current_node v) (goal_node v) (value (veh_type v))).1.

(** Two simulator states that differ in the registry only. *)
Definition same_roads (s s' : MultiVehicleSimulator) : Prop :=
  graph s' = graph s ∧ heuristic_coords s' = heuristic_coords s ∧
  traffic_multipliers s' = traffic_multipliers s ∧
  blocked_roads s' = blocked_roads s ∧
  traffic_analyzer s' = traffic_analyzer s ∧
  edge_lengths s' = edge_lengths s.

End Simulator.

Arguments MultiVehicleSimulator F A : clear implicits.
Arguments Accident F : clear implicits.
Arguments BlockInfo F : clear implicits.
Arguments AccidentDraw F : clear implicits.
Arguments TickInputs F : clear implicits.
Arguments TickResult F : clear implicits.

(** ** Sequences of operations *)

(** The public operations on one agent. *)
Inductive agent_op (F : Type) :=
  | OpSetPath (new_path : list string) (cost : F)
  | OpMoveToNextNode (now : F)
  | OpMarkArrived.
Arguments OpSetPath {F} new_path cost.
Arguments OpMoveToNextNode {F} now.
Arguments OpMarkArrived {F}.

(** The two kernels of a process that runs more than one. *)
Inductive kernel := KernelA | KernelB.

Section Sequences.
Context {F : Type} `{!Number F} {A : Type}.
Variable a_star :
  gmap string (list string) → gmap string (F * F) → gmap Edge F →
  string → string → string → list string * F.

(** One operation on the agent registered under [vid]. *)
Definition apply_agent_op (vid : string) (op : agent_op F) (m : VehicleManager F)
    : VehicleManager F :=
  match op with
  | OpSetPath new_path cost =>
      match vehicles m !! vid with
      | Some v => with_vehicles (<[vid := set_path new_path cost v]> (vehicles m)) m
      | None => m
      end
  | OpMoveToNextNode now =>
      match vehicles m !! vid with
      | Some v => with_vehicles (<[vid := (move_to_next_node now v).1]> (vehicles m)) m
      | None => m
      end
  | OpMarkArrived => mark_vehicle_arrived vid m
  end.

Definition run_agent_ops (vid : string) (ops : list (agent_op F)) (m : VehicleManager F)
    : VehicleManager F :=
  foldl (λ m op, apply_agent_op vid op m) m ops.

(** The invariant the specification states for an agent: Arrived exactly
    at the last index of the path, and a next node while not Arrived. *)
Definition arrival_invariant (v : Vehicle F) : Prop :=
  (status v = ARRIVED ↔
   Z.of_nat (path_index v) = (Z.of_nat (List.length (path v)) - 1)%Z) ∧
  (status v ≠ ARRIVED → is_Some (next_node v)).

(** The cursor stays inside the path. *)
Definition cursor_invariant (v : Vehicle F) : Prop :=
  (path_index v < List.length (path v))%nat ∧ arrival_invariant v.

(** The id of a vehicle numbered in the interval [(lo, hi]]. *)
Definition numbered (lo hi : nat) (v : Vehicle F) : Prop :=
  ∃ t n, (lo < n ≤ hi)%nat ∧ veh_id v = value t +:+ "_" +:+ pretty n.

(** The operations as the kernel issues them: a path handed to
    [set_path] has two nodes or more, and [mark_vehicle_arrived] is called
    on an agent whose status is Arrived already. *)
Definition op_as_issued (v : option (Vehicle F)) (op : agent_op F) : Prop :=
  match op with
  | OpSetPath new_path _ => (2 ≤ List.length new_path)%nat
  | OpMoveToNextNode _ => True
  | OpMarkArrived => ∀ w, v = Some w → status w = ARRIVED
  end.

Fixpoint ops_as_issued (vid : string) (ops : list (agent_op F)) (m : VehicleManager F)
    : Prop :=
  match ops with
  | [] => True
  | op :: ops =>
      op_as_issued (vehicles m !! vid) op ∧
      ops_as_issued vid ops (apply_agent_op vid op m)
  end.

(** A process with two kernels.  [Vehicle._id_counter] belongs to the
    class, not to a kernel or its registry. *)
Record World := {
  id_counter : nat;
  kernel_a : MultiVehicleSimulator F A;
  kernel_b : MultiVehicleSimulator F A
}.

Definition get_kernel (k : kernel) (w : World) : MultiVehicleSimulator F A :=
  match k with KernelA => kernel_a w | KernelB => kernel_b w end.

Definition set_kernel (k : kernel) (c : nat) (s : MultiVehicleSimulator F A) (w : World)
    : World :=
  match k with
  | KernelA => {| id_counter := c; kernel_a := s; kernel_b := kernel_b w |}
  | KernelB => {| id_counter := c; kernel_a := kernel_a w; kernel_b := s |}
  end.

Inductive world_cmd :=
  | WSpawn (k : kernel) (d : SpawnDraw) (now : F) (vehicle_type : VehicleType)
           (start_node goal_node : option string)
  | WReset (k : kernel).

Definition is_spawn (c : world_cmd) : bool :=
  match c with WSpawn _ _ _ _ _ _ => true | WReset _ => false end.

(** One command, with the vehicle a spawn returns. *)
Definition world_step (c : world_cmd) (w : World) : World * option (Vehicle F) :=
  match c with
  | WSpawn k d now vehicle_type start_node goal_node =>
      let '(counter, s, r) :=
        spawn_vehicle a_star d now vehicle_type start_node goal_node
                      (id_counter w) (get_kernel k w) in
      (set_kernel k counter s w, r)
  | WReset k =>
      let '(counter, s) := reset_simulation (get_kernel k w) in
      (set_kernel k counter s w, None)
  end.

(** A run of commands, with the vehicles its spawns returned, in order. *)
Fixpoint world_run (cs : list world_cmd) (w : World) : World * list (Vehicle F) :=
  match cs with
  | [] => (w, [])
  | c :: cs =>
      let '(w, r) := world_step c w in
      let '(w', vs) := world_run cs w in
      (w', match r with Some v => v :: vs | None => vs end)
  end.

End Sequences.

Arguments World F A : clear implicits.
Arguments world_cmd F : clear implicits.

(** ** Runs of the kernel *)

Section Runs.
Context {F : Type} `{!Number F} {A : Type}.
Variable a_star :
  gmap string (list string) → gmap string (F * F) → gmap Edge F →
  string → string → string → list string * F.
Variable update_traffic_multipliers :
  A → VehicleManager F → gmap Edge F → A * gmap Edge F.
Variable get_congestion_probability :
  A → VehicleManager F → string → string → F.

(** The commands of the kernel. *)
Inductive kernel_cmd :=
  | CmdSpawn (d : SpawnDraw) (now : F) (vehicle_type : VehicleType)
             (start_node goal_node : option string)
  | CmdTick (inp : TickInputs F)
  | CmdCreateAccident (d : AccidentDraw F) (from_node to_node : option string)
  | CmdResolveAccident (accident_id : string)
  | CmdBlockRoad (now : F) (from_node to_node reason : string)
  | CmdUnblockRoad (from_node to_node : string)
  | CmdReset.

(** One command on the class-level id counter and the kernel.  A command
    that raises leaves the state it had reached. *)
Definition kernel_step (c : kernel_cmd) (st : nat * MultiVehicleSimulator F A)
    : nat * MultiVehicleSimulator F A :=
  match c with
  | CmdSpawn d now vehicle_type start_node goal_node =>
      (spawn_vehicle a_star d now vehicle_type start_node goal_node st.1 st.2).1
  | CmdTick inp =>
      (st.1, (simulation_tick a_star update_traffic_multipliers
                              get_congestion_probability inp st.2).1)
  | CmdCreateAccident d from_node to_node =>
      (st.1, (create_accident d from_node to_node st.2).1)
  | CmdResolveAccident accident_id => (st.1, (resolve_accident accident_id st.2).1)
  | CmdBlockRoad now from_node to_node reason =>
      (st.1, (block_road now from_node to_node reason st.2).1)
  | CmdUnblockRoad from_node to_node => (st.1, (unblock_road from_node to_node st.2).1)
  | CmdReset => reset_simulation st.2
  end.

Definition kernel_run (cs : list kernel_cmd) (st : nat * MultiVehicleSimulator F A)
    : nat * MultiVehicleSimulator F A :=
  foldl (λ st c, kernel_step c st) st cs.

End Runs.

Arguments kernel_cmd F : clear implicits.

(** ** The speed stage of the update, in the words of the specification *)

(** [current] slewed towards [target] by [step], clamped so that it never
    overshoots [target]. *)
Definition slew {F : Type} `{!Number F} (current target step : F) : F :=
  if num_leb current target then pymin (num_add current step) target
  else pymax (num_sub current step) target.

(** ** Overflow of a binary64 product *)

(** The product [m * f] overflows when it is infinite although [m] is
    not. *)
Definition overflows (m f : float) : bool :=
  negb (PrimFloat.is_infinity m) && PrimFloat.is_infinity (PrimFloat.mul m f).

(** The bounds the specification states for an agent, in exact
    arithmetic. *)
Definition kinematic_bounds (v : Vehicle Q) : Prop :=
  (0 <= position_on_edge v <= 1)%Q ∧
  (0 <= current_speed v <= SPEED_MULTIPLIERS (veh_type v))%Q.

(** The bounds together with what keeps them: the target speed lies
    between zero and the maximum speed of the kind. *)
Definition well_formed_vehicle (v : Vehicle Q) : Prop :=
  kinematic_bounds v ∧
  (0 <= target_speed v <= speed_multiplier v)%Q ∧
  speed_multiplier v = SPEED_MULTIPLIERS (veh_type v) ∧
  (0 <= acceleration v)%Q.

(** Every registered vehicle is well formed and every cached edge length
    is at least the 50 pixels that [_calculate_edge_lengths] enforces. *)
Definition kernel_ok {A} (s : MultiVehicleSimulator Q A) : Prop :=
  (∀ vid v, vehicles (vehicle_manager s) !! vid = Some v → well_formed_vehicle v) ∧
  (∀ e L, edge_lengths s !! e = Some L → (50 <= L)%Q).

(** The wall clock does not run backwards between ticks. *)
Definition tick_after {A} (c : kernel_cmd Q) (s : MultiVehicleSimulator Q A) : Prop :=
  match c with
  | CmdTick inp => (last_update_time s <= tick_time inp)%Q
  | _ => True
  end.

Section ExactRuns.
Context {A : Type}.
Variable a_star :
  gmap string (list string) → gmap string (Q * Q) → gmap Edge Q →
  string → string → string → list string * Q.
Variable update_traffic_multipliers :
  A → VehicleManager Q → gmap Edge Q → A * gmap Edge Q.
Variable get_congestion_probability :
  A → VehicleManager Q → string → string → Q.

(** Every tick of the run reads a clock that has not gone back since the
    tick before it. *)
Fixpoint clock_monotone (cs : list (kernel_cmd Q)) (st : nat * MultiVehicleSimulator Q A)
    : Prop :=
  match cs with
  | [] => True
  | c :: cs =>
      tick_after c st.2 ∧
      clock_monotone cs
        (kernel_step a_star update_traffic_multipliers get_congestion_probability c st)
  end.

End ExactRuns.

(** ** A concrete network

    The diamond [A → B → D], [A → C → D] of the blocked-edge scenario, with
    base cost 1 on the upper route and 2 on the lower one.  The nodes have
    no coordinates, so every edge has the fallback length of 100 pixels. *)
Module Diamond.
Section Diamond.
Context {F : Type} `{!Number F}.

Definition graph : gmap string (list string) :=
  <["A" := ["B"; "C"]]> (<["B" := ["D"]]> (<["C" := ["D"]]> (<["D" := []]> ∅))).

Definition coords : gmap string (F * F) := ∅.

(** The cheapest route under the live multipliers, for the queries the
    scenario makes. *)
Definition a_star (g : gmap string (list string)) (c : gmap string (F * F))
    (tm : gmap Edge F) (start goal mode : string) : list string * F :=
  let m (e : Edge) := default (num_lit 1 1) (tm !! e) in
  if String.eqb start "A" && String.eqb goal "D" then
    let via_b := num_add (m ("A", "B")) (m ("B", "D")) in
    let via_c := num_add (num_mul (num_lit 2 1) (m ("A", "C")))
                         (num_mul (num_lit 2 1) (m ("C", "D"))) in
    if num_ltb via_c via_b then (["A"; "C"; "D"], via_c)
    else (["A"; "B"; "D"], via_b)
  else if String.eqb start "B" && String.eqb goal "D" then (["B"; "D"], m ("B", "D"))
  else if String.eqb start goal then ([start], num_lit 0 1)
  else ([], num_lit 0 1).

(** An analyzer that leaves the multipliers alone and reports no
    congestion. *)
Definition update_traffic_multipliers (a : unit) (m : VehicleManager F)
    (tm : gmap Edge F) : unit * gmap Edge F := (a, tm).
Definition get_congestion_probability (a : unit) (m : VehicleManager F)
    (u v : string) : F := num_lit 0 1.

(** The simulator at construction, at time 0 and with the given
    hotspots. *)
Definition sim_init (hotspots : list Edge) : MultiVehicleSimulator F unit :=
  MultiVehicleSimulator_init (λ x, x) graph coords tt (num_lit 0 1) hotspots.

Definition sim0 : MultiVehicleSimulator F unit := sim_init [].

Definition no_draw : SpawnDraw := {| draw_start := 0; draw_goal := 0 |}.

(** One car spawned from [A] to [D]. *)
Definition spawned : nat * MultiVehicleSimulator F unit * option (Vehicle F) :=
  spawn_vehicle a_star no_draw (num_lit 0 1) CAR (Some "A") (Some "D") 0 sim0.

Definition sim1 : MultiVehicleSimulator F unit := spawned.1.2.

(** [block_road("B", "D", "road_work")] *)
Definition sim2 : MultiVehicleSimulator F unit :=
  (block_road (num_lit 1 1) "B" "D" "road_work" sim1).1.

Definition draw_of (sev : Severity) : AccidentDraw F :=
  {| draw_node := 0; draw_edge := 0; draw_severity := sev;
     draw_duration := 0; draw_now := num_lit 0 1 |}.

(** A tick at time [now] in which no accident is drawn. *)
Definition tick_inputs (now : F) : TickInputs F :=
  {| tick_time := now; elapsed_clock := now; accident_roll := num_lit 1 1;
     accident_draw := draw_of minor; hotspot_uniform := λ _, num_lit 1 1;
     arrival_clock := λ _, now |}.

Definition tick (now : F) (s : MultiVehicleSimulator F unit) :=
  simulation_tick a_star update_traffic_multipliers get_congestion_probability
                  (tick_inputs now) s.

(** The car of the scenario in a registry. *)
Definition car (s : MultiVehicleSimulator F unit) : option (Vehicle F) :=
  vehicles (vehicle_manager s) !! "car_1".

(** A car on the route [A, B, D], and the same car standing halfway along
    [A → B]. *)
Definition route_car : Vehicle F :=
  set_path ["A"; "B"; "D"] (num_lit 2 1) (Vehicle_init 1 (num_lit 0 1) CAR "A" "D").

Definition halfway_car : Vehicle F := with_position_on_edge (num_lit 1 2) route_car.

(** The kernel with the car's current edge [A → B] blocked. *)
Definition sim_ab : MultiVehicleSimulator F unit :=
  (block_road (num_lit 1 1) "A" "B" "road_work" sim1).1.

(** The kernel with [B → D] blocked and an accident on [A → B]. *)
Definition sim3 : MultiVehicleSimulator F unit :=
  (create_accident (draw_of minor) (Some "A") (Some "B") sim2).1.

(** A kernel in which [B → D] is a hotspot and blocked, and the state it
    is in after thirty ticks taken 64 seconds after its start. *)
Definition sim_hot : MultiVehicleSimulator F unit :=
  (block_road (num_lit 1 1) "B" "D" "road_work" (sim_init [("B", "D")])).1.

Definition sim_hot30 : MultiVehicleSimulator F unit :=
  Nat.iter 30 (λ s, (tick (num_lit 64 1) s).1) sim_hot.

(** The kernel after two hotspot drifts on [A → B] at full congestion,
    with the draws 0.5 and 1.4: in binary64 the multiplier has gone from
    1.0 to 1.15 and then to 1.633. *)
Definition sim_drifted : MultiVehicleSimulator F unit :=
  with_traffic_multipliers
    (hotspot_drift (num_lit 1 1) (λ _, num_lit 14 10) 0 [("A", "B")]
       (hotspot_drift (num_lit 1 1) (λ _, num_lit 5 10) 0 [("A", "B")]
          (traffic_multipliers sim0))) sim0.

(** Two kernels over the diamond in one process, before any spawn. *)
Definition world0 : World F unit :=
  {| id_counter := 0; kernel_a := sim0; kernel_b := sim0 |}.

(** A spawn from [A] to [D] in kernel A, one from [D] to [A], for which
    there is no route, and a spawn from [A] to [D] in kernel B. *)
Definition three_spawns : list (world_cmd F) :=
  [WSpawn KernelA no_draw (num_lit 0 1) CAR (Some "A") (Some "D");
   WSpawn KernelA no_draw (num_lit 0 1) CAR (Some "D") (Some "A");
   WSpawn KernelB no_draw (num_lit 0 1) CAR (Some "A") (Some "D")].

(** A spawn and three ticks an eighth of a second apart. *)
Definition short_run : list (kernel_cmd F) :=
  [CmdSpawn no_draw (num_lit 0 1) CAR (Some "A") (Some "D");
   CmdTick (tick_inputs (num_lit 1 8));
   CmdTick (tick_inputs (num_lit 2 8));
   CmdTick (tick_inputs (num_lit 3 8))].

End Diamond.
End Diamond.

(** The scenario in binary64. *)
Module D64.
Abbreviation a_star := (Diamond.a_star (F:=float)).
Abbreviation update_traffic_multipliers := (Diamond.update_traffic_multipliers (F:=float)).
Abbreviation get_congestion_probability := (Diamond.get_congestion_probability (F:=float)).
Abbreviation sim0 := (Diamond.sim0 (F:=float)).
Abbreviation sim1 := (Diamond.sim1 (F:=float)).
Abbreviation sim2 := (Diamond.sim2 (F:=float)).
Abbreviation sim3 := (Diamond.sim3 (F:=float)).
Abbreviation sim_ab := (Diamond.sim_ab (F:=float)).
Abbreviation route_car := (Diamond.route_car (F:=float)).
Abbreviation sim_hot := (Diamond.sim_hot (F:=float)).
Abbreviation sim_hot30 := (Diamond.sim_hot30 (F:=float)).
Abbreviation sim_drifted := (Diamond.sim_drifted (F:=float)).
Abbreviation draw_of := (Diamond.draw_of (F:=float)).
Abbreviation tick := (Diamond.tick (F:=float)).
Abbreviation car := (Diamond.car (F:=float)).
Abbreviation halfway_car := (Diamond.halfway_car (F:=float)).
Abbreviation world0 := (Diamond.world0 (F:=float)).
Abbreviation three_spawns := (Diamond.three_spawns (F:=float)).
End D64.

(** The scenario in exact arithmetic. *)
Module DQ.
Abbreviation a_star := (Diamond.a_star (F:=Q)).
Abbreviation update_traffic_multipliers := (Diamond.update_traffic_multipliers (F:=Q)).
Abbreviation get_congestion_probability := (Diamond.get_congestion_probability (F:=Q)).
Abbreviation sim0 := (Diamond.sim0 (F:=Q)).
Abbreviation route_car := (Diamond.route_car (F:=Q)).
Abbreviation short_run := (Diamond.short_run (F:=Q)).
End DQ.

(** ** Vocabulary of the further properties *)

Section Further.
Context {F : Type} `{!Number F} {A : Type}.

(** The number of edges in the look-ahead window. *)
Definition window_size (v : Vehicle F) : nat :=
  Nat.min 3 (List.length (path v) - 1 - path_index v).

(** The cursor of an agent agrees with its path: the current node is the
    node at [path_index] and the next node the one after it. *)
Definition cursor_on_path (v : Vehicle F) : Prop :=
  path v !! path_index v = Some (current_node v) ∧
  path v !! S (path_index v) = next_node v.

(** The active set holds the ids of the registered vehicles that have
    not arrived. *)
Definition registry_consistent (m : VehicleManager F) : Prop :=
  ∀ vid, vid ∈ active_vehicles m ↔
         ∃ v, vehicles m !! vid = Some v ∧ status v ≠ ARRIVED.

(** The registry of [s'] has the keys and the active set of [s], and
    holds the vehicle [v] under [vid] if [v] is given. *)
Definition same_keys (vid : string) (v : option (Vehicle F))
    (s s' : MultiVehicleSimulator F A) : Prop :=
  dom (vehicles (vehicle_manager s')) = dom (vehicles (vehicle_manager s)) ∧
  active_vehicles (vehicle_manager s') = active_vehicles (vehicle_manager s) ∧
  (∀ w, v = Some w → vehicles (vehicle_manager s') !! vid = Some w).

(** The speed [simulation_tick] computes as [ideal_speed] for a vehicle
    on an edge. *)
Definition ideal_speed (s : MultiVehicleSimulator F A) (v : Vehicle F) (edge : Edge) : F :=
  let traffic_multiplier := default (num_lit 1 1) (traffic_multipliers s !! edge) in
  if num_ltb (num_lit 1 1) traffic_multiplier then
    num_mul (speed_multiplier v)
            (pymax (num_div (num_lit 1 1) traffic_multiplier) (num_lit 2 10))
  else speed_multiplier v.

End Further.

(** ** Further concrete states of the diamond, in binary64 *)
Module Cases.

(** Both edges out of [A] blocked: the cheapest route is still the one
    over [B]. *)
Definition sim_no_detour : MultiVehicleSimulator float unit :=
  (block_road 1%float "A" "C" "road_work" D64.sim_ab).1.

(** A car, a tick, a second car and three more ticks: both cars are on
    [A → B], the first ahead of the second. *)
Definition spawn_car (counter : nat) (s : MultiVehicleSimulator float unit) :=
  spawn_vehicle D64.a_star Diamond.no_draw 0%float CAR (Some "A") (Some "D") counter s.

Definition two_cars : MultiVehicleSimulator float unit :=
  let s := (D64.tick 0.125%float D64.sim1).1 in
  let s := (spawn_car 1 s).1.2 in
  let s := (D64.tick 0.25%float s).1 in
  let s := (D64.tick 0.375%float s).1 in
  (D64.tick 0.5%float s).1.

Definition car_2 (s : MultiVehicleSimulator float unit) : option (Vehicle float) :=
  vehicles (vehicle_manager s) !! "car_2".

End Cases.

(** ** Journeys and statistics *)

Section Journeys.
Context {F : Type} `{!Number F}.

(** [Vehicle.get_travel_time].  The arrival time is tested for truth, so
    an arrival stamped [0.0] counts as no arrival. *)
Definition get_travel_time (v : Vehicle F) : option F :=
  match arrival_time v with
  | Some t =>
      if num_eqb t (num_lit 0 1) then None else Some (num_sub t (spawn_time v))
  | None => None
  end.

(** [k] calls of [move_to_next_node]; [now] is what the clock reads in a
    call that reaches the destination or finds the vehicle there. *)
Definition drive (now : F) (k : nat) (v : Vehicle F) : Vehicle F :=
  Nat.iter k (λ v, (move_to_next_node now v).1) v.

(** The counting fields of the dictionary [get_statistics] returns. *)
Record Statistics := {
  stat_total_vehicles : nat;
  stat_active_vehicles : nat;
  stat_arrived_vehicles : nat;
  stat_total_reroutes : nat;
  stat_car : nat;
  stat_bicycle : nat;
  stat_pedestrian : nat
}.

(** [VehicleManager.get_statistics], without the two averages. *)
Definition get_statistics (m : VehicleManager F) : Statistics :=
  let all_vehicles := get_all_vehicles m in
  let active := get_active_vehicles m in
  let arrived := filter (λ v, status v = ARRIVED) all_vehicles in
  {| stat_total_vehicles := List.length all_vehicles;
     stat_active_vehicles := List.length active;
     stat_arrived_vehicles := List.length arrived;
     stat_total_reroutes := foldr (λ v n, reroute_count v + n)%nat 0%nat all_vehicles;
     stat_car := List.length (filter (λ v, veh_type v = CAR) all_vehicles);
     stat_bicycle := List.length (filter (λ v, veh_type v = BIKE) all_vehicles);
     stat_pedestrian :=
       List.length (filter (λ v, veh_type v = PEDESTRIAN) all_vehicles) |}.

End Journeys.

(** ** Counters and flags *)

Section Counters.
Context {F : Type} `{!Number F} {A : Type}.

(** [s'] has the step counter, the time of the last update and the
    running flag of [s]. *)
Definition same_clock (s s' : MultiVehicleSimulator F A) : Prop :=
  simulation_step s' = simulation_step s ∧
  last_update_time s' = last_update_time s ∧
  is_running s' = is_running s.

End Counters.

(** ** The JSON view of the multipliers and the accident book *)

Section Views.
Context {F : Type} `{!Number F} {A : Type}.

(** The key [f"{k[0]},{k[1]}"] of an edge. *)
Definition json_key (k : Edge) : string := k.1 +:+ "," +:+ k.2.

(** [get_traffic_multipliers_json]; [items] is
    [self.traffic_multipliers.items()] in the order the dictionary yields
    it.  A later item replaces an earlier one under the same key. *)
Definition get_traffic_multipliers_json (items : list (Edge * F)) : gmap string F :=
  foldl (λ (d : gmap string F) (item : Edge * F), <[json_key item.1 := item.2]> d)
        ∅ items.

(** [',' in name] *)
Fixpoint has_comma (name : string) : bool :=
  match name with
  | EmptyString => false
  | String c rest => String.eqb (String c EmptyString) "," || has_comma rest
  end.

(** The accidents on the book are filed under their own ids, the ids are
    distinct, and each is [accident_<n>] for an [n] the counter has
    reached. *)
Definition accident_book_ok (s : MultiVehicleSimulator F A) : Prop :=
  NoDup (accidents s).*1 ∧
  ∀ k acc, (k, acc) ∈ accidents s →
           acc_id acc = k ∧
           ∃ n, (1 ≤ n ≤ accident_counter s)%nat ∧ k = "accident_" +:+ pretty n.

End Views.

(** ** Spawning at random and the continuous run *)

Section Fleet.
Context {F : Type} `{!Number F} {A : Type}.
Variable a_star :
  gmap string (list string) → gmap string (F * F) → gmap Edge F →
  string → string → string → list string * F.
Variable update_traffic_multipliers :
  A → VehicleManager F → gmap Edge F → A * gmap Edge F.
Variable get_congestion_probability :
  A → VehicleManager F → string → string → F.

(** The distribution [spawn_random_vehicles] uses when it is given none.
    A distribution is the list of the items of the dictionary, with the
    type each key names. *)
Definition DEFAULT_DISTRIBUTION : list (VehicleType * F) :=
  [(CAR, num_lit 6 10); (BIKE, num_lit 25 100); (PEDESTRIAN, num_lit 15 100)].

(** The inner loop of [spawn_random_vehicles]: the first type whose
    cumulative probability reaches [rand], a car if none does. *)
Fixpoint pick_type (rand cumulative : F) (distribution : list (VehicleType * F))
    : VehicleType :=
  match distribution with
  | [] => CAR
  | (v_type, prob) :: rest =>
      let cumulative := num_add cumulative prob in
      if num_leb rand cumulative then v_type else pick_type rand cumulative rest
  end.

(** What one round of [spawn_random_vehicles] reads from [random] and
    from the clock. *)
Record RandomSpawn := {
  spawn_rand : F;
  spawn_draw : SpawnDraw;
  spawn_clock : F
}.

(** The outer loop, from round [i] on. *)
Fixpoint spawn_random_loop (count : nat) (draws : nat → RandomSpawn) (i : nat)
    (distribution : list (VehicleType * F)) (counter : nat)
    (s : MultiVehicleSimulator F A)
    : nat * MultiVehicleSimulator F A * list (Vehicle F) :=
  match count with
  | 0%nat => (counter, s, [])
  | S count =>
      let d := draws i in
      let vehicle_type := pick_type (spawn_rand d) (num_lit 0 1) distribution in
      let '(counter, s, vehicle) :=
        spawn_vehicle a_star (spawn_draw d) (spawn_clock d) vehicle_type None None
                      counter s in
      let '(counter, s, spawned) :=
        spawn_random_loop count draws (S i) distribution counter s in
      (counter, s, (option_list vehicle ++ spawned)%list)
  end.

(** [spawn_random_vehicles]; [counter] is [Vehicle._id_counter]. *)
Definition spawn_random_vehicles (count : nat) (draws : nat → RandomSpawn)
    (distribution : option (list (VehicleType * F))) (counter : nat)
    (s : MultiVehicleSimulator F A)
    : nat * MultiVehicleSimulator F A * list (Vehicle F) :=
  spawn_random_loop count draws 0 (default DEFAULT_DISTRIBUTION distribution) counter s.

(** What one step of [run_continuous_simulation] reads. *)
Record StepInputs := {
  step_spawns : nat → RandomSpawn;
  step_tick : TickInputs F
}.

(** The loop of [run_continuous_simulation], from step [step] on. *)
Fixpoint run_steps (steps : list StepInputs) (step spawn_rate counter : nat)
    (s : MultiVehicleSimulator F A)
    : nat * MultiVehicleSimulator F A * res unit :=
  match steps with
  | [] => (counter, s, Ok tt)
  | inp :: steps =>
      if negb (is_running s) then (counter, s, Ok tt)
      else
        let '(counter, s) :=
          if bool_decide (step mod 3 = 0)%nat then
            (spawn_random_vehicles spawn_rate (step_spawns inp) None counter s).1
          else (counter, s) in
        match simulation_tick a_star update_traffic_multipliers
                              get_congestion_probability (step_tick inp) s with
        | (s, Raise e) => (counter, s, Raise e)
        | (s, Ok _) =>
            let s :=
              if bool_decide (step mod 10 = 0)%nat then
                with_vehicle_manager (clear_arrived_vehicles (vehicle_manager s)) s
              else s in
            run_steps steps (S step) spawn_rate counter s
        end
  end.

(** [run_continuous_simulation] for [len(steps)] steps.  An exception of
    a tick leaves the function before the flag is cleared. *)
Definition run_continuous_simulation (steps : list StepInputs)
    (spawn_rate counter : nat) (s : MultiVehicleSimulator F A)
    : nat * MultiVehicleSimulator F A * res unit :=
  match run_steps steps 0 spawn_rate counter (with_is_running true s) with
  | (counter, s, Ok _) => (counter, with_is_running false s, Ok tt)
  | (counter, s, Raise e) => (counter, s, Raise e)
  end.

End Fleet.

(** The sum of the probabilities of a distribution. *)
Definition distribution_mass {F : Type} `{!Number F}
    (distribution : list (VehicleType * F)) : F :=
  foldr (λ item acc, num_add item.2 acc) (num_lit 0 1) distribution.

(** ** Kernels on which a tick cannot fail *)

Section Ready.
Context {F : Type} `{!Number F} {A : Type}.

(** Every edge of the graph and every edge with an accident on the book
    has a multiplier, the book files each accident once, and no edge
    length, cached or default, is zero. *)
Definition tick_ready (s : MultiVehicleSimulator F A) : Prop :=
  (∀ u tos v, graph s !! u = Some tos → v ∈ tos →
              is_Some (traffic_multipliers s !! (u, v))) ∧
  NoDup (accidents s).*1 ∧
  (∀ k acc, alist_lookup k (accidents s) = Some acc →
            is_Some (traffic_multipliers s !! (acc_from_node acc, acc_to_node acc))) ∧
  (∀ e, num_eqb (default (num_lit 100 1) (edge_lengths s !! e)) (num_lit 0 1) = false).

End Ready.

(** ** What the simulation never updates *)

(** [v'] has the id, the type, the end points, the class constants, the
    spawn time, the distance travelled and the waiting time of [v]. *)
Definition same_identity {F : Type} (v v' : Vehicle F) : Prop :=
  veh_id v' = veh_id v ∧ veh_type v' = veh_type v ∧
  start_node v' = start_node v ∧ goal_node v' = goal_node v ∧
  speed_multiplier v' = speed_multiplier v ∧ capacity_usage v' = capacity_usage v ∧
  acceleration v' = acceleration v ∧ spawn_time v' = spawn_time v ∧
  total_distance v' = total_distance v ∧ wait_time v' = wait_time v.
(** * Properties *)

(** ** The reroute procedure *)

Section Reroute.
Context {F : Type} `{!Number F} {A : Type}.
Variable a_star :
  gmap string (list string) → gmap string (F * F) → gmap Edge F →
  string → string → string → list string * F.

Lemma reroute_vehicle_adopt (s : MultiVehicleSimulator F A) (v : Vehicle F) :
  routed a_star s v ≠ [] → routed a_star s v ≠ drop (path_index v) (path v) →
  _reroute_vehicle a_star s v =
    with_status MOVING
      (with_target_speed (speed_multiplier v)
         (with_path_index 0
            (increment_reroute
               (set_path (routed a_star s v)
                  (a_star (graph s) (heuristic_coords s) (traffic_multipliers s)
                          (current_node v) (goal_node v) (value (veh_type v))).2 v)))).
Proof.
  intros Hne Hdiff. unfold _reroute_vehicle, routed in *.
  destruct (a_star _ _ _ _ _ _) as [p c]; simpl in *.
  rewrite !bool_decide_eq_true_2 by done. simpl.
  unfold set_path. by destruct (decide _).
Qed.

Lemma reroute_vehicle_keep (s : MultiVehicleSimulator F A) (v : Vehicle F) :
  routed a_star s v = [] ∨ routed a_star s v = drop (path_index v) (path v) →
  _reroute_vehicle a_star s v = v.
Proof.
  intros Hk. unfold _reroute_vehicle, routed in *.
  destruct (a_star _ _ _ _ _ _) as [p c]; simpl in *.
  destruct Hk as [-> | ->].
  - done.
  - rewrite (bool_decide_eq_false_2 (_ ≠ drop _ _)); [|by intros []].
    by rewrite andb_false_r.
Qed.

(** C3 (amended): when the router returns a non-empty path that differs
    from the remaining tail, the agent takes the new path with
    [path_index = 0], [next = path[1]] for a path of two nodes or more,
    one more reroute, its kind's maximum speed as target and status
    Moving, and [position_on_edge] keeps the value it had; when the
    router returns no path or the same tail the agent is unchanged. *)
Theorem reroute_vehicle_effect (s : MultiVehicleSimulator F A) (v : Vehicle F) :
  speed_multiplier v = SPEED_MULTIPLIERS (veh_type v) →
  (routed a_star s v ≠ [] → routed a_star s v ≠ drop (path_index v) (path v) →
     let v' := _reroute_vehicle a_star s v in
     path v' = routed a_star s v ∧
     path_index v' = 0 ∧
     ((2 ≤ List.length (routed a_star s v))%nat →
        next_node v' = routed a_star s v !! 1 ∧ is_Some (next_node v')) ∧
     reroute_count v' = S (reroute_count v) ∧
     target_speed v' = SPEED_MULTIPLIERS (veh_type v') ∧
     status v' = MOVING ∧
     position_on_edge v' = position_on_edge v) ∧
  (routed a_star s v = [] ∨ routed a_star s v = drop (path_index v) (path v) →
     _reroute_vehicle a_star s v = v).
Proof.
  intros Hmax. split; [|apply reroute_vehicle_keep].
  intros Hne Hdiff. rewrite reroute_vehicle_adopt by done.
  unfold set_path, increment_reroute.
  destruct (decide _) as [Hlen|Hlen]; simpl; repeat split; try done; try lia.
  apply lookup_lt_is_Some. lia.
Qed.

End Reroute.

(** C3, at a concrete input: the car of the diamond stands halfway along
    [A → B] when the router sends it over [C]; it is rerouted and still
    halfway along its edge. *)
Lemma reroute_vehicle_effect_witness :
  path (_reroute_vehicle D64.a_star D64.sim2 D64.halfway_car) = ["A"; "C"; "D"] ∧
  path_index (_reroute_vehicle D64.a_star D64.sim2 D64.halfway_car) = 0 ∧
  reroute_count (_reroute_vehicle D64.a_star D64.sim2 D64.halfway_car) = 1 ∧
  position_on_edge (_reroute_vehicle D64.a_star D64.sim2 D64.halfway_car)
    = 0.5%float.
Proof.
  destruct (reroute_vehicle_effect D64.a_star D64.sim2 D64.halfway_car)
    as [Hadopt _]; [reflexivity|].
  specialize (Hadopt ltac:(by vm_compute) ltac:(by vm_compute)).
  cbv zeta in Hadopt.
  destruct Hadopt as (Hp & Hi & _ & Hr & _ & _ & Hpos).
  rewrite Hp, Hi, Hr, Hpos. clear. vm_compute. by repeat split.
Defined.

(** C3 as stated fails: the reroute leaves [position_on_edge] at one half
    instead of resetting it to zero. *)
Lemma reroute_keeps_position_counterexample :
  routed D64.a_star D64.sim2 D64.halfway_car = ["A"; "C"; "D"] ∧
  drop (path_index D64.halfway_car) (path D64.halfway_car) = ["A"; "B"; "D"] ∧
  PrimFloat.eqb
    (position_on_edge (_reroute_vehicle D64.a_star D64.sim2 D64.halfway_car))
    0%float = false.
Proof. by vm_compute. Qed.

(** ** The first loop of the tick *)

Section FirstPass.
Context {F : Type} `{!Number F} {A : Type}.
Variable a_star :
  gmap string (list string) → gmap string (F * F) → gmap Edge F →
  string → string → string → list string * F.
Variable get_congestion_probability :
  A → VehicleManager F → string → string → F.

Local Abbreviation should_reroute := (_should_reroute get_congestion_probability).
Local Abbreviation reroute_vehicle := (_reroute_vehicle a_star).
Local Abbreviation pass_vehicle := (first_pass_vehicle a_star get_congestion_probability).
Local Abbreviation pass := (first_pass a_star get_congestion_probability).

Lemma same_roads_refl (s : MultiVehicleSimulator F A) : same_roads s s.
Proof. by repeat split. Qed.

Lemma same_roads_store (s s' : MultiVehicleSimulator F A) vid v :
  same_roads s s' → same_roads s (store_vehicle vid v s').
Proof. intros (?&?&?&?&?&?). by repeat split. Qed.

Lemma reroute_vehicle_same_roads (s s' : MultiVehicleSimulator F A) v :
  same_roads s s' → reroute_vehicle s' v = reroute_vehicle s v.
Proof.
  intros (Hg & Hc & Ht & _). unfold _reroute_vehicle. by rewrite Hg, Hc, Ht.
Qed.

(** A blocked edge in the look-ahead window makes the check succeed,
    whatever the analyzer reports. *)
Lemma should_reroute_blocked (s : MultiVehicleSimulator F A) v edge :
  edge ∈ upcoming_edges v → is_Some (blocked_roads s !! edge) →
  should_reroute s v = true.
Proof.
  intros Hin Hb. unfold _should_reroute.
  case_bool_decide as Hlen.
  - exfalso. unfold upcoming_edges in Hin.
    replace (Nat.min (path_index v + 3) (List.length (path v) - 1) - path_index v)
      with 0 in Hin.
    + simpl in Hin. by apply elem_of_nil in Hin.
    + destruct (path v) as [|? [|? ?]]; simpl in *; lia.
  - assert (existsb (λ e, bool_decide (is_Some (blocked_roads s !! e)))
                    (upcoming_edges v) = true) as ->; [|done].
    apply existsb_exists. exists edge. split.
    + by apply list_elem_of_In.
    + by apply bool_decide_eq_true_2.
Qed.

(** The speed control leaves the route alone. *)
Lemma congestion_speed_control_route (s : MultiVehicleSimulator F A) v edge :
  let v' := congestion_speed_control s v edge in
  path v' = path v ∧ path_index v' = path_index v ∧
  reroute_count v' = reroute_count v ∧ next_node v' = next_node v ∧
  current_node v' = current_node v.
Proof.
  unfold congestion_speed_control.
  repeat (match goal with |- context [if ?b then _ else _] => destruct b end);
    simpl; done.
Qed.

Lemma slow_down_route d dmin (v : Vehicle F) :
  let v' := slow_down_for_vehicle_ahead d dmin v in
  path v' = path v ∧ path_index v' = path_index v ∧
  reroute_count v' = reroute_count v ∧ next_node v' = next_node v ∧
  current_node v' = current_node v.
Proof.
  unfold slow_down_for_vehicle_ahead.
  repeat (match goal with |- context [if ?b then _ else _] => destruct b end);
    simpl; done.
Qed.

(** The body of the loop: the reroute check runs behind the test that
    the current edge is blocked. *)
Lemma first_pass_vehicle_gate (s : MultiVehicleSimulator F A) v :
  status v ≠ ARRIVED → truthy (next_node v) = true →
  let edge := (current_node v, default "" (next_node v)) in
  (is_Some (blocked_roads s !! edge) → should_reroute s v = true →
     pass_vehicle s v = reroute_vehicle s v) ∧
  (blocked_roads s !! edge = None →
     path (pass_vehicle s v) = path v ∧
     path_index (pass_vehicle s v) = path_index v ∧
     reroute_count (pass_vehicle s v) = reroute_count v).
Proof.
  intros Hst Hnext edge. unfold first_pass_vehicle.
  rewrite (bool_decide_eq_false_2 _ Hst), Hnext. simpl. fold edge. split.
  - intros Hb Hsr. by rewrite (bool_decide_eq_true_2 _ Hb), Hsr.
  - intros Hnb. rewrite bool_decide_eq_false_2.
    2:{ rewrite Hnb. by intros [? ?]. }
    destruct (find_ahead s v edge) as [[? d]|].
    + by destruct (slow_down_route d (num_lit 30 1) v) as (?&?&?&_).
    + by destruct (congestion_speed_control_route s v edge) as (?&?&?&_).
Qed.

(** The loop visits each key once and hands the body the registry as it
    stands at that point. *)
Lemma first_pass_same_roads ids (s : MultiVehicleSimulator F A) :
  same_roads s (pass ids s).
Proof.
  revert s. induction ids as [|vid ids IH]; intros s; simpl.
  - apply same_roads_refl.
  - destruct (vehicles (vehicle_manager s) !! vid) as [v|]; [|apply IH].
    specialize (IH (store_vehicle vid (pass_vehicle s v) s)).
    destruct IH as (?&?&?&?&?&?). by repeat split.
Qed.

Lemma first_pass_lookup_notin ids (s : MultiVehicleSimulator F A) vid :
  vid ∉ ids →
  vehicles (vehicle_manager (pass ids s)) !! vid = vehicles (vehicle_manager s) !! vid.
Proof.
  revert s. induction ids as [|x ids IH]; intros s Hnin; simpl; [done|].
  apply not_elem_of_cons in Hnin as [Hne Hnin].
  destruct (vehicles (vehicle_manager s) !! x) as [v|]; [|by apply IH].
  rewrite IH by done. simpl. by rewrite lookup_insert_ne.
Qed.

Lemma first_pass_lookup ids (s : MultiVehicleSimulator F A) vid v :
  NoDup ids → vid ∈ ids → vehicles (vehicle_manager s) !! vid = Some v →
  ∃ s', same_roads s s' ∧
        vehicles (vehicle_manager (pass ids s)) !! vid = Some (pass_vehicle s' v).
Proof.
  revert s. induction ids as [|x ids IH]; intros s Hnd Hin Hv; simpl.
  - by apply elem_of_nil in Hin.
  - apply NoDup_cons in Hnd as [Hx Hnd].
    apply elem_of_cons in Hin as [<- | Hin].
    + rewrite Hv. exists s. split; [apply same_roads_refl|].
      rewrite first_pass_lookup_notin by done. simpl. by rewrite lookup_insert_eq.
    + assert (vid ≠ x) as Hne by (intros ->; done).
      destruct (vehicles (vehicle_manager s) !! x) as [w|] eqn:Hw.
      * destruct (IH (store_vehicle x (pass_vehicle s w) s)) as (s' & Hs' & Hl);
          [done|done| |].
        { simpl. by rewrite lookup_insert_ne. }
        exists s'. split; [|done].
        destruct Hs' as (?&?&?&?&?&?). by repeat split.
      * by apply IH.
Qed.

Lemma active_ids_NoDup (m : VehicleManager F) : NoDup (active_ids m).
Proof. unfold active_ids. apply NoDup_filter, NoDup_elements. Qed.

(** What the look-ahead check tests: one of the edges of the window is
    blocked, or the analyzer gives one of them a congestion probability
    above 0.5. *)
Lemma should_reroute_spec (s : MultiVehicleSimulator F A) v :
  should_reroute s v = true ↔
  ∃ edge, edge ∈ upcoming_edges v ∧
          (is_Some (blocked_roads s !! edge) ∨
           num_ltb (num_lit 5 10)
                   (get_congestion_probability (traffic_analyzer s) (vehicle_manager s)
                                               edge.1 edge.2) = true).
Proof.
  unfold _should_reroute. case_bool_decide as Hlen.
  - split; [done|]. intros (edge & Hin & _). exfalso. unfold upcoming_edges in Hin.
    replace (Nat.min (path_index v + 3) (List.length (path v) - 1) - path_index v)
      with 0 in Hin.
    + simpl in Hin. by apply elem_of_nil in Hin.
    + destruct (path v) as [|? [|? ?]]; simpl in *; lia.
  - destruct (existsb (λ e, bool_decide (is_Some (blocked_roads s !! e)))
                      (upcoming_edges v)) eqn:Hblk.
    + split; [intros _|done]. apply existsb_exists in Hblk as (edge & Hin & Hb).
      exists edge. split; [by apply list_elem_of_In|]. left.
      by apply bool_decide_eq_true_1 in Hb.
    + rewrite existsb_exists. split.
      * intros (edge & Hin & Hc). exists edge. split; [by apply list_elem_of_In|].
        by right.
      * intros (edge & Hin & [Hb|Hc]).
        -- exfalso. apply not_true_iff_false in Hblk. apply Hblk.
           apply existsb_exists. exists edge. split; [by apply list_elem_of_In|].
           by apply bool_decide_eq_true_2.
        -- exists edge. split; [by apply list_elem_of_In|done].
Qed.

(** The body of the loop on a blocked current edge: reroute if the check
    succeeds, stop the vehicle if it does not. *)
Lemma first_pass_vehicle_blocked (s : MultiVehicleSimulator F A) v :
  status v ≠ ARRIVED → truthy (next_node v) = true →
  is_Some (blocked_roads s !! (current_node v, default "" (next_node v))) →
  pass_vehicle s v
  = if should_reroute s v then reroute_vehicle s v
    else with_status STUCK (with_target_speed (num_lit 0 1) v).
Proof.
  intros Hst Hnext Hb. unfold first_pass_vehicle.
  rewrite (bool_decide_eq_false_2 _ Hst), Hnext. simpl.
  by rewrite (bool_decide_eq_true_2 _ Hb).
Qed.


End FirstPass.



(** ** Status and path cursor *)

Section Arrival.
Context {F : Type} `{!Number F}.

Lemma set_path_invariant new_path cost (v : Vehicle F) :
  (2 ≤ List.length new_path)%nat → cursor_invariant (set_path new_path cost v).
Proof.
  intros Hlen. unfold set_path, cursor_invariant, arrival_invariant.
  destruct (decide _) as [?|?]; [|lia]. simpl. repeat split; try (done || lia).
  intros _. apply lookup_lt_is_Some. lia.
Qed.

Lemma move_to_next_node_invariant now (v : Vehicle F) :
  cursor_invariant v → cursor_invariant (move_to_next_node now v).1.
Proof.
  intros (Hidx & Harr & Hnext). unfold move_to_next_node.
  unfold cursor_invariant, arrival_invariant.
  destruct (decide _) as [Hend|Hgo]; simpl.
  - repeat split; try (done || lia).
    intros _. destruct Hend as [Hnil|Hend]; [rewrite Hnil in Hidx; simpl in Hidx|]; lia.
  - apply Decidable.not_or in Hgo as [_ Hgo].
    destruct (decide _) as [Hmid|Hlast]; simpl.
    + repeat split; try (done || lia).
      intros _. apply lookup_lt_is_Some. lia.
    + repeat split; try (done || lia).
Qed.

Lemma apply_agent_op_invariant vid op (m : VehicleManager F) v :
  vehicles m !! vid = Some v → cursor_invariant v →
  op_as_issued (vehicles m !! vid) op →
  ∃ v', vehicles (apply_agent_op vid op m) !! vid = Some v' ∧ cursor_invariant v'.
Proof.
  intros Hv Hinv Hop. destruct op as [new_path cost|now|]; simpl in *.
  - rewrite Hv. simpl. rewrite lookup_insert_eq. eexists. split; [done|].
    by apply set_path_invariant.
  - rewrite Hv. simpl. rewrite lookup_insert_eq. eexists. split; [done|].
    by apply move_to_next_node_invariant.
  - specialize (Hop v Hv). unfold mark_vehicle_arrived.
    case_bool_decide; simpl; [|eauto].
    rewrite Hv. simpl. rewrite lookup_insert_eq. eexists. split; [done|].
    destruct Hinv as (Hidx & Harr & Hnext).
    unfold cursor_invariant, arrival_invariant. simpl. rewrite Hop in *.
    repeat split; try done. by apply Harr.
Qed.

Lemma run_agent_ops_invariant vid ops (m : VehicleManager F) v :
  vehicles m !! vid = Some v → cursor_invariant v → ops_as_issued vid ops m →
  ∃ v', vehicles (run_agent_ops vid ops m) !! vid = Some v' ∧ cursor_invariant v'.
Proof.
  revert m v. induction ops as [|op ops IH]; intros m v Hv Hinv Hops; simpl in *.
  - eauto.
  - destruct Hops as [Hop Hops].
    destruct (apply_agent_op_invariant vid op m v Hv Hinv Hop) as (v1 & Hv1 & Hinv1).
    by apply (IH _ v1).
Qed.

(** C9 (amended): after [set_path] with a path of two nodes or more,
    followed by any sequence of [set_path] with such paths, of
    [move_to_next_node] and of [mark_vehicle_arrived] on an agent that is
    Arrived already, the agent's status is Arrived if and only if
    [path_index = len(path) - 1], and while it is not Arrived its next node
    is defined. *)
Theorem arrival_invariant_of_issued_ops
    (m : VehicleManager F) (vid : string) (v : Vehicle F)
    (new_path : list string) (cost : F) (ops : list (agent_op F)) :
  vehicles m !! vid = Some v →
  ops_as_issued vid (OpSetPath new_path cost :: ops) m →
  ∃ v', vehicles (run_agent_ops vid (OpSetPath new_path cost :: ops) m) !! vid = Some v' ∧
        arrival_invariant v'.
Proof.
  intros Hv [Hlen Hops]. simpl in Hlen, Hops. rewrite Hv in Hops.
  destruct (run_agent_ops_invariant vid ops
              (with_vehicles (<[vid := set_path new_path cost v]> (vehicles m)) m)
              (set_path new_path cost v)) as (v' & Hv' & _ & Hinv').
  - simpl. by rewrite lookup_insert_eq.
  - by apply set_path_invariant.
  - done.
  - exists v'. split; [|done]. unfold run_agent_ops in *. simpl. by rewrite Hv.
Qed.

End Arrival.

(** C9, at a concrete input: the car of the diamond is given its route
    again, advances twice and is marked arrived. *)
Lemma arrival_invariant_of_issued_ops_witness :
  ∃ v', vehicles
          (run_agent_ops "car_1"
             [OpSetPath ["A"; "B"; "D"] 2%float; OpMoveToNextNode 1%float;
              OpMoveToNextNode 2%float; OpMarkArrived]
             (vehicle_manager D64.sim1)) !! "car_1" = Some v' ∧
        arrival_invariant v'.
Proof.
  eapply (arrival_invariant_of_issued_ops (vehicle_manager D64.sim1) "car_1").
  - vm_compute. reflexivity.
  - vm_compute. repeat split; try lia. intros w Hw. by simplify_eq.
Defined.

(** C9 as stated fails: after [set_path] with a one-node path the agent
    stands at the last index of its path, is not Arrived and has no next
    node; and [mark_vehicle_arrived] makes an agent Arrived at the first
    index of a three-node path. *)
Lemma arrival_invariant_counterexample :
  (∃ v', vehicles (run_agent_ops "car_1" [OpSetPath ["A"] 0%float]
                     (vehicle_manager D64.sim1)) !! "car_1" = Some v' ∧
         status v' = MOVING ∧ path_index v' = 0 ∧ path v' = ["A"] ∧
         next_node v' = None ∧ ¬ arrival_invariant v') ∧
  (∃ v', vehicles (run_agent_ops "car_1" [OpMarkArrived]
                     (vehicle_manager D64.sim1)) !! "car_1" = Some v' ∧
         status v' = ARRIVED ∧ path_index v' = 0 ∧ path v' = ["A"; "B"; "D"] ∧
         ¬ arrival_invariant v').
Proof.
  split.
  - eexists. split; [vm_compute; reflexivity|]. repeat split.
    intros [_ Hnext]. simpl in Hnext. destruct Hnext as [x Hx]; done.
  - eexists. split; [vm_compute; reflexivity|]. repeat split.
    intros [Harr _]. simpl in Harr. destruct Harr as [Harr _].
    specialize (Harr eq_refl). lia.
Qed.

(** ** Vehicle ids *)

Section Ids.
Context {F : Type} `{!Number F} {A : Type}.
Variable a_star :
  gmap string (list string) → gmap string (F * F) → gmap Edge F →
  string → string → string → list string * F.

(** The id format [<kind>_<n>] determines [n]. *)
Lemma vehicle_id_inj (t1 t2 : VehicleType) (n1 n2 : nat) :
  value t1 +:+ "_" +:+ pretty n1 = value t2 +:+ "_" +:+ pretty n2 → n1 = n2.
Proof.
  destruct t1, t2; simpl; intros Heq; try discriminate;
    by simplify_eq.
Qed.

Lemma set_path_veh_id new_path cost (v : Vehicle F) :
  veh_id (set_path new_path cost v) = veh_id v.
Proof. unfold set_path. by destruct (decide _). Qed.

(** A spawn advances the counter by at most one, and a vehicle it
    returns carries the new value. *)
Lemma spawn_vehicle_counter d now vt start goal c (s : MultiVehicleSimulator F A) :
  let '(c', _, r) := spawn_vehicle a_star d now vt start goal c s in
  (c' = c ∨ c' = S c) ∧
  ∀ v, r = Some v → c' = S c ∧ veh_id v = value vt +:+ "_" +:+ pretty (S c).
Proof.
  unfold spawn_vehicle.
  destruct (choice (draw_start d) _) as [drawn|]; [|by split; [left|]].
  assert (∀ g,
    let '(c', _, r) :=
      (let counter := S c in
       let vehicle := Vehicle_init counter now vt (default drawn start) g in
       let '(new_path, cost) :=
         a_star (graph s) (heuristic_coords s) (traffic_multipliers s)
                (default drawn start) g (value vt) in
       match new_path with
       | [] => (counter, s, None)
       | _ :: _ =>
           let vehicle := set_path new_path cost vehicle in
           let s := with_vehicle_manager (add_vehicle vehicle (vehicle_manager s)).1 s in
           (counter, with_total_spawned (S (total_spawned s)) s, Some vehicle)
       end) in
    (c' = c ∨ c' = S c) ∧
    ∀ v, r = Some v → c' = S c ∧ veh_id v = value vt +:+ "_" +:+ pretty (S c)) as Hbody.
  { intros g. simpl.
    destruct (a_star _ _ _ _ _ _) as [[|x p] cost]; [by split; [right|]|].
    split; [by right|]. intros v [= <-]. split; [done|].
    by rewrite set_path_veh_id. }
  destruct goal as [g|]; [apply Hbody|].
  destruct (choice (draw_goal d) _) as [g|]; [apply Hbody|by split; [left|]].
Qed.

(** The vehicle was constructed and then discarded: the counter has
    advanced all the same. *)
Lemma spawn_vehicle_no_path d now vt start goal c (s : MultiVehicleSimulator F A) :
  graph s ≠ ∅ →
  (a_star (graph s) (heuristic_coords s) (traffic_multipliers s)
          start goal (value vt)).1 = [] →
  spawn_vehicle a_star d now vt (Some start) (Some goal) c s = (S c, s, None).
Proof.
  intros Hg Hp. unfold spawn_vehicle.
  destruct (choice _ _) as [drawn|] eqn:Hc.
  - simpl. destruct (a_star _ _ _ _ _ _) as [p cost]. simpl in Hp. by subst.
  - exfalso. unfold choice in Hc. apply lookup_ge_None in Hc.
    destruct (map_to_list (graph s)) as [|kv l] eqn:Hl.
    + by apply map_to_list_empty_iff in Hl.
    + simpl in Hc.
      pose proof (Nat.mod_upper_bound (draw_start d) (S (List.length (fst <$> l)))).
      lia.
Qed.

Lemma world_step_spawn c (w : World F A) :
  is_spawn c = true →
  let '(w', r) := world_step a_star c w in
  (id_counter w ≤ id_counter w')%nat ∧
  ∀ v, r = Some v → id_counter w' = S (id_counter w) ∧ numbered (id_counter w) (id_counter w') v.
Proof.
  destruct c as [k d now vt start goal|k]; [intros _|done]. simpl.
  pose proof (spawn_vehicle_counter d now vt start goal (id_counter w) (get_kernel k w))
    as Hs.
  destruct (spawn_vehicle _ _ _ _ _ _ _ _) as [[c' s'] r].
  destruct Hs as [Hc Hr].
  assert (id_counter (set_kernel k c' s' w) = c') as -> by by destruct k.
  split; [lia|]. intros v Hv. destruct (Hr v Hv) as [-> Hid].
  split; [done|]. exists vt, (S (id_counter w)). split; [lia|done].
Qed.

Lemma world_run_numbered cs (w : World F A) :
  forallb is_spawn cs = true →
  let '(w', vs) := world_run a_star cs w in
  (id_counter w ≤ id_counter w')%nat ∧
  Forall (numbered (id_counter w) (id_counter w')) vs ∧
  NoDup (veh_id <$> vs).
Proof.
  revert w. induction cs as [|c cs IH]; intros w Hcs; simpl in *.
  - repeat split; [lia|constructor|constructor].
  - apply andb_true_iff in Hcs as [Hc Hcs].
    pose proof (world_step_spawn c w Hc) as Hstep.
    destruct (world_step a_star c w) as [w1 r].
    specialize (IH w1 Hcs). destruct (world_run a_star cs w1) as [w' vs].
    destruct Hstep as [Hle Hr]. destruct IH as (Hle' & Hall & Hnd).
    assert (Forall (numbered (id_counter w) (id_counter w')) vs) as Hall'.
    { eapply Forall_impl; [exact Hall|]. intros v (t & n & Hn & Hid).
      exists t, n. split; [lia|done]. }
    split; [lia|]. destruct r as [v|]; [|done].
    destruct (Hr v eq_refl) as [Hc1 (t & n & Hn & Hid)].
    split.
    + constructor; [|done]. exists t, n. split; [lia|done].
    + rewrite fmap_cons. constructor; [|done].
      intros Hin. apply list_elem_of_fmap in Hin as (v2 & Heq & Hin).
      rewrite Forall_forall in Hall. destruct (Hall v2 Hin) as (t2 & n2 & Hn2 & Hid2).
      rewrite Hid, Hid2 in Heq. apply vehicle_id_inj in Heq. lia.
Qed.

End Ids.


(** ** Reset *)

Section ResetFacts.
Context {F : Type} `{!Number F} {A : Type}.

Lemma init_inner_lookup_in (u : string) (tos : list string) (tm : gmap Edge F) to_node :
  to_node ∈ tos →
  foldl (λ (tm : gmap Edge F) (t : string),
           <[(u, t) := DEFAULT_TRAFFIC_MULTIPLIER]> tm) tm tos !! (u, to_node)
    = Some DEFAULT_TRAFFIC_MULTIPLIER.
Proof.
  revert tm. induction tos as [|t tos IH] using rev_ind; intros tm Hin.
  - by apply elem_of_nil in Hin.
  - rewrite foldl_app. simpl. apply elem_of_app in Hin as [Hin|Hin].
    + destruct (decide (t = to_node)) as [->|Hne].
      * by rewrite lookup_insert_eq.
      * rewrite lookup_insert_ne by congruence. by apply IH.
    + apply list_elem_of_singleton in Hin as ->. by rewrite lookup_insert_eq.
Qed.

Lemma init_inner_lookup_default (u : string) (tos : list string) (tm : gmap Edge F) e :
  tm !! e = Some DEFAULT_TRAFFIC_MULTIPLIER →
  foldl (λ (tm : gmap Edge F) (t : string),
           <[(u, t) := DEFAULT_TRAFFIC_MULTIPLIER]> tm) tm tos !! e
    = Some DEFAULT_TRAFFIC_MULTIPLIER.
Proof.
  revert tm. induction tos as [|t tos IH]; intros tm He; simpl; [done|].
  apply IH. destruct (decide ((u, t) = e)) as [->|Hne].
  - by rewrite lookup_insert_eq.
  - by rewrite lookup_insert_ne.
Qed.

Lemma init_outer_lookup (l : list (string * list string)) (tm : gmap Edge F) u tos t :
  (u, tos) ∈ l → t ∈ tos →
  foldl (λ (tm : gmap Edge F) (entry : string * list string),
           foldl (λ (tm : gmap Edge F) (to_node : string),
                    <[(entry.1, to_node) := DEFAULT_TRAFFIC_MULTIPLIER]> tm)
                 tm entry.2) tm l !! (u, t)
    = Some DEFAULT_TRAFFIC_MULTIPLIER.
Proof.
  intros Hin Ht. revert tm.
  induction l as [|entry l IH] using rev_ind; intros tm.
  - by apply elem_of_nil in Hin.
  - rewrite foldl_app. simpl. apply elem_of_app in Hin as [Hin|Hin].
    + apply init_inner_lookup_default. by apply IH.
    + apply list_elem_of_singleton in Hin as <-. simpl.
      by apply init_inner_lookup_in.
Qed.

(** After [_initialize_traffic_multipliers] every edge of the graph has
    the default multiplier. *)
Lemma initialize_traffic_multipliers_graph (s : MultiVehicleSimulator F A) u tos t :
  graph s !! u = Some tos → t ∈ tos →
  traffic_multipliers (_initialize_traffic_multipliers s) !! (u, t)
    = Some DEFAULT_TRAFFIC_MULTIPLIER.
Proof.
  intros Hu Ht. unfold _initialize_traffic_multipliers. simpl.
  apply (init_outer_lookup _ _ u tos t); [|done].
  by apply elem_of_map_to_list.
Qed.

(** What [reset_simulation] clears and what it leaves. *)
Lemma reset_simulation_effect (s : MultiVehicleSimulator F A) :
  (reset_simulation s).1 = 0 ∧
  simulation_step (reset_simulation s).2 = 0 ∧
  total_spawned (reset_simulation s).2 = 0 ∧
  vehicles (vehicle_manager (reset_simulation s).2) = ∅ ∧
  active_vehicles (vehicle_manager (reset_simulation s).2) = ∅ ∧
  edge_occupancy (vehicle_manager (reset_simulation s).2) = ∅ ∧
  (∀ u tos t, graph s !! u = Some tos → t ∈ tos →
     traffic_multipliers (reset_simulation s).2 !! (u, t)
       = Some DEFAULT_TRAFFIC_MULTIPLIER) ∧
  accidents (reset_simulation s).2 = accidents s ∧
  accident_counter (reset_simulation s).2 = accident_counter s ∧
  blocked_roads (reset_simulation s).2 = blocked_roads s.
Proof.
  unfold reset_simulation. simpl. repeat split.
  intros u tos t Hu Ht.
  by apply (initialize_traffic_multipliers_graph
              (with_vehicle_manager (reset (vehicle_manager s)).2 s) u tos t).
Qed.

End ResetFacts.

(** C4, the code at the failing input: the kernel whose edge [B → D] is
    blocked and which holds an accident on [A → B] is reset.  The counters
    are zero, the registry is empty and the multipliers are back at 1.0,
    but the block set still holds [B → D] and the incident book still
    holds the accident; in general [reset_simulation] leaves both as they
    were. *)
Theorem reset_simulation_keeps_blocks_and_incidents :
  (∀ (F : Type) (NF : Number F) (A : Type) (s : MultiVehicleSimulator F A),
     (reset_simulation s).1 = 0 ∧
     simulation_step (reset_simulation s).2 = 0 ∧
     vehicles (vehicle_manager (reset_simulation s).2) = ∅ ∧
     active_vehicles (vehicle_manager (reset_simulation s).2) = ∅ ∧
     edge_occupancy (vehicle_manager (reset_simulation s).2) = ∅ ∧
     (∀ u tos t, graph s !! u = Some tos → t ∈ tos →
        traffic_multipliers (reset_simulation s).2 !! (u, t)
          = Some DEFAULT_TRAFFIC_MULTIPLIER) ∧
     accidents (reset_simulation s).2 = accidents s ∧
     blocked_roads (reset_simulation s).2 = blocked_roads s) ∧
  reason <$> blocked_roads (reset_simulation D64.sim3).2 !! ("B", "D")
    = Some "road_work" ∧
  fst <$> accidents (reset_simulation D64.sim3).2 = ["accident_1"] ∧
  traffic_multipliers (reset_simulation D64.sim3).2 !! ("B", "D") = Some 1%float ∧
  traffic_multipliers (reset_simulation D64.sim3).2 !! ("A", "B") = Some 1%float.
Proof.
  split; [|by vm_compute].
  intros F NF A s.
  destruct (reset_simulation_effect s) as (?&?&?&?&?&?&?&?&?&?).
  by repeat split.
Qed.

(** ** Incidents, blocks and failure values *)

Section IncidentFacts.
Context {F : Type} `{!Number F} {A : Type}.
Variable a_star :
  gmap string (list string) → gmap string (F * F) → gmap Edge F →
  string → string → string → list string * F.

Lemma alist_lookup_insert {V} k (x : V) l : alist_lookup k (alist_insert k x l) = Some x.
Proof.
  induction l as [|[k' y] l IH]; simpl.
  - by rewrite String.eqb_refl.
  - destruct (String.eqb k k') eqn:Hk; simpl.
    + by rewrite String.eqb_refl.
    + by rewrite Hk.
Qed.

Lemma record_accident_unknown_edge d u v (s : MultiVehicleSimulator F A) :
  traffic_multipliers s !! (u, v) = None →
  record_accident d u v s =
    (with_accidents
       (alist_insert (acc_id (new_accident d u v s)) (new_accident d u v s) (accidents s))
       (with_accident_counter (S (accident_counter s)) s),
     Raise KeyError).
Proof. intros Hm. unfold record_accident. simpl. by rewrite Hm. Qed.

Lemma record_accident_known_edge d u v m (s : MultiVehicleSimulator F A) :
  traffic_multipliers s !! (u, v) = Some m →
  record_accident d u v s =
    (with_traffic_multipliers
       (<[(u, v) := num_mul m (severity_multipliers (draw_severity d))]>
          (traffic_multipliers s))
       (with_accidents
          (alist_insert (acc_id (new_accident d u v s)) (new_accident d u v s)
                        (accidents s))
          (with_accident_counter (S (accident_counter s)) s)),
     Ok (Some (new_accident d u v s))).
Proof. intros Hm. unfold record_accident. simpl. by rewrite Hm. Qed.

Lemma create_accident_blocked_roads d from_node to_node (s : MultiVehicleSimulator F A) :
  blocked_roads (create_accident d from_node to_node s).1 = blocked_roads s.
Proof.
  assert (∀ u v, blocked_roads (record_accident d u v s).1 = blocked_roads s) as Hrec.
  { intros u v. unfold record_accident. simpl.
    by destruct (traffic_multipliers s !! (u, v)). }
  unfold create_accident.
  destruct from_node, to_node; try apply Hrec;
    repeat (match goal with
            | |- context [match choice ?n ?l with _ => _ end] => destruct (choice n l)
            end); try apply Hrec; done.
Qed.

Lemma resolve_accident_blocked_roads accident_id (s : MultiVehicleSimulator F A) :
  blocked_roads (resolve_accident accident_id s).1 = blocked_roads s.
Proof.
  unfold resolve_accident.
  destruct (alist_lookup _ _) as [acc|]; [|done].
  by destruct (traffic_multipliers s !! _).
Qed.

Lemma resolve_accident_unknown accident_id (s : MultiVehicleSimulator F A) :
  alist_lookup accident_id (accidents s) = None →
  resolve_accident accident_id s = (s, Ok false).
Proof. intros Hn. unfold resolve_accident. by rewrite Hn. Qed.

Lemma block_road_unknown_edge now u v r (s : MultiVehicleSimulator F A) :
  traffic_multipliers s !! (u, v) = None → block_road now u v r s = (s, false).
Proof. intros Hn. unfold block_road. by rewrite Hn. Qed.

Lemma unblock_road_not_blocked u v (s : MultiVehicleSimulator F A) :
  blocked_roads s !! (u, v) = None → unblock_road u v s = (s, false).
Proof. intros Hn. unfold unblock_road. by rewrite Hn. Qed.

Lemma spawn_vehicle_empty_graph d now vt start goal c (s : MultiVehicleSimulator F A) :
  graph s = ∅ → spawn_vehicle a_star d now vt start goal c s = (c, s, None).
Proof.
  intros Hg. unfold spawn_vehicle. rewrite Hg, map_to_list_empty. done.
Qed.

End IncidentFacts.

(** C6, the code at the failing input: [create_accident] with an explicit
    edge that has no multiplier raises [KeyError], after it has advanced
    the accident counter and entered the accident in the incident book.
    The other failures named by the claim are return values. *)
Theorem create_accident_unknown_edge_raises :
  (∀ (F : Type) (NF : Number F) (A : Type) (s : MultiVehicleSimulator F A)
     (d : AccidentDraw F) (u v : string),
     traffic_multipliers s !! (u, v) = None →
     (create_accident d (Some u) (Some v) s).2 = Raise KeyError ∧
     accident_counter (create_accident d (Some u) (Some v) s).1
       = S (accident_counter s) ∧
     acc_to_node <$>
       alist_lookup ("accident_" +:+ pretty (S (accident_counter s)))
                    (accidents (create_accident d (Some u) (Some v) s).1) = Some v) ∧
  (create_accident (D64.draw_of minor) (Some "X") (Some "Y") D64.sim0).2
    = Raise KeyError ∧
  fst <$> accidents
            (create_accident (D64.draw_of minor) (Some "X") (Some "Y") D64.sim0).1
    = ["accident_1"] ∧
  (∀ (F : Type) (NF : Number F) (A : Type) a_star (s : MultiVehicleSimulator F A),
     (∀ accident_id, alist_lookup accident_id (accidents s) = None →
        resolve_accident accident_id s = (s, Ok false)) ∧
     (∀ now u v r, traffic_multipliers s !! (u, v) = None →
        block_road now u v r s = (s, false)) ∧
     (∀ u v, blocked_roads s !! (u, v) = None → unblock_road u v s = (s, false)) ∧
     (∀ d now vt start goal c, graph s = ∅ →
        spawn_vehicle a_star d now vt start goal c s = (c, s, None))).
Proof.
  split; [|split; [by vm_compute|split; [by vm_compute|]]].
  - intros F NF A s d u v Hm. simpl.
    rewrite record_accident_unknown_edge by done. simpl.
    repeat split. by rewrite alist_lookup_insert.
  - intros F NF A a_star s. repeat split.
    + intros accident_id Hn. by apply resolve_accident_unknown.
    + intros now u v r Hn. by apply block_road_unknown_edge.
    + intros u v Hn. by apply unblock_road_not_blocked.
    + intros d now vt start goal c Hg. by apply spawn_vehicle_empty_graph.
Qed.

(** ** Blocked roads *)

Section BlockFacts.
Context {F : Type} `{!Number F} {A : Type}.
Variable a_star :
  gmap string (list string) → gmap string (F * F) → gmap Edge F →
  string → string → string → list string * F.
Variable update_traffic_multipliers :
  A → VehicleManager F → gmap Edge F → A * gmap Edge F.
Variable get_congestion_probability :
  A → VehicleManager F → string → string → F.

Lemma resolve_expired_blocked_roads now ids (s : MultiVehicleSimulator F A) :
  blocked_roads (resolve_expired now ids s).1 = blocked_roads s.
Proof.
  revert s. induction ids as [|x ids IH]; intros s; simpl; [done|].
  destruct (alist_lookup x (accidents s)) as [acc|]; [|done].
  destruct (num_ltb _ _); [|apply IH].
  pose proof (resolve_accident_blocked_roads x s) as Hr.
  destruct (resolve_accident x s) as [s1 [b|e]]; simpl in *; [|done].
  by rewrite IH.
Qed.

Lemma second_pass_blocked_roads dt clock ids moved arrived
    (s : MultiVehicleSimulator F A) :
  blocked_roads (second_pass dt clock ids moved arrived s).1 = blocked_roads s.
Proof.
  revert s moved arrived. induction ids as [|x ids IH]; intros s moved arrived; simpl;
    [done|].
  destruct (vehicles (vehicle_manager s) !! x) as [v|]; [|apply IH].
  destruct (second_pass_vehicle dt (clock x) s v) as [v' [[m a]|e]]; [|done].
  by rewrite IH.
Qed.

(** A tick never touches the block set. *)
Lemma simulation_tick_blocked_roads inp (s : MultiVehicleSimulator F A) :
  blocked_roads
    (simulation_tick a_star update_traffic_multipliers get_congestion_probability inp s).1
  = blocked_roads s.
Proof.
  unfold simulation_tick.
  set (s0 := with_simulation_step _ _).
  assert (blocked_roads s0 = blocked_roads s) as Hs0 by done.
  clearbody s0.
  set (c := if num_ltb _ _ then _ else _).
  assert (blocked_roads c.1 = blocked_roads s) as Hc.
  { subst c. destruct (num_ltb _ _); [|done].
    by rewrite create_accident_blocked_roads. }
  destruct c as [s1 [o|e]]; simpl in Hc; [|done].
  pose proof (resolve_expired_blocked_roads (tick_time inp) (accidents s1).*1 s1) as Hr.
  destruct (resolve_expired _ _ s1) as [s2 [[]|e]]; simpl in Hr; [|simpl; congruence].
  destruct (update_traffic_multipliers _ _ _) as [an tm].
  set (s3 := if bool_decide _ then _ else _).
  assert (blocked_roads s3 = blocked_roads s) as Hs3.
  { subst s3. case_bool_decide; simpl; congruence. }
  clearbody s3.
  set (ids := active_ids _).
  pose proof (first_pass_same_roads a_star get_congestion_probability ids s3)
    as (_ & _ & _ & Hfp & _).
  pose proof (second_pass_blocked_roads
                (pymin (num_sub (tick_time inp) (last_update_time s)) (num_lit 2 10))
                (arrival_clock inp) ids 0 0
                (first_pass a_star get_congestion_probability ids s3)) as Hsp.
  destruct (second_pass _ _ ids 0 0 _) as [s4 [[moved arrived]|e]]; simpl in *;
    congruence.
Qed.

(** C2 (amended): when [block_road] succeeds the edge's multiplier is set
    to 100.0 and the edge enters the block set, where it stays through
    incident creation, incident resolution and ticks until [unblock_road]
    removes it; the multiplier itself is not held at 100.0: an incident
    created on the edge multiplies it by the severity factor. *)
Theorem blocked_edge_stays_blocked
    (s : MultiVehicleSimulator F A) (now : F) (u v r : string) (m : F) :
  traffic_multipliers s !! (u, v) = Some m →
  (block_road now u v r s).2 = true ∧
  traffic_multipliers (block_road now u v r s).1 !! (u, v) = Some (num_lit 100 1) ∧
  is_Some (blocked_roads (block_road now u v r s).1 !! (u, v)) ∧
  (∀ s' : MultiVehicleSimulator F A,
     is_Some (blocked_roads s' !! (u, v)) →
     (∀ d from_node to_node,
        is_Some (blocked_roads (create_accident d from_node to_node s').1 !! (u, v))) ∧
     (∀ accident_id,
        is_Some (blocked_roads (resolve_accident accident_id s').1 !! (u, v))) ∧
     (∀ inp,
        is_Some (blocked_roads
                   (simulation_tick a_star update_traffic_multipliers
                                    get_congestion_probability inp s').1 !! (u, v))) ∧
     (unblock_road u v s').2 = true ∧
     blocked_roads (unblock_road u v s').1 !! (u, v) = None) ∧
  (∀ (s' : MultiVehicleSimulator F A) d m',
     traffic_multipliers s' !! (u, v) = Some m' →
     traffic_multipliers (create_accident d (Some u) (Some v) s').1 !! (u, v)
       = Some (num_mul m' (severity_multipliers (draw_severity d)))).
Proof.
  intros Hm. unfold block_road. rewrite Hm. simpl. rewrite !lookup_insert_eq.
  split; [done|]. split; [done|]. split; [done|]. split.
  - intros s' Hb. split; [|split; [|split; [|split]]].
    + intros d from_node to_node. by rewrite create_accident_blocked_roads.
    + intros accident_id. by rewrite resolve_accident_blocked_roads.
    + intros inp. by rewrite simulation_tick_blocked_roads.
    + unfold unblock_road. by destruct Hb as [b ->].
    + unfold unblock_road. destruct Hb as [b ->]. simpl. by rewrite lookup_delete_eq.
  - intros s' d m' Hm'. simpl. rewrite (record_accident_known_edge d u v m') by done.
    simpl. by rewrite lookup_insert_eq.
Qed.

End BlockFacts.

(** C2, at a concrete input: [B → D] of the diamond is blocked. *)
Lemma blocked_edge_stays_blocked_witness :
  traffic_multipliers D64.sim2 !! ("B", "D") = Some 100%float ∧
  is_Some (blocked_roads D64.sim2 !! ("B", "D")).
Proof.
  destruct (blocked_edge_stays_blocked D64.a_star D64.update_traffic_multipliers
              D64.get_congestion_probability D64.sim1 1%float "B" "D"
              "road_work" 1%float) as (_ & Hm & Hb & _).
  - by vm_compute.
  - split; [exact Hm|exact Hb].
Defined.

(** C2 as stated fails: a minor incident on the blocked edge [B → D]
    takes its multiplier from 100.0 to 200.0, and the hotspot drift of the
    thirtieth tick takes it from 100.0 to 71.5, while the edge is still in
    the block set. *)
Lemma blocked_multiplier_not_held_counterexample :
  (block_road 1%float "B" "D" "road_work" D64.sim1).2 = true ∧
  traffic_multipliers D64.sim2 !! ("B", "D") = Some 100%float ∧
  traffic_multipliers
    (create_accident (D64.draw_of minor) (Some "B") (Some "D") D64.sim2).1
    !! ("B", "D") = Some 200%float ∧
  reason <$> blocked_roads
    (create_accident (D64.draw_of minor) (Some "B") (Some "D") D64.sim2).1
    !! ("B", "D") = Some "road_work" ∧
  traffic_multipliers D64.sim_hot !! ("B", "D") = Some 100%float ∧
  simulation_step D64.sim_hot30 = 30 ∧
  traffic_multipliers D64.sim_hot30 !! ("B", "D") = Some 71.5%float ∧
  reason <$> blocked_roads D64.sim_hot30 !! ("B", "D") = Some "road_work".
Proof. by vm_compute. Qed.

(** ** Incident round trip *)

Section RoundTrip.
Context {F : Type} `{!Number F} {A : Type}.

(** Creating an incident on an edge and resolving it multiplies the
    edge's multiplier by the severity factor and divides it again. *)
Lemma create_resolve_multiplier (s : MultiVehicleSimulator F A)
    (d : AccidentDraw F) (u v : string) (m : F) :
  traffic_multipliers s !! (u, v) = Some m →
  (create_accident d (Some u) (Some v) s).2 = Ok (Some (new_accident d u v s)) ∧
  traffic_multipliers (create_accident d (Some u) (Some v) s).1 !! (u, v)
    = Some (num_mul m (severity_multipliers (draw_severity d))) ∧
  (resolve_accident (acc_id (new_accident d u v s))
     (create_accident d (Some u) (Some v) s).1).2 = Ok true ∧
  traffic_multipliers
    (resolve_accident (acc_id (new_accident d u v s))
       (create_accident d (Some u) (Some v) s).1).1 !! (u, v)
    = Some (num_div (num_mul m (severity_multipliers (draw_severity d)))
                    (severity_multipliers (draw_severity d))).
Proof.
  intros Hm. simpl. rewrite (record_accident_known_edge d u v m) by done. simpl.
  rewrite lookup_insert_eq. split; [done|]. split; [done|].
  unfold resolve_accident. simpl.
  rewrite alist_lookup_insert. simpl. rewrite lookup_insert_eq. simpl.
  by rewrite lookup_insert_eq.
Qed.

End RoundTrip.

(** In exact arithmetic the quotient is the multiplier itself. *)
Lemma exact_mul_div (m : Q) (sev : Severity) :
  (num_div (num_mul m (severity_multipliers sev)) (severity_multipliers sev) == m)%Q.
Proof. destruct sev; simpl; field. Qed.

(** ** Powers of two in binary64 *)

(** The severity factors 2.0 and 4.0 are powers of two: multiplying by
    one only moves the exponent, or the mantissa of a subnormal, and the
    division moves it back. *)
Section Binary64.
Local Open Scope Z_scope.

(** Doubling a mantissa [n] times adds [n] binary digits. *)
Lemma digits2_pos_shiftl (m : positive) (n : nat) :
  Z.pos (digits2_pos (Pos.shiftl_nat m n)) = Z.pos (digits2_pos m) + Z.of_nat n.
Proof.
  induction n as [|n IH].
  - cbn. lia.
  - change (Pos.shiftl_nat m (S n)) with (xO (Pos.shiftl_nat m n)).
    cbn [digits2_pos]. rewrite Pos2Z.inj_succ, IH. lia.
Qed.

(** [SpecFloat.iter_pos] is iteration over the unary count. *)
Lemma iter_pos_nat {X : Type} (f : X -> X) (p : positive) (x : X) :
  SpecFloat.iter_pos f p x = Nat.iter (Pos.to_nat p) f x.
Proof.
  revert x. induction p as [p IH|p IH|]; intros x; cbn [SpecFloat.iter_pos].
  - rewrite !IH, Pos2Nat.inj_xI.
    replace (S (2 * Pos.to_nat p)) with (Pos.to_nat p + (Pos.to_nat p + 1))%nat by lia.
    rewrite !Nat.iter_add. reflexivity.
  - rewrite !IH, Pos2Nat.inj_xO.
    replace (2 * Pos.to_nat p)%nat with (Pos.to_nat p + Pos.to_nat p)%nat by lia.
    rewrite Nat.iter_add. reflexivity.
  - reflexivity.
Qed.

(** Shifting right undoes the doublings and loses no bit. *)
Lemma iter_shr_1 (n : nat) (m : positive) :
  Nat.iter n shr_1
    {| shr_m := Z.pos (Pos.shiftl_nat m n); shr_r := false; shr_s := false |}
  = {| shr_m := Z.pos m; shr_r := false; shr_s := false |}.
Proof.
  induction n as [|n IH]; [reflexivity|].
  rewrite Nat.iter_succ_r.
  change (Pos.shiftl_nat m (S n)) with (xO (Pos.shiftl_nat m n)).
  cbn [shr_1 orb]. exact IH.
Qed.

(** The same for [shr], which also moves the exponent. *)
Lemma shr_shiftl (m : positive) (e : Z) (n : nat) :
  shr {| shr_m := Z.pos (Pos.shiftl_nat m n); shr_r := false; shr_s := false |}
      e (Z.of_nat n)
  = ({| shr_m := Z.pos m; shr_r := false; shr_s := false |}, e + Z.of_nat n).
Proof.
  unfold shr. destruct n as [|n].
  - cbn. f_equal. lia.
  - change (Z.of_nat (S n)) with (Z.pos (Pos.of_succ_nat n)).
    cbn match. rewrite iter_pos_nat, SuccNat2Pos.id_succ, iter_shr_1. reflexivity.
Qed.

(** Rounding a value that is representable gives that value, or an
    infinity beyond the largest exponent. *)
Lemma binary_round_aux_exact (s : bool) (m : positive) (e : Z) (n : nat) :
  canonical_mantissa prec emax m e = true ->
  binary_round_aux prec emax s (Z.pos (Pos.shiftl_nat m n)) (e - Z.of_nat n) loc_Exact
  = if e <=? emax - prec then S754_finite s m e else S754_infinity s.
Proof.
  intros Hc. unfold canonical_mantissa in Hc. apply Z.eqb_eq in Hc.
  unfold binary_round_aux, shr_fexp.
  cbn [Zdigits2 shr_record_of_loc].
  rewrite digits2_pos_shiftl.
  replace (fexp prec emax (Z.pos (digits2_pos m) + Z.of_nat n + (e - Z.of_nat n))
           - (e - Z.of_nat n)) with (Z.of_nat n).
  2:{ replace (Z.pos (digits2_pos m) + Z.of_nat n + (e - Z.of_nat n))
        with (Z.pos (digits2_pos m) + e) by lia.
      rewrite Hc. lia. }
  rewrite shr_shiftl.
  cbn [shr_m loc_of_shr_record shr_r shr_s round_nearest_even Zdigits2 shr_record_of_loc].
  replace (e - Z.of_nat n + Z.of_nat n) with e by lia.
  rewrite Hc, Z.sub_diag. cbn [shr shr_m]. reflexivity.
Qed.

(** Doublings add up. *)
Lemma shiftl_nat_add (m : positive) (a b : nat) :
  Pos.shiftl_nat (Pos.shiftl_nat m a) b = Pos.shiftl_nat m (b + a).
Proof. induction b as [|b IH]; [reflexivity|]. cbn. f_equal. exact IH. Qed.

(** Doubling [n] times multiplies by [2 ^ n]. *)
Lemma shiftl_nat_pow (m : positive) (n : nat) :
  Z.pos (Pos.shiftl_nat m n) = Z.pos m * 2 ^ Z.of_nat n.
Proof.
  induction n as [|n IH]; [cbn; lia|].
  change (Pos.shiftl_nat m (S n)) with (xO (Pos.shiftl_nat m n)).
  rewrite Pos2Z.inj_xO, IH, Nat2Z.inj_succ, Z.pow_succ_r by lia. lia.
Qed.

(** The left shift that the division applies to its dividend. *)
Lemma shift_match (m : positive) (n : nat) :
  match Z.of_nat n with
  | 0 => Z.pos m
  | Z.pos _ => Z.shiftl (Z.pos m) (Z.of_nat n)
  | Z.neg _ => 0
  end = Z.pos (Pos.shiftl_nat m n).
Proof.
  destruct n as [|n]; [reflexivity|].
  rewrite shiftl_nat_pow. cbn [Z.of_nat].
  rewrite Z.shiftl_mul_pow2 by lia. reflexivity.
Qed.

(** Dividing by the mantissa of a power of two, [2 ^ 52]. *)
Lemma div_eucl_shiftl (q : positive) (j : nat) :
  Z.div_eucl (Z.pos (Pos.shiftl_nat q (j + 52))) 4503599627370496
  = (Z.pos (Pos.shiftl_nat q j), 0).
Proof.
  assert (Hde : forall a b, Z.div_eucl a b = (a / b, a mod b)).
  { intros a b. unfold Z.div, Z.modulo. destruct (Z.div_eucl a b). reflexivity. }
  rewrite Hde. rewrite <- shiftl_nat_add.
  rewrite (shiftl_nat_pow (Pos.shiftl_nat q 52) j).
  rewrite (shiftl_nat_pow q 52), (shiftl_nat_pow q j).
  change (2 ^ Z.of_nat 52) with 4503599627370496.
  replace (Z.pos q * 4503599627370496 * 2 ^ Z.of_nat j)
    with (Z.pos q * 2 ^ Z.of_nat j * 4503599627370496) by lia.
  rewrite Z.div_mul, Z.mod_mul by lia. reflexivity.
Qed.

(** On a finite double, multiplying by [2 ^ c] and dividing by it again
    gives the double back, unless the product is infinite. *)
Lemma round_trip_pow2 (s : bool) (mx : positive) (ex c : Z) :
  c = 1 \/ c = 2 ->
  bounded prec emax mx ex = true ->
  (exists s', SFmul prec emax (S754_finite s mx ex)
                (S754_finite false 4503599627370496 (c - 52)) = S754_infinity s') \/
  SFdiv prec emax
    (SFmul prec emax (S754_finite s mx ex) (S754_finite false 4503599627370496 (c - 52)))
    (S754_finite false 4503599627370496 (c - 52))
  = S754_finite s mx ex.
Proof.
  intros Hc Hb. unfold bounded in Hb. apply andb_true_iff in Hb as [Hcan Hex].
  apply Z.leb_le in Hex.
  pose proof Hcan as Hcan'. unfold canonical_mantissa in Hcan'. apply Z.eqb_eq in Hcan'.
  unfold fexp, SpecFloat.emin, prec, emax in Hcan'.
  set (d := Z.pos (digits2_pos mx)) in *.
  (* how far the mantissa moves up *)
  set (t := Z.to_nat (Z.min c (53 - d))).
  assert (Ht : Z.of_nat t = Z.min c (53 - d)) by (subst t; lia).
  assert (Hd : 1 <= d) by (subst d; lia).
  set (m' := Pos.shiftl_nat mx t).
  set (e' := ex + c - Z.of_nat t).
  assert (Hcan1 : canonical_mantissa prec emax m' e' = true).
  { unfold canonical_mantissa. apply Z.eqb_eq. subst m' e'.
    rewrite digits2_pos_shiftl. fold d. unfold fexp, SpecFloat.emin, prec, emax. lia. }
  cbn [SFmul]. rewrite xorb_false_r, Pos.mul_comm.
  change (4503599627370496 * mx)%positive with (Pos.shiftl_nat mx 52).
  replace (Pos.shiftl_nat mx 52) with (Pos.shiftl_nat m' (52 - t)).
  2:{ subst m'. rewrite shiftl_nat_add. f_equal. lia. }
  replace (ex + (c - 52)) with (e' - Z.of_nat (52 - t)) by (subst e'; lia).
  rewrite binary_round_aux_exact by exact Hcan1.
  destruct (e' <=? emax - prec) eqn:He'; [right|left; eexists; reflexivity].
  apply Z.leb_le in He'. unfold emax, prec in He'.
  cbn [SFdiv]. rewrite xorb_false_r. unfold SFdiv_core_binary.
  cbn [Zdigits2].
  change (Z.pos (digits2_pos 4503599627370496)) with 53.
  subst m'. rewrite digits2_pos_shiftl. fold d.
  (* the exponent of the quotient and the shift of the dividend *)
  set (j := if Z.eq_dec d 53 then if Z.eq_dec ex (-1074) then 0%nat else 1%nat else 0%nat).
  replace (Z.min (fexp prec emax (d + Z.of_nat t + e' - (53 + (c - 52)))) (e' - (c - 52)))
    with (ex - Z.of_nat j).
  2:{ subst j e'. unfold fexp, SpecFloat.emin, prec, emax.
      destruct (Z.eq_dec d 53); [destruct (Z.eq_dec ex (-1074))|]; lia. }
  replace (e' - (c - 52) - (ex - Z.of_nat j)) with (Z.of_nat (52 - t + j)).
  2:{ subst j e'. destruct (Z.eq_dec d 53); [destruct (Z.eq_dec ex (-1074))|]; lia. }
  rewrite shift_match, shiftl_nat_add.
  replace (52 - t + j + t)%nat with (j + 52)%nat by lia.
  rewrite div_eucl_shiftl.
  change (new_location 4503599627370496 0) with loc_Exact.
  rewrite binary_round_aux_exact by exact Hcan.
  apply Z.leb_le in Hex. rewrite Hex. reflexivity.
Qed.

(** [PrimFloat.is_infinity] on the specification side. *)
Lemma is_infinity_spec (x : float) :
  PrimFloat.is_infinity x = match Prim2SF x with S754_infinity _ => true | _ => false end.
Proof.
  unfold PrimFloat.is_infinity. rewrite FloatAxioms.eqb_spec, abs_spec.
  change (Prim2SF infinity) with (S754_infinity false).
  destruct (Prim2SF x) as [s|s| |s m e]; try reflexivity; destruct s; reflexivity.
Qed.

(** Multiplying a double by 2.0 or 4.0 and dividing by the same factor
    gives the double back exactly when the product does not overflow. *)
Lemma round_trip_pow2_float (m f : float) :
  f = 2%float \/ f = 4%float ->
  (PrimFloat.div (PrimFloat.mul m f) f = m <-> overflows m f = false).
Proof.
  intros Hf.
  assert (Hsf : exists c, (c = 1 \/ c = 2) /\
                 Prim2SF f = S754_finite false 4503599627370496 (c - 52)).
  { destruct Hf as [-> | ->]; [exists 1|exists 2]; (split; [lia|reflexivity]). }
  destruct Hsf as (c & Hc & Hsf).
  unfold overflows. rewrite !is_infinity_spec, mul_spec, Hsf. unfold SF64mul.
  pose proof (Prim2SF_valid m) as Hv.
  assert (Hdiv : Prim2SF (PrimFloat.div (PrimFloat.mul m f) f)
            = SFdiv prec emax (SFmul prec emax (Prim2SF m) (Prim2SF f)) (Prim2SF f)).
  { rewrite div_spec, mul_spec. reflexivity. }
  rewrite Hsf in Hdiv.
  destruct (Prim2SF m) as [s|s| |s mx ex] eqn:Hm.
  - split; [reflexivity|]. intros _. apply Prim2SF_inj. rewrite Hdiv, Hm.
    cbn. destruct s; reflexivity.
  - split; [reflexivity|]. intros _. apply Prim2SF_inj. rewrite Hdiv, Hm.
    cbn. destruct s; reflexivity.
  - split; [reflexivity|]. intros _. apply Prim2SF_inj. rewrite Hdiv, Hm.
    reflexivity.
  - cbn [valid_binary] in Hv.
    destruct (round_trip_pow2 s mx ex c Hc Hv) as [(s' & Hinf) | Hrt].
    + rewrite Hinf. cbn [negb andb]. split; [|discriminate].
      intros He. exfalso.
      assert (H2 : Prim2SF (PrimFloat.div (PrimFloat.mul m f) f) = Prim2SF m)
        by (rewrite He; reflexivity).
      rewrite Hdiv, Hinf, Hm in H2. cbn in H2. discriminate.
    + split.
      * intros _. cbn [negb andb].
        destruct (SFmul prec emax (S754_finite s mx ex)
                    (S754_finite false 4503599627370496 (c - 52))) eqn:Hp;
          try reflexivity.
        cbn in Hrt. discriminate.
      * intros _. apply Prim2SF_inj. rewrite Hdiv, Hm. exact Hrt.
Qed.

End Binary64.

(** At the top of the range the product is infinite and stays so. *)
Example overflows_at_the_top :
  overflows 0x1p+1023%float 2%float = true ∧
  PrimFloat.div (PrimFloat.mul 0x1p+1023 2) 2 = infinity.
Proof. by vm_compute. Qed.

(** C5 (amended): creating an incident on an edge with multiplier [m] and
    resolving that same incident, with nothing else touching the edge in
    between, leaves the multiplier at [(m * f) / f], [f] the severity
    factor.  In exact arithmetic that is [m], for every [m] and every
    severity.  In binary64 it is [m] for a minor or a moderate incident
    exactly when the product [m * f] does not overflow, and for each
    severity it is exactly 1.0 from 1.0, a moderate incident giving 4.0 in
    between. *)
Theorem incident_round_trip :
  (∀ (A : Type) (s : MultiVehicleSimulator Q A) (d : AccidentDraw Q)
     (u v : string) (m : Q),
     traffic_multipliers s !! (u, v) = Some m →
     ∃ acc m',
       (create_accident d (Some u) (Some v) s).2 = Ok (Some acc) ∧
       (resolve_accident (acc_id acc) (create_accident d (Some u) (Some v) s).1).2
         = Ok true ∧
       traffic_multipliers
         (resolve_accident (acc_id acc) (create_accident d (Some u) (Some v) s).1).1
         !! (u, v) = Some m' ∧
       (m' == m)%Q) ∧
  (∀ (A : Type) (s : MultiVehicleSimulator float A) (d : AccidentDraw float)
     (u v : string),
     traffic_multipliers s !! (u, v) = Some 1%float →
     ∃ acc,
       (create_accident d (Some u) (Some v) s).2 = Ok (Some acc) ∧
       (draw_severity d = moderate →
        traffic_multipliers (create_accident d (Some u) (Some v) s).1 !! (u, v)
          = Some 4%float) ∧
       (resolve_accident (acc_id acc) (create_accident d (Some u) (Some v) s).1).2
         = Ok true ∧
       traffic_multipliers
         (resolve_accident (acc_id acc) (create_accident d (Some u) (Some v) s).1).1
         !! (u, v) = Some 1%float) ∧
  (∀ (A : Type) (s : MultiVehicleSimulator float A) (d : AccidentDraw float)
     (u v : string) (m : float),
     traffic_multipliers s !! (u, v) = Some m →
     draw_severity d = minor ∨ draw_severity d = moderate →
     ∃ acc m',
       (create_accident d (Some u) (Some v) s).2 = Ok (Some acc) ∧
       (resolve_accident (acc_id acc) (create_accident d (Some u) (Some v) s).1).2
         = Ok true ∧
       traffic_multipliers
         (resolve_accident (acc_id acc) (create_accident d (Some u) (Some v) s).1).1
         !! (u, v) = Some m' ∧
       (m' = m ↔ overflows m (severity_multipliers (draw_severity d)) = false)).
Proof.
  split; [|split].
  - intros A s d u v m Hm.
    destruct (create_resolve_multiplier s d u v m Hm) as (Hc & _ & Hr & Hm').
    exists (new_accident d u v s). eexists.
    split; [exact Hc|]. split; [exact Hr|]. split; [exact Hm'|].
    apply exact_mul_div.
  - intros A s d u v Hm.
    destruct (create_resolve_multiplier s d u v 1%float Hm) as (Hc & Hm1 & Hr & Hm').
    exists (new_accident d u v s).
    split; [exact Hc|]. split; [|split; [exact Hr|]].
    + intros Hsev. rewrite Hm1, Hsev. reflexivity.
    + rewrite Hm'. by destruct (draw_severity d).
  - intros A s d u v m Hm Hsev.
    destruct (create_resolve_multiplier s d u v m Hm) as (Hc & _ & Hr & Hm').
    exists (new_accident d u v s). eexists.
    split; [exact Hc|]. split; [exact Hr|]. split; [exact Hm'|].
    apply round_trip_pow2_float.
    destruct Hsev as [-> | ->]; [left|right]; reflexivity.
Qed.

(** C5 as stated fails in binary64: on the edge [A → B], whose multiplier
    two hotspot drifts have taken to 1.633, a severe incident gives 16.33
    and its resolution gives 1.6329999999999998. *)
Lemma severe_round_trip_counterexample :
  traffic_multipliers D64.sim_drifted !! ("A", "B")
    = Some 0x1.a20c49ba5e354p+0%float ∧
  traffic_multipliers
    (create_accident (D64.draw_of severe) (Some "A") (Some "B") D64.sim_drifted).1
    !! ("A", "B") = Some 0x1.0547ae147ae14p+4%float ∧
  (resolve_accident "accident_1"
     (create_accident (D64.draw_of severe) (Some "A") (Some "B") D64.sim_drifted).1).2
    = Ok true ∧
  traffic_multipliers
    (resolve_accident "accident_1"
       (create_accident (D64.draw_of severe) (Some "A") (Some "B") D64.sim_drifted).1).1
    !! ("A", "B") = Some 0x1.a20c49ba5e353p+0%float ∧
  PrimFloat.eqb 0x1.a20c49ba5e353p+0 0x1.a20c49ba5e354p+0 = false.
Proof. by vm_compute. Qed.

(** ** Exact arithmetic *)

Lemma exact_ltb_true (x y : Q) : num_ltb x y = true ↔ (x < y)%Q.
Proof.
  simpl. rewrite negb_true_iff, <- not_true_iff_false, Qle_bool_iff.
  split; [apply Qnot_le_lt|apply Qlt_not_le].
Qed.

Lemma exact_ltb_false (x y : Q) : num_ltb x y = false ↔ (y <= x)%Q.
Proof. simpl. by rewrite negb_false_iff, Qle_bool_iff. Qed.

Lemma exact_leb_true (x y : Q) : num_leb x y = true ↔ (x <= y)%Q.
Proof. simpl. apply Qle_bool_iff. Qed.

Lemma exact_leb_false (x y : Q) : num_leb x y = false ↔ (y < x)%Q.
Proof.
  simpl. rewrite <- not_true_iff_false, Qle_bool_iff.
  split; [apply Qnot_le_lt|apply Qlt_not_le].
Qed.

Lemma exact_eqb_false (x y : Q) : num_eqb x y = false ↔ ¬ (x == y)%Q.
Proof. simpl. by rewrite <- not_true_iff_false, Qeq_bool_iff. Qed.

(** Case analysis on the comparisons of a goal, leaving their meaning in
    the context. *)
Ltac exact_cases :=
  repeat match goal with
  | |- context [@num_ltb Q exact ?x ?y] =>
      let H := fresh "Hlt" in
      destruct (@num_ltb Q exact x y) eqn:H;
      [apply exact_ltb_true in H | apply exact_ltb_false in H]
  | |- context [@num_leb Q exact ?x ?y] =>
      let H := fresh "Hle" in
      destruct (@num_leb Q exact x y) eqn:H;
      [apply exact_leb_true in H | apply exact_leb_false in H]
  end.

(** Projections of a vehicle after attribute assignments. *)
Ltac vsimpl :=
  cbn [veh_id veh_type start_node goal_node current_node next_node path path_index
       status speed_multiplier capacity_usage spawn_time arrival_time total_distance
       position_on_edge current_speed target_speed acceleration wait_time
       reroute_count
       with_current_node with_next_node with_path with_path_index with_status
       with_arrival_time with_position_on_edge with_current_speed with_target_speed
       with_wait_time with_reroute_count fst snd] in *.

Ltac exact_unfold :=
  change (@num_add Q exact) with Qplus in *;
  change (@num_sub Q exact) with Qminus in *;
  change (@num_mul Q exact) with Qmult in *;
  change (@num_div Q exact) with Qdiv in *;
  change (@num_abs Q exact) with Qabs in *;
  change (@num_lit Q exact) with Qmake in *.

Lemma Qabs_lt_cases (x c : Q) : (Qabs x < c)%Q ↔ (- c < x ∧ x < c)%Q.
Proof. apply Qabs_Qlt_condition. Qed.

Lemma Qabs_ge_cases (x c : Q) : (c <= Qabs x)%Q ↔ (x <= - c ∨ c <= x)%Q.
Proof.
  split.
  - intros H. destruct (Qlt_le_dec x 0) as [Hn|Hp].
    + left. rewrite Qabs_neg in H by lra. lra.
    + right. rewrite Qabs_pos in H by lra. lra.
  - intros [H|H].
    + pose proof (Qle_Qabs (- x)) as Ha. rewrite Qabs_opp in Ha. lra.
    + pose proof (Qle_Qabs x). lra.
Qed.

Lemma Qdiv_nonneg (a b : Q) : (0 <= a)%Q → (0 < b)%Q → (0 <= a / b)%Q.
Proof. intros Ha Hb. apply Qle_shift_div_l; [done|]. lra. Qed.

(** In exact arithmetic, for a time step that is not negative and an
    edge length that is not zero: the speed moves towards the target by
    at most [acceleration * dt], never past it, and the position is
    advanced and clipped. *)
Lemma update_position_exact (v : Vehicle Q) (dt L : Q) :
  (0 <= dt)%Q → (0 <= acceleration v)%Q → ¬ (L == 0)%Q →
  (status v ≠ MOVING → status v ≠ STUCK → update_position dt L v = (v, Ok false)) ∧
  (status v = MOVING ∨ status v = STUCK →
     (Qabs (current_speed (update_position dt L v).1 - current_speed v)
        <= acceleration v * dt)%Q ∧
     ((current_speed v <= target_speed v)%Q →
        (current_speed v <= current_speed (update_position dt L v).1 <= target_speed v)%Q) ∧
     ((target_speed v <= current_speed v)%Q →
        (target_speed v <= current_speed (update_position dt L v).1 <= current_speed v)%Q) ∧
     ((Qabs (target_speed v - current_speed v) < acceleration v * dt)%Q →
        current_speed (update_position dt L v).1 = target_speed v) ∧
     ((1 <= position_on_edge v + current_speed (update_position dt L v).1 * dt / L)%Q →
        position_on_edge (update_position dt L v).1 = 1%Q ∧
        (update_position dt L v).2 = Ok true) ∧
     ((position_on_edge v + current_speed (update_position dt L v).1 * dt / L < 1)%Q →
        position_on_edge (update_position dt L v).1
          = (position_on_edge v + current_speed (update_position dt L v).1 * dt / L)%Q ∧
        (update_position dt L v).2 = Ok false)).
Proof.
  intros Hdt Hacc HL. split.
  - intros Hm Hs. unfold update_position.
    by rewrite (bool_decide_eq_false_2 _ Hm), (bool_decide_eq_false_2 _ Hs).
  - intros Hst. unfold update_position.
    assert (negb (bool_decide (status v = MOVING)) && negb (bool_decide (status v = STUCK))
            = false) as ->.
    { destruct Hst as [-> | ->]; done. }
    assert (num_eqb L (num_lit 0 1) = false) as ->
      by (apply exact_eqb_false; exact HL).
    assert (0 <= acceleration v * dt)%Q as Hadt by by apply Qmult_le_0_compat.
    set (v1 := if num_ltb _ _ then _ else _).
    assert (position_on_edge v1 = position_on_edge v) as Hpos.
    { subst v1. by exact_cases. }
    assert ((Qabs (current_speed v1 - current_speed v) <= acceleration v * dt)%Q ∧
            ((current_speed v <= target_speed v)%Q →
               (current_speed v <= current_speed v1 <= target_speed v)%Q) ∧
            ((target_speed v <= current_speed v)%Q →
               (target_speed v <= current_speed v1 <= current_speed v)%Q) ∧
            ((Qabs (target_speed v - current_speed v) < acceleration v * dt)%Q →
               current_speed v1 = target_speed v)) as Hspeed.
    { subst v1. exact_cases; vsimpl; exact_unfold.
      - apply Qabs_lt_cases in Hlt. repeat split; try lra.
        apply Qabs_Qle_condition. lra.
      - apply Qabs_ge_cases in Hlt. repeat split; try lra.
        + apply Qabs_Qle_condition. lra.
        + intros Ha. apply Qabs_lt_cases in Ha. lra.
      - apply Qabs_ge_cases in Hlt. repeat split; try lra.
        + apply Qabs_Qle_condition. lra.
        + intros Ha. apply Qabs_lt_cases in Ha. lra. }
    clearbody v1. destruct Hspeed as (Hs1 & Hs2 & Hs3 & Hs4).
    exact_cases; vsimpl; exact_unfold; rewrite ?Hpos in *.
    + repeat split; try done; try lra.
    + repeat split; try done; try lra.
Qed.

Lemma slew_exact (c t step : Q) :
  (0 <= step)%Q →
  (if num_ltb (num_abs (num_sub t c)) step then t
   else if num_ltb (num_lit 0 1) (num_sub t c) then num_add c step
        else num_sub c step) == slew c t step.
Proof.
  intros Hstep. unfold slew, pymin, pymax. exact_cases; exact_unfold;
    try apply Qabs_lt_cases in Hlt; try apply Qabs_ge_cases in Hlt;
    change (0 # 1) with 0%Q in *; lra.
Qed.

(** C7 (amended): [update_position] changes nothing and returns false
    when the status is neither Moving nor Stuck.  Otherwise, in any
    arithmetic and for any [dt] and [L]: it sets [current_speed] to
    [target_speed] when [|target_speed - current_speed| < acceleration *
    dt], and else adds [acceleration * dt] to it when the target is above
    and subtracts [acceleration * dt] when it is not; then, if [L] is
    zero, it raises [ZeroDivisionError] with the new speed assigned and
    the position as it was; if not, it adds [current_speed * dt / L] to
    [position_on_edge], clips the position to 1.0 and returns true
    exactly when it clipped; it assigns nothing else.  In exact
    arithmetic, for [dt] and an acceleration that are not negative, the
    speed stage is the slew of the specification: [current_speed] moves
    towards [target_speed] by at most [acceleration * dt] and never
    crosses it. *)
Theorem update_position_two_stage :
  (∀ (F : Type) (N : Number F) (v : Vehicle F) (dt L : F),
     (status v ≠ MOVING → status v ≠ STUCK → update_position dt L v = (v, Ok false)) ∧
     (status v = MOVING ∨ status v = STUCK →
        current_speed (update_position dt L v).1
        = (if num_ltb (num_abs (num_sub (target_speed v) (current_speed v)))
                      (num_mul (acceleration v) dt)
           then target_speed v
           else if num_ltb (num_lit 0 1) (num_sub (target_speed v) (current_speed v))
                then num_add (current_speed v) (num_mul (acceleration v) dt)
                else num_sub (current_speed v) (num_mul (acceleration v) dt)) ∧
        (num_eqb L (num_lit 0 1) = true →
           (update_position dt L v).2 = Raise ZeroDivisionError ∧
           position_on_edge (update_position dt L v).1 = position_on_edge v) ∧
        (num_eqb L (num_lit 0 1) = false →
           (num_leb (num_lit 1 1)
                    (num_add (position_on_edge v)
                       (num_div (num_mul (current_speed (update_position dt L v).1) dt) L))
              = true →
            position_on_edge (update_position dt L v).1 = num_lit 1 1 ∧
            (update_position dt L v).2 = Ok true) ∧
           (num_leb (num_lit 1 1)
                    (num_add (position_on_edge v)
                       (num_div (num_mul (current_speed (update_position dt L v).1) dt) L))
              = false →
            position_on_edge (update_position dt L v).1
              = num_add (position_on_edge v)
                  (num_div (num_mul (current_speed (update_position dt L v).1) dt) L) ∧
            (update_position dt L v).2 = Ok false)) ∧
        with_current_speed (current_speed v)
          (with_position_on_edge (position_on_edge v) (update_position dt L v).1) = v)) ∧
  (∀ (v : Vehicle Q) (dt L : Q),
     (0 <= dt)%Q → (0 <= acceleration v)%Q →
     status v = MOVING ∨ status v = STUCK →
     (current_speed (update_position dt L v).1
        == slew (current_speed v) (target_speed v) (acceleration v * dt))%Q ∧
     (Qabs (current_speed (update_position dt L v).1 - current_speed v)
        <= acceleration v * dt)%Q ∧
     ((current_speed v <= target_speed v)%Q →
        (current_speed v <= current_speed (update_position dt L v).1 <= target_speed v)%Q) ∧
     ((target_speed v <= current_speed v)%Q →
        (target_speed v <= current_speed (update_position dt L v).1 <= current_speed v)%Q)).
Proof.
  assert (Hgen : ∀ (F : Type) (N : Number F) (v : Vehicle F) (dt L : F),
    status v = MOVING ∨ status v = STUCK →
    current_speed (update_position dt L v).1
    = (if num_ltb (num_abs (num_sub (target_speed v) (current_speed v)))
                  (num_mul (acceleration v) dt)
       then target_speed v
       else if num_ltb (num_lit 0 1) (num_sub (target_speed v) (current_speed v))
            then num_add (current_speed v) (num_mul (acceleration v) dt)
            else num_sub (current_speed v) (num_mul (acceleration v) dt))).
  { intros F N v dt L Hst. unfold update_position.
    assert (negb (bool_decide (status v = MOVING)) && negb (bool_decide (status v = STUCK))
            = false) as -> by (destruct Hst as [-> | ->]; done).
    repeat (match goal with |- context [if ?b then _ else _] => destruct b end);
      reflexivity. }
  split.
  - intros F N v dt L. split.
    + intros Hm Hs. unfold update_position.
      by rewrite (bool_decide_eq_false_2 _ Hm), (bool_decide_eq_false_2 _ Hs).
    + intros Hst. split; [by apply Hgen|].
      rewrite (Hgen F N v dt L Hst). unfold update_position.
      assert (negb (bool_decide (status v = MOVING)) && negb (bool_decide (status v = STUCK))
              = false) as -> by (destruct Hst as [-> | ->]; done).
      set (v1 := if num_ltb _ _ then _ else _).
      assert (position_on_edge v1 = position_on_edge v ∧
              current_speed v1
              = (if num_ltb (num_abs (num_sub (target_speed v) (current_speed v)))
                            (num_mul (acceleration v) dt)
                 then target_speed v
                 else if num_ltb (num_lit 0 1) (num_sub (target_speed v) (current_speed v))
                      then num_add (current_speed v) (num_mul (acceleration v) dt)
                      else num_sub (current_speed v) (num_mul (acceleration v) dt)) ∧
              with_current_speed (current_speed v) v1 = v) as (Hp1 & Hc1 & Hf1).
      { subst v1.
        repeat (match goal with |- context [if ?b then _ else _] => destruct b end);
          by destruct v. }
      rewrite <- Hc1. clearbody v1.
      destruct (num_eqb L (num_lit 0 1)).
      * split; [done|]. split; [done|]. cbn [fst]. rewrite <- Hf1 at 2.
        by destruct v1.
      * split; [done|]. rewrite <- Hp1.
        destruct (num_leb _ _); cbn [fst snd];
          (split; [split; [done|] | ]);
          try done; try (intros [_ ?]; done);
          rewrite <- Hf1 at 2; by destruct v1.
  - intros v dt L Hdt Hacc Hst.
    rewrite (Hgen Q exact v dt L Hst).
    assert (0 <= acceleration v * dt)%Q as Hstep by by apply Qmult_le_0_compat.
    split; [by apply slew_exact|].
    exact_cases; exact_unfold; change (0 # 1) with 0%Q in *;
      try apply Qabs_lt_cases in Hlt; try apply Qabs_ge_cases in Hlt.
    + split; [apply Qabs_Qle_condition; lra|]. split; intros; lra.
    + split; [apply Qabs_Qle_condition; lra|]. split; intros; lra.
    + split; [apply Qabs_Qle_condition; lra|]. split; intros; lra.
Qed.

(** ** Bounds *)

Lemma SPEED_MULTIPLIERS_exact (t : VehicleType) :
  (10 <= SPEED_MULTIPLIERS t)%Q.
Proof. destruct t; cbn; lra. Qed.

Ltac wf_unfold := unfold well_formed_vehicle, kinematic_bounds in *; vsimpl.

Lemma wf_with_status st (v : Vehicle Q) :
  well_formed_vehicle v → well_formed_vehicle (with_status st v).
Proof. by wf_unfold. Qed.

Lemma wf_set_path new_path cost (v : Vehicle Q) :
  well_formed_vehicle v → well_formed_vehicle (set_path new_path cost v).
Proof. unfold set_path. destruct (decide _); by wf_unfold. Qed.

Lemma wf_with_target_speed x (v : Vehicle Q) :
  (0 <= x <= speed_multiplier v)%Q →
  well_formed_vehicle v → well_formed_vehicle (with_target_speed x v).
Proof. wf_unfold. tauto. Qed.

Lemma wf_speed_multiplier_pos (v : Vehicle Q) :
  well_formed_vehicle v → (10 <= speed_multiplier v)%Q.
Proof. intros (_ & _ & -> & _). apply SPEED_MULTIPLIERS_exact. Qed.

Lemma wf_reroute_vehicle {A} a_star (s : MultiVehicleSimulator Q A) (v : Vehicle Q) :
  well_formed_vehicle v → well_formed_vehicle (_reroute_vehicle a_star s v).
Proof.
  intros Hwf. pose proof (wf_speed_multiplier_pos v Hwf) as Hsm.
  unfold _reroute_vehicle. destruct (a_star _ _ _ _ _ _) as [p c].
  destruct (_ && _); [|done].
  apply wf_with_status. unfold increment_reroute, set_path.
  destruct (decide _); wf_unfold; repeat split; try tauto; lra.
Qed.

Lemma wf_slow_down d (v : Vehicle Q) :
  well_formed_vehicle v →
  well_formed_vehicle (slow_down_for_vehicle_ahead d (num_lit 30 1) v).
Proof.
  intros Hwf. pose proof (wf_speed_multiplier_pos v Hwf) as Hsm.
  unfold slow_down_for_vehicle_ahead. exact_cases.
  - apply wf_with_status, wf_with_target_speed; [|done]. cbn. lra.
  - apply wf_with_status, wf_with_target_speed; [|done].
    exact_unfold.
    assert (d / (30 * 2) == d * (1 # 60))%Q as Hd by field.
    rewrite Hd. split; nra.
  - assert (well_formed_vehicle (with_target_speed (speed_multiplier v) v)) as Hwf'.
    { apply wf_with_target_speed; [lra|done]. }
    destruct (bool_decide _); [by apply wf_with_status|done].
Qed.

Lemma pymax_bounds (a b lo hi : Q) :
  (lo <= b)%Q → (a <= hi)%Q → (b <= hi)%Q → (lo <= pymax a b <= hi)%Q.
Proof. intros. unfold pymax. exact_cases; lra. Qed.

(** Moving a value towards another without crossing it keeps it in any
    interval that holds the value it is moved to. *)
Lemma pymin_bounds (a b lo hi : Q) :
  (lo <= a)%Q → (lo <= b)%Q → (b <= hi)%Q → (lo <= pymin a b <= hi)%Q.
Proof. intros. unfold pymin. exact_cases; lra. Qed.

Lemma pymax_bounds' (a b lo hi : Q) :
  (lo <= a)%Q → (a <= hi)%Q → (b <= hi)%Q → (lo <= pymax a b <= hi)%Q.
Proof. intros. unfold pymax. exact_cases; lra. Qed.

(** The speed the controller steers to lies between a fifth of the
    maximum speed and the maximum speed. *)
Lemma ideal_speed_bounds (sm tm : Q) :
  (0 <= sm)%Q → (1 < tm)%Q →
  (0 <= num_mul sm (pymax (num_div (num_lit 1 1) tm) (num_lit 2 10)) <= sm)%Q.
Proof.
  intros Hsm Htm. exact_unfold.
  assert (0 < 1 / tm <= 1)%Q as Hf.
  { split.
    - apply Qlt_shift_div_l; lra.
    - apply Qle_shift_div_r; lra. }
  destruct (pymax_bounds (1 / tm) (2 # 10) (2 # 10) 1) as [Hlo Hhi]; try lra.
  split; nra.
Qed.

Lemma wf_congestion_speed_control {A} (s : MultiVehicleSimulator Q A)
    (v : Vehicle Q) edge :
  well_formed_vehicle v → well_formed_vehicle (congestion_speed_control s v edge).
Proof.
  intros Hwf. pose proof (wf_speed_multiplier_pos v Hwf) as Hsm.
  unfold congestion_speed_control.
  set (tm := default _ _). clearbody tm.
  set (ideal := if num_ltb _ tm then _ else _).
  assert (0 <= ideal <= speed_multiplier v)%Q as Hideal.
  { subst ideal. exact_cases; [|lra]. apply ideal_speed_bounds; [lra|done]. }
  clearbody ideal.
  set (v1 := if num_ltb (current_speed v) _ then _ else _).
  assert (well_formed_vehicle v1) as Hwf1.
  { pose proof Hwf as (_ & Ht & _).
    subst v1. exact_cases; try done; apply wf_with_target_speed; try done;
      exact_unfold.
    - lra.
    - apply pymin_bounds; lra.
    - apply pymax_bounds'; lra.
    - apply pymin_bounds; lra.
    - apply pymax_bounds'; lra. }
  clearbody v1.
  destruct (_ && _); [by apply wf_with_status|].
  destruct (_ && _); [by apply wf_with_status|done].
Qed.

Lemma wf_first_pass_vehicle {A} a_star gcp (s : MultiVehicleSimulator Q A)
    (v : Vehicle Q) :
  well_formed_vehicle v → well_formed_vehicle (first_pass_vehicle a_star gcp s v).
Proof.
  intros Hwf. pose proof (wf_speed_multiplier_pos v Hwf) as Hsm.
  unfold first_pass_vehicle.
  destruct (_ || _); [done|].
  destruct (bool_decide _).
  - destruct (_should_reroute _ _ _); [by apply wf_reroute_vehicle|].
    apply wf_with_status, wf_with_target_speed; [|done]. cbn. lra.
  - destruct (find_ahead _ _ _) as [[? d]|].
    + by apply wf_slow_down.
    + by apply wf_congestion_speed_control.
Qed.

Lemma wf_update_position dt L (v : Vehicle Q) :
  (0 <= dt)%Q → (0 < L)%Q →
  well_formed_vehicle v → well_formed_vehicle (update_position dt L v).1.
Proof.
  intros Hdt HL Hwf.
  destruct (decide (status v = MOVING ∨ status v = STUCK)) as [Hst|Hst].
  - pose proof Hwf as ((Hpos & Hspd) & Htgt & Hsm & Hacc).
    assert (¬ (L == 0)%Q) as HL0 by lra.
    destruct (update_position_exact v dt L Hdt Hacc HL0) as [_ Hup].
    destruct (Hup Hst) as (_ & Hinc & Hdec & _ & Hclip & Hfree).
    assert (0 <= current_speed (update_position dt L v).1 <= speed_multiplier v)%Q
      as Hspd'.
    { destruct (Qlt_le_dec (target_speed v) (current_speed v)) as [Hc|Hc].
      - specialize (Hdec ltac:(lra)). rewrite Hsm. lra.
      - specialize (Hinc Hc). lra. }
    assert (0 <= current_speed (update_position dt L v).1 * dt / L)%Q as Hstep.
    { apply Qdiv_nonneg; [|done]. apply Qmult_le_0_compat; lra. }
    assert (veh_type (update_position dt L v).1 = veh_type v ∧
            target_speed (update_position dt L v).1 = target_speed v ∧
            speed_multiplier (update_position dt L v).1 = speed_multiplier v ∧
            acceleration (update_position dt L v).1 = acceleration v)
      as (Hty & Htg & Hsm' & Hac').
    { unfold update_position.
      repeat (match goal with |- context [if ?b then _ else _] => destruct b end);
        vsimpl; done. }
    unfold well_formed_vehicle, kinematic_bounds.
    rewrite Hty, Htg, Hsm', Hac'.
    repeat split; try tauto; try lra.
    + destruct (Qlt_le_dec
                  (position_on_edge v + current_speed (update_position dt L v).1 * dt / L)
                  1) as [Hc|Hc].
      * destruct (Hfree Hc) as [-> _]. lra.
      * destruct (Hclip Hc) as [-> _]. lra.
    + destruct (Qlt_le_dec
                  (position_on_edge v + current_speed (update_position dt L v).1 * dt / L)
                  1) as [Hc|Hc].
      * destruct (Hfree Hc) as [-> _]. lra.
      * destruct (Hclip Hc) as [-> _]. lra.
    + rewrite <- Hsm. lra.
  - unfold update_position.
    assert (negb (bool_decide (status v = MOVING)) && negb (bool_decide (status v = STUCK))
            = true) as ->; [|done].
    apply andb_true_iff. split; apply negb_true_iff, bool_decide_eq_false_2; tauto.
Qed.

Lemma wf_move_to_next_node now (v : Vehicle Q) :
  well_formed_vehicle v → well_formed_vehicle (move_to_next_node now v).1.
Proof.
  intros Hwf. unfold move_to_next_node.
  destruct (decide _); [by wf_unfold|].
  destruct (decide _); wf_unfold; [|done].
  repeat split; try tauto; cbn; lra.
Qed.

Lemma wf_second_pass_vehicle {A} dt now (s : MultiVehicleSimulator Q A) (v : Vehicle Q) :
  (0 <= dt)%Q → (∀ e L, edge_lengths s !! e = Some L → (50 <= L)%Q) →
  well_formed_vehicle v →
  well_formed_vehicle (second_pass_vehicle dt now s v).1 ∧
  raises (second_pass_vehicle dt now s v).2 = false.
Proof.
  intros Hdt Hlen Hwf. unfold second_pass_vehicle.
  destruct (_ || _); [done|].
  set (L := default _ _).
  assert (50 <= L)%Q as HL.
  { subst L. destruct (edge_lengths s !! _) as [L|] eqn:He; [by eapply Hlen|cbn; lra]. }
  clearbody L.
  pose proof (wf_update_position dt L v Hdt ltac:(lra) Hwf) as Hup.
  assert (raises (update_position dt L v).2 = false) as Hnr.
  { unfold update_position. destruct (_ && _); [done|].
    assert (num_eqb L (num_lit 0 1) = false) as ->.
    { apply exact_eqb_false. cbn. lra. }
    by destruct (num_leb _ _). }
  destruct (update_position dt L v) as [v1 [[|]|e]]; cbn [fst snd] in *.
  - pose proof (wf_move_to_next_node now v1 Hup) as Hmv.
    by destruct (move_to_next_node now v1) as [v2 b].
  - done.
  - done.
Qed.

(** ** The bounds along a run *)

Section Bounds.
Context {A : Type}.
Variable a_star :
  gmap string (list string) → gmap string (Q * Q) → gmap Edge Q →
  string → string → string → list string * Q.
Variable update_traffic_multipliers :
  A → VehicleManager Q → gmap Edge Q → A * gmap Edge Q.
Variable get_congestion_probability :
  A → VehicleManager Q → string → string → Q.

Lemma kernel_ok_same_fleet (s s' : MultiVehicleSimulator Q A) :
  same_fleet s s' → kernel_ok s → kernel_ok s'.
Proof. intros [Hv He] [Hw Hl]. unfold kernel_ok. by rewrite Hv, He. Qed.

Lemma same_fleet_trans (s1 s2 s3 : MultiVehicleSimulator Q A) :
  same_fleet s1 s2 → same_fleet s2 s3 → same_fleet s1 s3.
Proof. intros [? ?] [? ?]. split; congruence. Qed.

Lemma create_accident_same_fleet d from_node to_node (s : MultiVehicleSimulator Q A) :
  same_fleet s (create_accident d from_node to_node s).1.
Proof.
  assert (∀ u v, same_fleet s (record_accident d u v s).1) as Hrec.
  { intros u v. unfold record_accident. cbn.
    by destruct (traffic_multipliers s !! (u, v)). }
  unfold create_accident.
  destruct from_node, to_node; try apply Hrec;
    repeat (match goal with
            | |- context [match choice ?n ?l with _ => _ end] => destruct (choice n l)
            end); try apply Hrec; done.
Qed.

Lemma resolve_accident_same_fleet accident_id (s : MultiVehicleSimulator Q A) :
  same_fleet s (resolve_accident accident_id s).1.
Proof.
  unfold resolve_accident.
  destruct (alist_lookup _ _) as [acc|]; [|done].
  by destruct (traffic_multipliers s !! _).
Qed.

Lemma resolve_expired_same_fleet now ids (s : MultiVehicleSimulator Q A) :
  same_fleet s (resolve_expired now ids s).1.
Proof.
  revert s. induction ids as [|x ids IH]; intros s; cbn [resolve_expired]; [done|].
  destruct (alist_lookup x (accidents s)) as [acc|]; [|done].
  destruct (num_ltb _ _); [|apply IH].
  pose proof (resolve_accident_same_fleet x s) as Hr.
  destruct (resolve_accident x s) as [s1 [b|e]]; cbn [fst] in *; [|done].
  eapply same_fleet_trans; [exact Hr|apply IH].
Qed.

Lemma block_road_same_fleet now u v r (s : MultiVehicleSimulator Q A) :
  same_fleet s (block_road now u v r s).1.
Proof. unfold block_road. by destruct (traffic_multipliers s !! _). Qed.

Lemma unblock_road_same_fleet u v (s : MultiVehicleSimulator Q A) :
  same_fleet s (unblock_road u v s).1.
Proof. unfold unblock_road. by destruct (blocked_roads s !! _). Qed.

Lemma kernel_ok_store vid v (s : MultiVehicleSimulator Q A) :
  kernel_ok s → well_formed_vehicle v → kernel_ok (store_vehicle vid v s).
Proof.
  intros [Hw Hl] Hv. split; [|done]. intros x w. cbn.
  destruct (decide (vid = x)) as [->|Hne].
  - rewrite lookup_insert_eq. by intros [= <-].
  - rewrite lookup_insert_ne by done. apply Hw.
Qed.

Lemma first_pass_ok ids (s : MultiVehicleSimulator Q A) :
  kernel_ok s → kernel_ok (first_pass a_star get_congestion_probability ids s).
Proof.
  revert s. induction ids as [|x ids IH]; intros s Hok; cbn; [done|].
  destruct (vehicles (vehicle_manager s) !! x) as [v|] eqn:Hv; [|by apply IH].
  apply IH, kernel_ok_store; [done|].
  apply wf_first_pass_vehicle. by apply (proj1 Hok x).
Qed.

Lemma second_pass_ok dt clock ids moved arrived (s : MultiVehicleSimulator Q A) :
  (0 <= dt)%Q → kernel_ok s →
  kernel_ok (second_pass dt clock ids moved arrived s).1 ∧
  raises (second_pass dt clock ids moved arrived s).2 = false.
Proof.
  intros Hdt. revert s moved arrived.
  induction ids as [|x ids IH]; intros s moved arrived Hok; cbn [second_pass]; [done|].
  destruct (vehicles (vehicle_manager s) !! x) as [v|] eqn:Hv; [|by apply IH].
  destruct (wf_second_pass_vehicle dt (clock x) s v Hdt (proj2 Hok))
    as [Hwf Hnr]; [by apply (proj1 Hok x)|].
  destruct (second_pass_vehicle dt (clock x) s v) as [v' [[m a]|e]];
    cbn [fst snd] in *; [|done].
  apply IH. by apply kernel_ok_store.
Qed.

Lemma kernel_ok_occupancy (s : MultiVehicleSimulator Q A) :
  kernel_ok s →
  kernel_ok (with_vehicle_manager (update_edge_occupancy (vehicle_manager s)) s).
Proof. by intros [? ?]. Qed.

Lemma create_accident_no_zero_division d from_node to_node
    (s : MultiVehicleSimulator Q A) :
  (create_accident d from_node to_node s).2 ≠ Raise ZeroDivisionError.
Proof.
  assert (∀ u v, (record_accident d u v s).2 ≠ Raise ZeroDivisionError) as Hrec.
  { intros u v. unfold record_accident. cbn.
    by destruct (traffic_multipliers s !! (u, v)). }
  unfold create_accident.
  destruct from_node, to_node; try apply Hrec;
    repeat (match goal with
            | |- context [match choice ?n ?l with _ => _ end] => destruct (choice n l)
            end); try apply Hrec; done.
Qed.

Lemma resolve_expired_no_zero_division now ids (s : MultiVehicleSimulator Q A) :
  (resolve_expired now ids s).2 ≠ Raise ZeroDivisionError.
Proof.
  revert s. induction ids as [|x ids IH]; intros s; cbn [resolve_expired]; [done|].
  destruct (alist_lookup x (accidents s)) as [acc|] eqn:Hacc; [|done].
  destruct (num_ltb _ _); [|apply IH].
  unfold resolve_accident. rewrite Hacc.
  destruct (traffic_multipliers s !! _); [apply IH|done].
Qed.

(** A tick keeps the kernel well formed, and it does not divide by
    zero. *)
Lemma simulation_tick_ok inp (s : MultiVehicleSimulator Q A) :
  (last_update_time s <= tick_time inp)%Q → kernel_ok s →
  kernel_ok (simulation_tick a_star update_traffic_multipliers
                             get_congestion_probability inp s).1 ∧
  (simulation_tick a_star update_traffic_multipliers
                   get_congestion_probability inp s).2 ≠ Raise ZeroDivisionError.
Proof.
  intros Hclock Hok. unfold simulation_tick.
  set (dt := pymin _ _).
  assert (0 <= dt)%Q as Hdt.
  { subst dt. apply pymin_bounds with (hi := (2 # 10)%Q); exact_unfold; cbn; lra. }
  clearbody dt.
  set (s0 := with_simulation_step _ _).
  assert (kernel_ok s0) as Hs0 by done.
  clearbody s0.
  set (c := if num_ltb _ _ then _ else _).
  assert (kernel_ok c.1 ∧ c.2 ≠ Raise ZeroDivisionError) as [Hc Hcr].
  { subst c. destruct (num_ltb _ _); [|done]. split.
    - eapply kernel_ok_same_fleet; [apply create_accident_same_fleet|done].
    - apply create_accident_no_zero_division. }
  destruct c as [s1 [o|e]]; cbn [fst snd] in Hc, Hcr; [|split; [done|]].
  2:{ intros [= ->]. by apply Hcr. }
  pose proof (resolve_expired_same_fleet (tick_time inp) (accidents s1).*1 s1) as Hr.
  pose proof (resolve_expired_no_zero_division (tick_time inp) (accidents s1).*1 s1)
    as Hrr.
  destruct (resolve_expired _ _ s1) as [s2 [[]|e]]; cbn [fst snd] in Hr, Hrr.
  2:{ split; [by eapply kernel_ok_same_fleet|]. intros [= ->]. by apply Hrr. }
  assert (kernel_ok s2) as Hs2 by by eapply kernel_ok_same_fleet.
  destruct (update_traffic_multipliers _ _ _) as [an tm].
  set (s3 := if bool_decide _ then _ else _).
  assert (kernel_ok s3) as Hs3.
  { subst s3. by case_bool_decide. }
  clearbody s3.
  set (ids := active_ids _). clearbody ids.
  pose proof (first_pass_ok ids s3 Hs3) as Hfp.
  destruct (second_pass_ok dt (arrival_clock inp) ids 0 0 _ Hdt Hfp) as [Hsp Hnr].
  destruct (second_pass _ _ ids 0 0 _) as [s4 [[moved arrived]|e]];
    cbn [fst snd] in *; [|done].
  split; [by apply kernel_ok_occupancy|done].
Qed.

Lemma wf_Vehicle_init counter now vt start goal :
  well_formed_vehicle (Vehicle_init counter now vt start goal : Vehicle Q).
Proof.
  pose proof (SPEED_MULTIPLIERS_exact vt).
  unfold Vehicle_init. wf_unfold. repeat split; cbn; lra.
Qed.

Lemma add_vehicle_vehicles (v : Vehicle Q) (m : VehicleManager Q) :
  vehicles (add_vehicle v m).1 = <[veh_id v := v]> (vehicles m).
Proof. unfold add_vehicle. by destruct (bool_decide _). Qed.

Lemma spawn_vehicle_ok d now vt start goal c (s : MultiVehicleSimulator Q A) :
  kernel_ok s → kernel_ok (spawn_vehicle a_star d now vt start goal c s).1.2.
Proof.
  intros Hok. unfold spawn_vehicle.
  destruct (choice (draw_start d) _) as [drawn|]; [|done].
  assert (∀ g,
    kernel_ok
      (let counter := S c in
       let vehicle := Vehicle_init counter now vt (default drawn start) g in
       let '(new_path, cost) :=
         a_star (graph s) (heuristic_coords s) (traffic_multipliers s)
                (default drawn start) g (value vt) in
       match new_path with
       | [] => (counter, s, None)
       | _ :: _ =>
           let vehicle := set_path new_path cost vehicle in
           let s := with_vehicle_manager (add_vehicle vehicle (vehicle_manager s)).1 s in
           (counter, with_total_spawned (S (total_spawned s)) s, Some vehicle)
       end).1.2) as Hbody.
  { intros g. cbn zeta.
    destruct (a_star _ _ _ _ _ _) as [[|x p] cost]; [done|].
    destruct Hok as [Hw Hl]. split; [|done]. intros vid v.
    cbn [fst snd vehicle_manager with_vehicle_manager with_total_spawned].
    rewrite add_vehicle_vehicles.
    set (new := set_path _ _ _).
    assert (well_formed_vehicle new) as Hnew by apply wf_set_path, wf_Vehicle_init.
    clearbody new.
    destruct (decide (veh_id new = vid)) as [->|Hne].
    - rewrite lookup_insert_eq. by intros [= <-].
    - rewrite lookup_insert_ne by done. apply Hw. }
  destruct goal as [g|]; [apply Hbody|].
  destruct (choice (draw_goal d) _) as [g|]; [apply Hbody|done].
Qed.

Lemma reset_simulation_ok (s : MultiVehicleSimulator Q A) :
  kernel_ok s → kernel_ok (reset_simulation s).2.
Proof.
  intros [Hw Hl]. split; [|done]. intros vid v. cbn. by rewrite lookup_empty.
Qed.

Lemma kernel_step_ok c (st : nat * MultiVehicleSimulator Q A) :
  tick_after c st.2 → kernel_ok st.2 →
  kernel_ok (kernel_step a_star update_traffic_multipliers
                         get_congestion_probability c st).2.
Proof.
  intros Hclock Hok. destruct c; cbn [kernel_step snd].
  - by apply spawn_vehicle_ok.
  - by apply simulation_tick_ok.
  - eapply kernel_ok_same_fleet; [apply create_accident_same_fleet|done].
  - eapply kernel_ok_same_fleet; [apply resolve_accident_same_fleet|done].
  - eapply kernel_ok_same_fleet; [apply block_road_same_fleet|done].
  - eapply kernel_ok_same_fleet; [apply unblock_road_same_fleet|done].
  - by apply reset_simulation_ok.
Qed.

Lemma kernel_run_ok cs (st : nat * MultiVehicleSimulator Q A) :
  clock_monotone a_star update_traffic_multipliers get_congestion_probability cs st →
  kernel_ok st.2 →
  kernel_ok (kernel_run a_star update_traffic_multipliers
                        get_congestion_probability cs st).2.
Proof.
  revert st. induction cs as [|c cs IH]; intros st Hclock Hok; [done|].
  destruct Hclock as [Hc Hcs]. cbn. apply IH; [done|]. by apply kernel_step_ok.
Qed.

(** The edge lengths cached at construction are at least 50. *)
Lemma calculate_edge_lengths_bound pow_half (s : MultiVehicleSimulator Q A) :
  (∀ e L, edge_lengths s !! e = Some L → (50 <= L)%Q) →
  ∀ e L, edge_lengths (_calculate_edge_lengths pow_half s) !! e = Some L → (50 <= L)%Q.
Proof.
  unfold _calculate_edge_lengths. cbn.
  generalize (edge_lengths s) as el. generalize (map_to_list (graph s)) as l.
  induction l as [|entry l IH]; intros el Hel; cbn [foldl]; [done|].
  apply IH. destruct (heuristic_coords s !! entry.1) as [[x1 y1]|]; [|done].
  generalize dependent el. generalize (entry.2) as tos.
  induction tos as [|t tos IHt]; intros el Hel; cbn [foldl]; [done|].
  apply IHt. destruct (heuristic_coords s !! t) as [[x2 y2]|]; [|done].
  intros e L. destruct (decide ((entry.1, t) = e)) as [<-|Hne].
  - rewrite lookup_insert_eq. intros [= <-]. unfold pymax. exact_cases; cbn in *; lra.
  - rewrite lookup_insert_ne by done. apply Hel.
Qed.

Lemma init_ok pow_half g coords (analyzer : A) now hotspots :
  kernel_ok (MultiVehicleSimulator_init pow_half g coords analyzer now hotspots).
Proof.
  split.
  - intros vid v. cbn. by rewrite lookup_empty.
  - apply calculate_edge_lengths_bound. intros e L. cbn. by rewrite lookup_empty.
Qed.


End Bounds.

(** C7, at a concrete input: the car on the route [A, B, D], at rest
    with target speed 30, over a tenth of a second: the speed goes to
    0.15. *)
Lemma update_position_two_stage_witness :
  (current_speed (update_position (1 # 10)%Q 100%Q DQ.route_car).1 == 15 # 100)%Q.
Proof.
  destruct (proj2 update_position_two_stage DQ.route_car (1 # 10)%Q 100%Q)
    as (Hslew & _).
  - vm_compute. discriminate.
  - vm_compute. discriminate.
  - left. reflexivity.
  - rewrite Hslew. vm_compute. reflexivity.
Defined.

(** C7 as stated fails where the function has no guard: with a negative
    time step the speed of the car at rest moves away from its target of
    30, to -0.1875, and with an edge length of zero the call raises.  In
    binary64 the bound on the step fails as well: from speed 1.0 with
    [acceleration * dt = 1.5 * 2^-53] the speed goes up by [2^-52]. *)
Lemma update_position_unguarded_counterexample :
  status D64.route_car = MOVING ∧
  current_speed D64.route_car = 0%float ∧
  target_speed D64.route_car = 30%float ∧
  current_speed (update_position (-0.125)%float 100%float D64.route_car).1
    = (-0.1875)%float ∧
  (update_position 0.125%float 0%float D64.route_car).2 = Raise ZeroDivisionError ∧
  PrimFloat.mul (acceleration D64.route_car) 0x1p-53 = 0x1.8p-53%float ∧
  PrimFloat.sub
    (current_speed
       (update_position 0x1p-53%float 100%float
          (with_current_speed 1%float D64.route_car)).1)
    1 = 0x1p-52%float ∧
  PrimFloat.leb 0x1p-52 0x1.8p-53 = false.
Proof. by vm_compute. Qed.




(** * Further properties of the code *)

(** ** The look-ahead window *)

Section Window.
Context {F : Type} `{!Number F}.

Lemma omap_all_some {X Y} (f : X → option Y) (g : X → Y) (l : list X) :
  (∀ x, x ∈ l → f x = Some (g x)) → omap f l = g <$> l.
Proof.
  induction l as [|x l IH]; intros Hf; [done|]. cbn.
  rewrite (Hf x) by apply list_elem_of_here. cbn.
  rewrite IH; [done|]. intros y Hy. apply Hf. by apply list_elem_of_further.
Qed.

Lemma upcoming_edges_fmap (v : Vehicle F) :
  upcoming_edges v =
    (λ i, (default "" (path v !! i), default "" (path v !! S i)))
      <$> seq (path_index v) (window_size v).
Proof.
  unfold upcoming_edges, window_size.
  replace (Nat.min (path_index v + 3) (List.length (path v) - 1) - path_index v)
    with (Nat.min 3 (List.length (path v) - 1 - path_index v)) by lia.
  apply omap_all_some. intros i Hi. apply elem_of_seq in Hi.
  destruct (lookup_lt_is_Some_2 (path v) i) as [a Ha]; [lia|].
  destruct (lookup_lt_is_Some_2 (path v) (S i)) as [b Hb]; [lia|].
  by rewrite Ha, Hb.
Qed.

Lemma upcoming_edges_lookup (v : Vehicle F) k a b :
  upcoming_edges v !! k = Some (a, b) ↔
  (k < 3)%nat ∧ path v !! (path_index v + k)%nat = Some a ∧
  path v !! S (path_index v + k) = Some b.
Proof.
  rewrite upcoming_edges_fmap, list_lookup_fmap. unfold window_size. split.
  - intros Hk. destruct (seq _ _ !! k) as [i|] eqn:Hi; [|done].
    apply lookup_seq in Hi as [-> Hlt]. cbn in Hk.
    destruct (lookup_lt_is_Some_2 (path v) (path_index v + k)) as [a' Ha]; [lia|].
    destruct (lookup_lt_is_Some_2 (path v) (S (path_index v + k))) as [b' Hb]; [lia|].
    rewrite Ha, Hb in Hk. cbn in Hk. simplify_eq. split; [lia|done].
  - intros (Hk & Ha & Hb).
    pose proof (lookup_lt_Some _ _ _ Hb) as Hlen.
    rewrite (lookup_seq_lt _ _ k) by lia. cbn. by rewrite Ha, Hb.
Qed.

(** X1: the window of [_should_reroute] holds the path edges that start at
    [path_index], [path_index + 1] and [path_index + 2], as far as the
    path goes: at most three, none for an agent on its last node. *)
Theorem upcoming_edges_window (v : Vehicle F) :
  List.length (upcoming_edges v)
    = Nat.min 3 (List.length (path v) - 1 - path_index v) ∧
  ∀ k a b, upcoming_edges v !! k = Some (a, b) ↔
           (k < 3)%nat ∧ path v !! (path_index v + k)%nat = Some a ∧
           path v !! S (path_index v + k) = Some b.
Proof.
  split.
  - rewrite upcoming_edges_fmap. by rewrite length_fmap, length_seq.
  - apply upcoming_edges_lookup.
Qed.

End Window.

(** ** What the first loop does not do *)

Section FirstPassMore.
Context {F : Type} `{!Number F} {A : Type}.
Variable a_star :
  gmap string (list string) → gmap string (F * F) → gmap Edge F →
  string → string → string → list string * F.
Variable get_congestion_probability :
  A → VehicleManager F → string → string → F.

(** The search for a vehicle ahead finds none: it looks the vehicles of
    the edge up in [self.vehicles] by the objects themselves, not by their
    ids. *)
Lemma find_ahead_none (s : MultiVehicleSimulator F A) (v : Vehicle F) (edge : Edge) :
  find_ahead s v edge = None.
Proof.
  unfold find_ahead.
  induction (get_vehicles_on_edge edge.1 edge.2 (vehicle_manager s)) as [|w l IH]
    using rev_ind; [done|].
  rewrite foldl_app. cbn. exact IH.
Qed.

(** X2: on an edge that is not blocked the first loop applies the congestion
    speed control, whether or not other vehicles are ahead on the edge:
    [slow_down_for_vehicle_ahead] is never reached. *)
Theorem first_pass_never_follows (s : MultiVehicleSimulator F A) (v : Vehicle F) :
  status v ≠ ARRIVED → truthy (next_node v) = true →
  blocked_roads s !! (current_node v, default "" (next_node v)) = None →
  first_pass_vehicle a_star get_congestion_probability s v
    = congestion_speed_control s v (current_node v, default "" (next_node v)).
Proof.
  intros Hst Hnext Hnb. unfold first_pass_vehicle.
  rewrite (bool_decide_eq_false_2 _ Hst), Hnext. cbn [orb negb].
  rewrite bool_decide_eq_false_2; [|rewrite Hnb; by intros [? ?]].
  by rewrite find_ahead_none.
Qed.

Lemma cursor_edge_in_window (v : Vehicle F) :
  cursor_on_path v → truthy (next_node v) = true →
  (current_node v, default "" (next_node v)) ∈ upcoming_edges v.
Proof.
  intros [Hc Hn] Hnext.
  destruct (next_node v) as [n|] eqn:Hnn; [|done]. cbn.
  apply list_elem_of_lookup. exists 0.
  apply upcoming_edges_lookup.
  rewrite Nat.add_0_r. split; [lia|done].
Qed.

(** X3: an agent whose cursor agrees with its path and whose current edge is
    blocked is handed to the reroute procedure; when the router has no
    other route for it, the first loop leaves the agent as it is: it is
    neither stopped nor marked Stuck. *)
Theorem blocked_without_detour_unchanged (s : MultiVehicleSimulator F A) (v : Vehicle F) :
  status v ≠ ARRIVED → truthy (next_node v) = true → cursor_on_path v →
  is_Some (blocked_roads s !! (current_node v, default "" (next_node v))) →
  first_pass_vehicle a_star get_congestion_probability s v = _reroute_vehicle a_star s v ∧
  (routed a_star s v = [] ∨ routed a_star s v = drop (path_index v) (path v) →
   first_pass_vehicle a_star get_congestion_probability s v = v).
Proof.
  intros Hst Hnext Hcur Hblk.
  assert (first_pass_vehicle a_star get_congestion_probability s v
          = _reroute_vehicle a_star s v) as Hfp.
  { apply (first_pass_vehicle_gate a_star get_congestion_probability s v Hst Hnext);
      [done|].
    eapply should_reroute_blocked; [by apply cursor_edge_in_window|done]. }
  split; [done|]. intros Hr. rewrite Hfp. by apply reroute_vehicle_keep.
Qed.

End FirstPassMore.

(** At a concrete input: the second car of the diamond is a tenth of a
    pixel behind the first on [A → B]; the first loop gives it the speed
    control of a free road. *)
Lemma first_pass_never_follows_witness :
  ∃ c1 c2,
    D64.car Cases.two_cars = Some c1 ∧ Cases.car_2 Cases.two_cars = Some c2 ∧
    veh_id <$> get_vehicles_on_edge "A" "B" (vehicle_manager Cases.two_cars)
      = ["car_1"; "car_2"] ∧
    PrimFloat.ltb (position_on_edge c2) (position_on_edge c1) = true ∧
    first_pass_vehicle D64.a_star D64.get_congestion_probability Cases.two_cars c2
      = congestion_speed_control Cases.two_cars c2 ("A", "B").
Proof.
  eexists. eexists.
  split; [vm_compute; reflexivity|]. split; [vm_compute; reflexivity|].
  split; [vm_compute; reflexivity|]. split; [vm_compute; reflexivity|].
  apply (first_pass_never_follows D64.a_star D64.get_congestion_probability
           Cases.two_cars).
  - discriminate.
  - vm_compute. reflexivity.
  - vm_compute. reflexivity.
Defined.

(** At a concrete input: with both edges out of [A] blocked the router
    returns the route the car is on, and the car keeps its target speed of
    30 on the blocked edge. *)
Lemma blocked_without_detour_unchanged_witness :
  first_pass_vehicle D64.a_star D64.get_congestion_probability Cases.sim_no_detour
    D64.route_car = D64.route_car.
Proof.
  apply (blocked_without_detour_unchanged D64.a_star D64.get_congestion_probability
           Cases.sim_no_detour D64.route_car).
  - discriminate.
  - vm_compute. reflexivity.
  - vm_compute. by split.
  - vm_compute. eauto.
  - right. vm_compute. reflexivity.
Defined.

(** ** The registry *)

#[local] Set Warnings "-clear-no-such-hyp".

Section Registry.
Context {F : Type} `{!Number F}.

Lemma list_remove_other (x y : string) (l : list string) :
  x ≠ y → (y ∈ list_remove x l ↔ y ∈ l).
Proof.
  intros Hne. induction l as [|z l IH]; cbn; [done|].
  destruct (String.eqb_spec x z) as [->|Hxz].
  - rewrite elem_of_cons. naive_solver.
  - rewrite !elem_of_cons, IH. done.
Qed.

Lemma list_remove_NoDup (x : string) (l : list string) :
  NoDup l → x ∉ list_remove x l.
Proof.
  induction 1 as [|z l Hz Hnd IH]; cbn; [apply not_elem_of_nil|].
  destruct (String.eqb_spec x z) as [->|Hxz]; [done|].
  rewrite not_elem_of_cons. done.
Qed.

(** X4: [remove_vehicle] on an id that is not registered changes nothing and
    returns false; on a registered id it returns true, the id is neither
    registered nor active afterwards, every other vehicle stays as it is,
    and the id is gone from every occupancy list in which it stood once. *)
Theorem remove_vehicle_effect (vid : string) (m : VehicleManager F) :
  (vehicles m !! vid = None → remove_vehicle vid m = (m, false)) ∧
  (is_Some (vehicles m !! vid) →
     (remove_vehicle vid m).2 = true ∧
     vehicles (remove_vehicle vid m).1 !! vid = None ∧
     (vid ∉ active_vehicles (remove_vehicle vid m).1) ∧
     (∀ other, other ≠ vid →
        (vehicles (remove_vehicle vid m).1 !! other = vehicles m !! other ∧
         (other ∈ active_vehicles (remove_vehicle vid m).1 ↔
          other ∈ active_vehicles m))) ∧
     (∀ e l, edge_occupancy m !! e = Some l →
        edge_occupancy (remove_vehicle vid m).1 !! e = Some (list_remove vid l) ∧
        (NoDup l → vid ∉ list_remove vid l) ∧
        (∀ other, other ≠ vid → (other ∈ list_remove vid l ↔ other ∈ l)))).
Proof.
  unfold remove_vehicle. split.
  - by intros ->.
  - intros [v ->]. cbn. split; [done|]. split; [by rewrite lookup_delete_eq|].
    split; [set_solver|]. split.
    + intros other Hne. rewrite lookup_delete_ne by done. split; [done|set_solver].
    + intros e l He. rewrite lookup_fmap, He. split; [done|]. split.
      * apply list_remove_NoDup.
      * intros other Hne. by apply list_remove_other.
Qed.

(** The registry operations keep the active set equal to the registered
    vehicles that have not arrived. *)
Lemma add_vehicle_consistent (v : Vehicle F) (m : VehicleManager F) :
  registry_consistent m → status v ≠ ARRIVED →
  registry_consistent (add_vehicle v m).1.
Proof.
  intros Hm Hst vid. unfold add_vehicle.
  rewrite (bool_decide_eq_true_2 _ Hst). cbn.
  destruct (decide (veh_id v = vid)) as [<-|Hne].
  - rewrite lookup_insert_eq. split; [|set_solver]. intros _. by exists v.
  - rewrite lookup_insert_ne by done. rewrite <- (Hm vid). set_solver.
Qed.

Lemma remove_vehicle_consistent (x : string) (m : VehicleManager F) :
  registry_consistent m → registry_consistent (remove_vehicle x m).1.
Proof.
  intros Hm vid. unfold remove_vehicle.
  destruct (vehicles m !! x) as [w|] eqn:Hx; [|apply Hm]. cbn.
  destruct (decide (x = vid)) as [<-|Hne].
  - rewrite lookup_delete_eq. split; [set_solver|]. by intros (? & ? & _).
  - rewrite lookup_delete_ne by done. rewrite <- (Hm vid). set_solver.
Qed.

Lemma mark_vehicle_arrived_consistent (x : string) (m : VehicleManager F) :
  registry_consistent m → registry_consistent (mark_vehicle_arrived x m).
Proof.
  intros Hm vid. unfold mark_vehicle_arrived.
  case_bool_decide as Hin; [|apply Hm]. cbn.
  destruct (vehicles m !! x) as [w|] eqn:Hx; cbn.
  - destruct (decide (x = vid)) as [<-|Hne].
    + rewrite lookup_insert_eq. split; [set_solver|].
      intros (? & [= <-] & Hst). by cbn in Hst.
    + rewrite lookup_insert_ne by done. rewrite <- (Hm vid). set_solver.
  - apply Hm in Hin as (? & ? & _). congruence.
Qed.

Lemma clear_fold_consistent (ids : list string) (m : VehicleManager F) :
  registry_consistent m →
  registry_consistent (foldl (λ m vid, (remove_vehicle vid m).1) m ids).
Proof.
  revert m. induction ids as [|x ids IH]; intros m Hm; cbn; [done|].
  by apply IH, remove_vehicle_consistent.
Qed.

(** X5: the operations of the registry keep the active set in step with
    it: if the active set holds the registered vehicles that have not
    arrived, it does so after [add_vehicle] of a vehicle that has not
    arrived, [remove_vehicle], [mark_vehicle_arrived],
    [clear_arrived_vehicles] and [reset]. *)
Theorem registry_consistent_kept (m : VehicleManager F) :
  registry_consistent m →
  (∀ v, status v ≠ ARRIVED → registry_consistent (add_vehicle v m).1) ∧
  (∀ vid, registry_consistent (remove_vehicle vid m).1) ∧
  (∀ vid, registry_consistent (mark_vehicle_arrived vid m)) ∧
  registry_consistent (clear_arrived_vehicles m) ∧
  registry_consistent (reset m).2.
Proof.
  intros Hm. split; [|split; [|split; [|split]]].
  - intros v Hst. by apply add_vehicle_consistent.
  - intros vid. by apply remove_vehicle_consistent.
  - intros vid. by apply mark_vehicle_arrived_consistent.
  - by apply clear_fold_consistent.
  - intros vid. cbn. rewrite lookup_empty. split; [set_solver|]. by intros (? & ? & _).
Qed.

Lemma clear_fold_lookup (ids : list string) (m : VehicleManager F) (vid : string) :
  vehicles (foldl (λ m x, (remove_vehicle x m).1) m ids) !! vid
    = if decide (vid ∈ ids) then None else vehicles m !! vid.
Proof.
  revert m. induction ids as [|x ids IH]; intros m; cbn.
  - by rewrite decide_False by apply not_elem_of_nil.
  - rewrite IH. unfold remove_vehicle.
    destruct (decide (vid ∈ ids)) as [Hin|Hnin].
    + by rewrite decide_True by (by apply list_elem_of_further).
    + destruct (decide (vid = x)) as [->|Hne].
      * rewrite decide_True by apply list_elem_of_here.
        destruct (vehicles m !! x) eqn:Hx; cbn; [by rewrite lookup_delete_eq|done].
      * rewrite decide_False by (rewrite elem_of_cons; tauto).
        destruct (vehicles m !! x) eqn:Hx; cbn; [by rewrite lookup_delete_ne|done].
Qed.

(** X6: [clear_arrived_vehicles] removes exactly the vehicles whose status is
    Arrived: none of them is registered afterwards, and every other
    vehicle is registered as before. *)
Theorem clear_arrived_vehicles_lookup (m : VehicleManager F) (vid : string) :
  vehicles (clear_arrived_vehicles m) !! vid
    = match vehicles m !! vid with
      | Some v => if decide (status v = ARRIVED) then None else Some v
      | None => None
      end.
Proof.
  unfold clear_arrived_vehicles. rewrite clear_fold_lookup.
  destruct (vehicles m !! vid) as [v|] eqn:Hv.
  - destruct (decide (status v = ARRIVED)) as [Hst|Hst].
    + rewrite decide_True; [done|].
      apply list_elem_of_fmap. exists (vid, v). split; [done|].
      apply list_elem_of_filter. split; [done|]. by apply elem_of_map_to_list.
    + rewrite decide_False; [done|].
      intros Hin. apply list_elem_of_fmap in Hin as ([k w] & -> & Hin).
      apply list_elem_of_filter in Hin as [Hw Hin].
      apply elem_of_map_to_list in Hin. cbn in *. congruence.
  - by destruct (decide _).
Qed.

Lemma occupancy_fold (l : list (Vehicle F)) (occ : gmap Edge (list string)) e x :
  x ∈ default [] (foldl (λ (occ : gmap Edge (list string)) v,
                           match get_current_edge v return gmap Edge (list string) with
                           | Some edge =>
                               <[edge := (default [] (occ !! edge) ++ [veh_id v])%list]> occ
                           | None => occ
                           end) occ l !! e) ↔
  x ∈ default [] (occ !! e) ∨
  ∃ v, v ∈ l ∧ veh_id v = x ∧ get_current_edge v = Some e.
Proof.
  revert occ. induction l as [|w l IH]; intros occ; cbn [foldl].
  - split; [by left|]. intros [?|(? & Hin & _)]; [done|]. by apply elem_of_nil in Hin.
  - rewrite IH. destruct (get_current_edge w) as [edge|] eqn:Hw.
    + destruct (decide (edge = e)) as [->|Hne].
      * rewrite lookup_insert_eq. cbn. rewrite elem_of_app, list_elem_of_singleton.
        split.
        -- intros [[? | ->] | (v & Hin & ? & ?)]; [by left| |].
           ++ right. exists w. split; [apply list_elem_of_here|done].
           ++ right. exists v. split; [by apply list_elem_of_further|done].
        -- intros [?|(v & Hin & Hid & He)]; [by left; left|].
           apply elem_of_cons in Hin as [->|Hin]; [left; right; congruence|].
           right. by exists v.
      * rewrite lookup_insert_ne by done. split.
        -- intros [?|(v & Hin & ? & ?)]; [by left|].
           right. exists v. split; [by apply list_elem_of_further|done].
        -- intros [?|(v & Hin & Hid & He)]; [by left|].
           apply elem_of_cons in Hin as [->|Hin]; [congruence|].
           right. by exists v.
    + split.
      * intros [?|(v & Hin & ? & ?)]; [by left|].
        right. exists v. split; [by apply list_elem_of_further|done].
      * intros [?|(v & Hin & Hid & He)]; [by left|].
        apply elem_of_cons in Hin as [->|Hin]; [congruence|].
        right. by exists v.
Qed.

(** X7: after [update_edge_occupancy] the list of an edge holds exactly the
    ids of the registered active vehicles whose current edge it is;
    whatever the map held before is gone. *)
Theorem update_edge_occupancy_members (m : VehicleManager F) (e : Edge) (x : string) :
  x ∈ default [] (edge_occupancy (update_edge_occupancy m) !! e) ↔
  ∃ vid v, vid ∈ active_vehicles m ∧ vehicles m !! vid = Some v ∧
           veh_id v = x ∧ get_current_edge v = Some e.
Proof.
  unfold update_edge_occupancy. cbn. rewrite occupancy_fold, lookup_empty. cbn.
  unfold get_active_vehicles. split.
  - intros [Hin|(v & Hin & Hid & He)]; [by apply elem_of_nil in Hin|].
    apply list_elem_of_omap in Hin as (vid & Hvid & Hv).
    exists vid, v. by rewrite <- elem_of_elements.
  - intros (vid & v & Hvid & Hv & Hid & He). right. exists v. split; [|done].
    apply list_elem_of_omap. exists vid. by rewrite elem_of_elements.
Qed.

End Registry.

(** At a concrete input: the empty registry, to which the car of the
    diamond is added. *)
Lemma registry_consistent_kept_witness :
  registry_consistent (add_vehicle D64.route_car VehicleManager_init).1.
Proof.
  destruct (registry_consistent_kept (VehicleManager_init (F:=float))) as [Hadd _].
  - intros vid. cbn. rewrite lookup_empty. split; [set_solver|]. by intros (? & ? & _).
  - apply Hadd. discriminate.
Defined.

(** ** What a tick leaves alone *)

Section TickFrame.
Context {F : Type} `{!Number F} {A : Type}.
Variable a_star :
  gmap string (list string) → gmap string (F * F) → gmap Edge F →
  string → string → string → list string * F.
Variable update_traffic_multipliers :
  A → VehicleManager F → gmap Edge F → A * gmap Edge F.
Variable get_congestion_probability :
  A → VehicleManager F → string → string → F.

Lemma same_keys_trans vid v (s1 s2 s3 : MultiVehicleSimulator F A) :
  same_keys vid v s1 s2 → same_keys vid v s2 s3 → same_keys vid v s1 s3.
Proof. intros (? & ? & ?) (? & ? & ?). split; [congruence|]. split; [congruence|done]. Qed.

Lemma same_keys_manager vid v (s s' : MultiVehicleSimulator F A) :
  vehicle_manager s' = vehicle_manager s →
  (∀ w, v = Some w → vehicles (vehicle_manager s) !! vid = Some w) →
  same_keys vid v s s'.
Proof. intros Hm Hv. unfold same_keys. rewrite Hm. done. Qed.

Lemma create_accident_manager d from_node to_node (s : MultiVehicleSimulator F A) :
  vehicle_manager (create_accident d from_node to_node s).1 = vehicle_manager s.
Proof.
  assert (∀ u v, vehicle_manager (record_accident d u v s).1 = vehicle_manager s) as Hrec.
  { intros u v. unfold record_accident. cbn.
    by destruct (traffic_multipliers s !! (u, v)). }
  unfold create_accident.
  destruct from_node, to_node; try apply Hrec;
    repeat (match goal with
            | |- context [match choice ?n ?l with _ => _ end] => destruct (choice n l)
            end); try apply Hrec; done.
Qed.

Lemma resolve_accident_manager accident_id (s : MultiVehicleSimulator F A) :
  vehicle_manager (resolve_accident accident_id s).1 = vehicle_manager s.
Proof.
  unfold resolve_accident.
  destruct (alist_lookup _ _) as [acc|]; [|done].
  by destruct (traffic_multipliers s !! _).
Qed.

Lemma resolve_expired_manager now ids (s : MultiVehicleSimulator F A) :
  vehicle_manager (resolve_expired now ids s).1 = vehicle_manager s.
Proof.
  revert s. induction ids as [|x ids IH]; intros s; cbn [resolve_expired]; [done|].
  destruct (alist_lookup x (accidents s)) as [acc|]; [|done].
  destruct (num_ltb _ _); [|apply IH].
  pose proof (resolve_accident_manager x s) as Hr.
  destruct (resolve_accident x s) as [s1 [b|e]]; cbn [fst] in *; [|done].
  rewrite IH. done.
Qed.

Lemma skipped_first_pass_vehicle (s : MultiVehicleSimulator F A) (v : Vehicle F) :
  status v = ARRIVED ∨ truthy (next_node v) = false →
  first_pass_vehicle a_star get_congestion_probability s v = v.
Proof.
  intros Hs. unfold first_pass_vehicle.
  destruct Hs as [-> | ->]; [done|]. by rewrite orb_true_r.
Qed.

Lemma skipped_second_pass_vehicle dt now (s : MultiVehicleSimulator F A) (v : Vehicle F) :
  status v = ARRIVED ∨ truthy (next_node v) = false →
  second_pass_vehicle dt now s v = (v, Ok (false, false)).
Proof.
  intros Hs. unfold second_pass_vehicle.
  destruct Hs as [-> | ->]; [done|]. by rewrite orb_true_r.
Qed.

Lemma store_vehicle_same_keys x w vid v (s : MultiVehicleSimulator F A) :
  is_Some (vehicles (vehicle_manager s) !! x) →
  (∀ u, v = Some u → vehicles (vehicle_manager s) !! vid = Some u) →
  (x = vid → ∀ u, v = Some u → w = u) →
  same_keys vid v s (store_vehicle x w s).
Proof.
  intros Hx Hv Hw. split; [|split; [done|]].
  - cbn. rewrite dom_insert_L. apply elem_of_dom in Hx. set_solver.
  - intros u Hu. cbn. destruct (decide (x = vid)) as [->|Hne].
    + rewrite lookup_insert_eq. f_equal. by apply Hw.
    + rewrite lookup_insert_ne by done. by apply Hv.
Qed.

Lemma first_pass_same_keys ids vid v (s : MultiVehicleSimulator F A) :
  (∀ u, v = Some u → vehicles (vehicle_manager s) !! vid = Some u ∧
                     (vid ∉ ids ∨ status u = ARRIVED ∨ truthy (next_node u) = false)) →
  same_keys vid v s (first_pass a_star get_congestion_probability ids s).
Proof.
  revert s. induction ids as [|x ids IH]; intros s Hv; cbn [first_pass foldl].
  - apply same_keys_manager; [done|]. intros u Hu. by apply Hv.
  - destruct (vehicles (vehicle_manager s) !! x) as [w|] eqn:Hx.
    + eapply same_keys_trans; [|apply IH].
      * apply store_vehicle_same_keys; [by rewrite Hx|intros u Hu; by apply Hv|].
        intros -> u Hu. destruct (Hv u Hu) as [Hl Hs]. rewrite Hx in Hl. simplify_eq.
        apply skipped_first_pass_vehicle.
        destruct Hs as [Hn|Hs]; [|done]. exfalso. apply Hn, list_elem_of_here.
      * intros u Hu. destruct (Hv u Hu) as [Hl Hs]. split.
        -- cbn. destruct (decide (x = vid)) as [->|Hne].
           ++ rewrite lookup_insert_eq. f_equal. rewrite Hx in Hl. simplify_eq.
              apply skipped_first_pass_vehicle.
              destruct Hs as [Hn|Hs]; [|done]. exfalso. apply Hn, list_elem_of_here.
           ++ by rewrite lookup_insert_ne.
        -- destruct Hs as [Hn|Hs]; [|by right]. left.
           intros Hin. apply Hn. by apply list_elem_of_further.
    + apply IH. intros u Hu. destruct (Hv u Hu) as [Hl Hs]. split; [done|].
      destruct Hs as [Hn|Hs]; [|by right]. left.
      intros Hin. apply Hn. by apply list_elem_of_further.
Qed.

Lemma second_pass_same_keys dt clock ids moved arrived vid v
    (s : MultiVehicleSimulator F A) :
  (∀ u, v = Some u → vehicles (vehicle_manager s) !! vid = Some u ∧
                     (vid ∉ ids ∨ status u = ARRIVED ∨ truthy (next_node u) = false)) →
  same_keys vid v s (second_pass dt clock ids moved arrived s).1.
Proof.
  revert s moved arrived.
  induction ids as [|x ids IH]; intros s moved arrived Hv; cbn [second_pass].
  - apply same_keys_manager; [done|]. intros u Hu. by apply Hv.
  - destruct (vehicles (vehicle_manager s) !! x) as [w|] eqn:Hx.
    + assert (x = vid → ∀ u, v = Some u →
              second_pass_vehicle dt (clock x) s w = (u, Ok (false, false))) as Hskip.
      { intros -> u Hu. destruct (Hv u Hu) as [Hl Hs]. rewrite Hx in Hl. simplify_eq.
        apply skipped_second_pass_vehicle.
        destruct Hs as [Hn|Hs]; [|done]. exfalso. apply Hn, list_elem_of_here. }
      destruct (second_pass_vehicle dt (clock x) s w) as [w' r] eqn:Hw.
      assert (same_keys vid v s (store_vehicle x w' s)) as Hstore.
      { apply store_vehicle_same_keys; [by rewrite Hx|intros u Hu; by apply Hv|].
        intros Heq u Hu. specialize (Hskip Heq u Hu). by simplify_eq. }
      destruct r as [[m a]|e]; cbn [fst]; [|done].
      eapply same_keys_trans; [exact Hstore|apply IH].
      intros u Hu. destruct (Hv u Hu) as [Hl Hs]. split.
      * by apply Hstore.
      * destruct Hs as [Hn|Hs]; [|by right]. left.
        intros Hin. apply Hn. by apply list_elem_of_further.
    + apply IH. intros u Hu. destruct (Hv u Hu) as [Hl Hs]. split; [done|].
      destruct Hs as [Hn|Hs]; [|by right]. left.
      intros Hin. apply Hn. by apply list_elem_of_further.
Qed.

Lemma active_ids_elem (m : VehicleManager F) vid :
  vid ∈ active_ids m → vid ∈ active_vehicles m.
Proof.
  unfold active_ids. intros Hin. apply list_elem_of_filter in Hin as [_ Hin].
  by apply elem_of_elements.
Qed.

(** X8: a tick registers and removes no vehicle and leaves the active set as
    it is, so an agent that arrives during a tick is still active after
    it; and it does not touch a vehicle that is not active, has arrived or
    has no next node. *)
Theorem simulation_tick_frame inp (s : MultiVehicleSimulator F A) :
  dom (vehicles (vehicle_manager
         (simulation_tick a_star update_traffic_multipliers
                          get_congestion_probability inp s).1))
    = dom (vehicles (vehicle_manager s)) ∧
  active_vehicles (vehicle_manager
      (simulation_tick a_star update_traffic_multipliers
                       get_congestion_probability inp s).1)
    = active_vehicles (vehicle_manager s) ∧
  ∀ vid v, vehicles (vehicle_manager s) !! vid = Some v →
           vid ∉ active_vehicles (vehicle_manager s) ∨ status v = ARRIVED ∨
           truthy (next_node v) = false →
           vehicles (vehicle_manager
               (simulation_tick a_star update_traffic_multipliers
                                get_congestion_probability inp s).1) !! vid = Some v.
Proof.
  assert (∀ vid v,
    (∀ u, v = Some u → vehicles (vehicle_manager s) !! vid = Some u ∧
          (vid ∉ active_vehicles (vehicle_manager s) ∨ status u = ARRIVED ∨
           truthy (next_node u) = false)) →
    same_keys vid v s
      (simulation_tick a_star update_traffic_multipliers
                       get_congestion_probability inp s).1) as Hkeys.
  { intros vid v Hv. unfold simulation_tick.
    set (s0 := with_simulation_step _ _).
    assert (vehicle_manager s0 = vehicle_manager s) as Hs0 by done.
    clearbody s0.
    set (c := if num_ltb _ _ then _ else _).
    assert (vehicle_manager c.1 = vehicle_manager s) as Hc.
    { subst c. destruct (num_ltb _ _); [|done].
      by rewrite create_accident_manager. }
    destruct c as [s1 [o|e]]; cbn [fst] in Hc.
    2:{ apply same_keys_manager; [done|]. intros u Hu. by apply Hv. }
    pose proof (resolve_expired_manager (tick_time inp) (accidents s1).*1 s1) as Hr.
    destruct (resolve_expired _ _ s1) as [s2 [[]|e]]; cbn [fst] in Hr.
    2:{ apply same_keys_manager; [cbn [fst]; congruence|]. intros u Hu. by apply Hv. }
    destruct (update_traffic_multipliers _ _ _) as [an tm].
    set (s3 := if bool_decide _ then _ else _).
    assert (vehicle_manager s3 = vehicle_manager s) as Hs3.
    { subst s3.
      case_bool_decide;
        cbn [vehicle_manager with_traffic_multipliers with_traffic_analyzer].
      all: congruence. }
    clearbody s3.
    assert (∀ u, v = Some u → vehicles (vehicle_manager s3) !! vid = Some u ∧
              (vid ∉ active_ids (vehicle_manager s3) ∨ status u = ARRIVED ∨
               truthy (next_node u) = false)) as Hv3.
    { intros u Hu. destruct (Hv u Hu) as [Hl Hs]. rewrite Hs3. split; [done|].
      destruct Hs as [Hn|Hs]; [|by right]. left.
      intros Hin. by apply Hn, active_ids_elem. }
    set (ids := active_ids _) in *. clearbody ids.
    assert (same_keys vid v s3 (first_pass a_star get_congestion_probability ids s3))
      as Hfp by by apply first_pass_same_keys.
    assert (same_keys vid v (first_pass a_star get_congestion_probability ids s3)
              (second_pass
                 (pymin (num_sub (tick_time inp) (last_update_time s)) (num_lit 2 10))
                 (arrival_clock inp) ids 0 0
                 (first_pass a_star get_congestion_probability ids s3)).1) as Hsp.
    { apply second_pass_same_keys. intros u Hu. split; [by apply Hfp|].
      by apply Hv3. }
    pose proof (same_keys_trans _ _ _ _ _ Hfp Hsp) as Hall.
    destruct (second_pass _ _ ids 0 0 _) as [s4 [[moved arrived]|e]]; cbn [fst] in *.
    - destruct Hall as (Hd & Ha & Hl). unfold same_keys.
      cbn [vehicle_manager with_vehicle_manager update_edge_occupancy
           with_edge_occupancy vehicles active_vehicles].
      rewrite Hd, Ha, Hs3. done.
    - destruct Hall as (Hd & Ha & Hl). unfold same_keys. rewrite Hd, Ha, Hs3. done. }
  split; [|split].
  - by destruct (Hkeys "" None) as [? _].
  - by destruct (Hkeys "" None) as (_ & ? & _).
  - intros vid v Hv Hs.
    destruct (Hkeys vid (Some v)) as (_ & _ & Hl); [|by apply Hl].
    intros u [= <-]. done.
Qed.

End TickFrame.

(** ** Speed control, in exact arithmetic *)

Section DriftPinned.
Context {F : Type} `{!Number F}.

Lemma hotspot_drift_idle (congestion_factor : F) (uniform : nat → F) (k : nat)
    (edges : list Edge) (tm : gmap Edge F) :
  num_ltb (num_lit 3 10) congestion_factor = false →
  hotspot_drift congestion_factor uniform k edges tm = tm.
Proof.
  intros Hc. revert k. induction edges as [|x edges IH]; intros k; cbn [hotspot_drift];
    [done|].
  destruct (tm !! x); [|apply IH]. rewrite Hc. apply IH.
Qed.

Lemma hotspot_drift_other (congestion_factor : F) (uniform : nat → F) (k : nat)
    (edges : list Edge) (tm : gmap Edge F) (e : Edge) :
  e ∉ edges →
  hotspot_drift congestion_factor uniform k edges tm !! e = tm !! e.
Proof.
  revert k tm. induction edges as [|x edges IH]; intros k tm Hnin; cbn [hotspot_drift];
    [done|].
  apply not_elem_of_cons in Hnin as [Hne Hnin].
  destruct (tm !! x); [|by apply IH].
  destruct (num_ltb _ _); [|by apply IH].
  rewrite IH by done. by rewrite lookup_insert_ne.
Qed.

Lemma hotspot_drift_once (congestion_factor : F) (uniform : nat → F) (k : nat)
    (edges : list Edge) (tm : gmap Edge F) (e : Edge) (m : F) :
  num_ltb (num_lit 3 10) congestion_factor = true →
  NoDup edges → e ∈ edges → tm !! e = Some m →
  ∃ j, (k ≤ j < k + List.length edges)%nat ∧
       hotspot_drift congestion_factor uniform k edges tm !! e
       = Some (num_add
                 (num_mul m (num_lit 7 10))
                 (num_mul
                    (pymin (num_mul m (num_add (num_lit 1 1)
                                         (num_mul congestion_factor (uniform j))))
                           (num_lit 5 1))
                    (num_lit 3 10))).
Proof.
  intros Hc. revert k tm.
  induction edges as [|x edges IH]; intros k tm Hnd Hin Hm; cbn [hotspot_drift].
  - by apply elem_of_nil in Hin.
  - apply NoDup_cons in Hnd as [Hx Hnd]. cbn [List.length].
    destruct (decide (x = e)) as [->|Hne].
    + rewrite Hm, Hc. exists k. split; [lia|].
      rewrite hotspot_drift_other by done. apply lookup_insert_eq.
    + apply elem_of_cons in Hin as [?|Hin]; [done|].
      destruct (tm !! x) as [base|].
      * rewrite Hc.
        match goal with
        | |- context [hotspot_drift _ _ (S k) edges ?tm'] =>
            destruct (IH (S k) tm' Hnd Hin) as (j & Hj & Hl)
        end.
        { by rewrite lookup_insert_ne. }
        exists j. split; [lia|exact Hl].
      * destruct (IH k tm Hnd Hin Hm) as (j & Hj & Hl).
        exists j. split; [lia|exact Hl].
Qed.

End DriftPinned.

Section SpeedControl.
Context {A : Type}.

Lemma Qabs_gt_cases (x c : Q) : (c < Qabs x)%Q ↔ (x < - c ∨ c < x)%Q.
Proof.
  split.
  - intros H. destruct (Qlt_le_dec x 0) as [Hn|Hp].
    + left. rewrite Qabs_neg in H by lra. lra.
    + right. rewrite Qabs_pos in H by lra. lra.
  - intros [H|H].
    + pose proof (Qle_Qabs (- x)) as Ha. rewrite Qabs_opp in Ha. lra.
    + pose proof (Qle_Qabs x). lra.
Qed.

(** In exact arithmetic the loop keeps a multiplier on its side of 5. *)
Lemma hotspot_drift_bounds (congestion_factor : Q) (uniform : nat → Q)
    (k : nat) (edges : list Edge) (tm : gmap Edge Q) (e : Edge) (m : Q) :
  (0 <= congestion_factor)%Q → (∀ i, 0 <= uniform i)%Q →
  tm !! e = Some m → (0 <= m)%Q →
  ∃ m', hotspot_drift congestion_factor uniform k edges tm !! e = Some m' ∧
        ((m <= 5)%Q → (m <= m' <= 5)%Q) ∧
        ((5 < m)%Q → (5 < m' <= m)%Q).
Proof.
  intros Hcf Hu. revert k tm m.
  induction edges as [|x edges IH]; intros k tm m Hm Hm0; cbn [hotspot_drift].
  - exists m. split; [done|]. split; intros; lra.
  - destruct (tm !! x) as [base|] eqn:Hx; [|by apply IH].
    destruct (num_ltb (num_lit 3 10) congestion_factor) eqn:Hc; [|by apply IH].
    destruct (decide (x = e)) as [->|Hne].
    + rewrite Hm in Hx. simplify_eq.
      set (new := pymin _ _).
      assert (0 <= uniform k)%Q as Huk by apply Hu.
      assert (1 <= num_add (num_lit 1 1) (num_mul congestion_factor (uniform k)))%Q
        as Htp.
      { exact_unfold. assert (0 <= congestion_factor * uniform k)%Q
          by by apply Qmult_le_0_compat. lra. }
      set (tp := num_add _ _) in *. clearbody tp.
      assert (base <= num_mul base tp)%Q as Hbt by (exact_unfold; nra).
      assert ((base <= 5 → base <= new <= 5) ∧ (5 < base → new = 5%Q))%Q as Hnew.
      { subst new. unfold pymin. exact_cases; exact_unfold; split; intros; try lra.
        reflexivity. }
      clearbody new.
      destruct (IH (S k)
                  (<[e := num_add (num_mul base (num_lit 7 10))
                                  (num_mul new (num_lit 3 10))]> tm)
                  (num_add (num_mul base (num_lit 7 10)) (num_mul new (num_lit 3 10))))
        as (m' & Hm' & Hlo & Hhi).
      * by rewrite lookup_insert_eq.
      * exact_unfold. destruct Hnew as [H1 H2].
        destruct (Qlt_le_dec 5 base) as [Hb|Hb]; [rewrite (H2 Hb)|specialize (H1 Hb)];
          lra.
      * exists m'. split; [done|]. exact_unfold. destruct Hnew as [H1 H2]. split.
        -- intros Hb. specialize (H1 Hb).
           assert (base * (7 # 10) + new * (3 # 10) <= 5)%Q as Hr by lra.
           specialize (Hlo Hr). lra.
        -- intros Hb. rewrite (H2 Hb) in *.
           assert (5 < base * (7 # 10) + 5 * (3 # 10))%Q as Hr by lra.
           specialize (Hhi Hr). lra.
    + apply IH; [|done]. by rewrite lookup_insert_ne.
Qed.

Lemma hotspot_drift_strict (congestion_factor : Q) (uniform : nat → Q)
    (k : nat) (edges : list Edge) (tm : gmap Edge Q) (e : Edge) (m : Q) :
  (3 # 10 < congestion_factor)%Q → (∀ i, 0 < uniform i)%Q →
  e ∈ edges → tm !! e = Some m → (0 < m)%Q →
  ∃ m', hotspot_drift congestion_factor uniform k edges tm !! e = Some m' ∧
        ((m < 5)%Q → (m < m' <= 5)%Q) ∧
        ((5 < m)%Q → (5 < m' < m)%Q).
Proof.
  intros Hcf Hu. revert k tm.
  induction edges as [|x edges IH]; intros k tm Hin Hm Hm0; cbn [hotspot_drift].
  - by apply elem_of_nil in Hin.
  - assert (num_ltb (num_lit 3 10) congestion_factor = true) as Hc
      by by apply exact_ltb_true.
    destruct (decide (x = e)) as [->|Hne].
    + rewrite Hm, Hc.
      set (new := pymin _ _).
      assert (0 < uniform k)%Q as Huk by apply Hu.
      assert (1 < num_add (num_lit 1 1) (num_mul congestion_factor (uniform k)))%Q
        as Htp.
      { exact_unfold. assert (0 < congestion_factor * uniform k)%Q
          by (apply Qmult_lt_0_compat; lra). lra. }
      set (tp := num_add _ _) in *. clearbody tp.
      assert (m < num_mul m tp)%Q as Hbt by (exact_unfold; nra).
      assert ((m < 5 → m < new <= 5) ∧ (5 <= m → new = 5%Q))%Q as [H1 H2].
      { subst new. unfold pymin. exact_cases; exact_unfold; split; intros; try lra.
        reflexivity. }
      clearbody new.
      destruct (hotspot_drift_bounds congestion_factor uniform (S k) edges
                  (<[e := num_add (num_mul m (num_lit 7 10))
                                  (num_mul new (num_lit 3 10))]> tm) e
                  (num_add (num_mul m (num_lit 7 10)) (num_mul new (num_lit 3 10))))
        as (m' & Hm' & Hlo & Hhi).
      * lra.
      * intros i. specialize (Hu i). lra.
      * by rewrite lookup_insert_eq.
      * exact_unfold.
        destruct (Qlt_le_dec m 5) as [Hb|Hb]; [specialize (H1 Hb); lra|].
        rewrite (H2 Hb). lra.
      * exists m'. split; [done|]. exact_unfold. split.
        -- intros Hb. specialize (H1 Hb).
           assert (m * (7 # 10) + new * (3 # 10) <= 5)%Q as Hr by lra.
           specialize (Hlo Hr). lra.
        -- intros Hb. pose proof (H2 ltac:(lra)) as Hnew. subst new.
           assert (5 < m * (7 # 10) + 5 * (3 # 10))%Q as Hr by lra.
           specialize (Hhi Hr). lra.
    + apply elem_of_cons in Hin as [?|Hin]; [done|].
      destruct (tm !! x) as [base|]; [|by apply IH].
      rewrite Hc. apply IH; [done| |done]. by rewrite lookup_insert_ne.
Qed.

(** X9: the hotspot loop, every 30th tick.  In any arithmetic: with a
    congestion factor of 0.3 or less it changes nothing; an edge that is
    not a hotspot keeps its multiplier; and with a factor above 0.3 a
    hotspot with multiplier [m] that is listed once gets
    [0.7 * m + 0.3 * min (m * (1 + factor * u), 5)], [u] being one of the
    random draws of the loop.  In exact arithmetic, with draws above 0,
    this takes the multiplier of a hotspot strictly towards 5: one
    between 0 and 5 grows and stays at most 5, one above 5 (the 100 of a
    blocked edge) shrinks and stays above 5; and with draws and a factor
    that are not negative no multiplier that is not negative crosses
    5. *)
Theorem hotspot_drift_towards_cap :
  (∀ (F : Type) (N : Number F) (congestion_factor : F) (uniform : nat → F) (k : nat)
     (edges : list Edge) (tm : gmap Edge F) (e : Edge) (m : F),
     tm !! e = Some m →
     (num_ltb (num_lit 3 10) congestion_factor = false →
        hotspot_drift congestion_factor uniform k edges tm = tm) ∧
     (e ∉ edges → hotspot_drift congestion_factor uniform k edges tm !! e = Some m) ∧
     (num_ltb (num_lit 3 10) congestion_factor = true → NoDup edges → e ∈ edges →
        ∃ j, (k ≤ j < k + List.length edges)%nat ∧
             hotspot_drift congestion_factor uniform k edges tm !! e
             = Some (num_add
                       (num_mul m (num_lit 7 10))
                       (num_mul
                          (pymin (num_mul m (num_add (num_lit 1 1)
                                               (num_mul congestion_factor (uniform j))))
                                 (num_lit 5 1))
                          (num_lit 3 10))))) ∧
  (∀ (congestion_factor : Q) (uniform : nat → Q) (k : nat) (edges : list Edge)
     (tm : gmap Edge Q) (e : Edge) (m : Q),
     tm !! e = Some m →
     ((3 # 10 < congestion_factor)%Q → (∀ i, 0 < uniform i)%Q → e ∈ edges → (0 < m)%Q →
        ∃ m', hotspot_drift congestion_factor uniform k edges tm !! e = Some m' ∧
              ((m < 5)%Q → (m < m' <= 5)%Q) ∧
              ((5 < m)%Q → (5 < m' < m)%Q)) ∧
     ((0 <= congestion_factor)%Q → (∀ i, 0 <= uniform i)%Q → (0 <= m)%Q →
        ∃ m', hotspot_drift congestion_factor uniform k edges tm !! e = Some m' ∧
              ((m <= 5)%Q → (m <= m' <= 5)%Q) ∧
              ((5 < m)%Q → (5 < m' <= m)%Q))).
Proof.
  split.
  - intros F N cf uniform k edges tm e m Hm. split; [|split].
    + apply hotspot_drift_idle.
    + intros Hnin. by rewrite hotspot_drift_other.
    + intros Hc Hnd Hin. by apply hotspot_drift_once.
  - intros cf uniform k edges tm e m Hm. split.
    + intros Hcf Hu Hin Hm0. by apply hotspot_drift_strict.
    + intros Hcf Hu Hm0. by apply hotspot_drift_bounds.
Qed.

(** X10: [slow_down_for_vehicle_ahead] with the default following distance of
    30 pixels: below 30 the target speed is 0, from 30 up to 60 it is the
    fraction [distance / 60] of the maximum speed, hence at least half of
    it, both with status Stuck; from 60 on it is the maximum speed, and a
    Stuck vehicle is Moving again. *)
Theorem slow_down_regimes (d : Q) (v : Vehicle Q) :
  (0 < speed_multiplier v)%Q →
  ((d < 30)%Q →
     target_speed (slow_down_for_vehicle_ahead d 30%Q v) = 0%Q ∧
     status (slow_down_for_vehicle_ahead d 30%Q v) = STUCK) ∧
  ((30 <= d)%Q → (d < 60)%Q →
     (target_speed (slow_down_for_vehicle_ahead d 30%Q v) == speed_multiplier v * d / 60)%Q ∧
     (speed_multiplier v / 2 <= target_speed (slow_down_for_vehicle_ahead d 30%Q v))%Q ∧
     (target_speed (slow_down_for_vehicle_ahead d 30%Q v) < speed_multiplier v)%Q ∧
     status (slow_down_for_vehicle_ahead d 30%Q v) = STUCK) ∧
  ((60 <= d)%Q →
     target_speed (slow_down_for_vehicle_ahead d 30%Q v) = speed_multiplier v ∧
     status (slow_down_for_vehicle_ahead d 30%Q v)
       = if decide (status v = STUCK) then MOVING else status v).
Proof.
  intros Hsm. unfold slow_down_for_vehicle_ahead.
  change (@num_lit Q exact 2 1) with 2%Q. change (@num_lit Q exact 0 1) with 0%Q.
  exact_cases; exact_unfold; vsimpl.
  - repeat split; intros; try lra; done.
  - assert (speed_multiplier v * (d / (30 * 2)) == speed_multiplier v * d / 60)%Q
      as Heq by field.
    split; [intros; lra|]. split; [|intros; lra].
    intros _ _. split; [exact Heq|]. rewrite Heq.
    assert (speed_multiplier v * d / 60 == speed_multiplier v * d * (1 # 60))%Q
      as -> by field.
    assert (speed_multiplier v / 2 == speed_multiplier v * (1 # 2))%Q as -> by field.
    repeat split; try nra.
  - split; [intros; lra|]. split; [intros; lra|]. intros _.
    case_bool_decide as Hst.
    + by rewrite decide_True.
    + by rewrite decide_False.
Qed.

Lemma ideal_speed_cases (s : MultiVehicleSimulator Q A) (v : Vehicle Q) (edge : Edge) :
  let tm := default 1%Q (traffic_multipliers s !! edge) in
  ((tm <= 1)%Q → ideal_speed s v edge = speed_multiplier v) ∧
  ((1 < tm)%Q → (tm <= 5)%Q → (ideal_speed s v edge == speed_multiplier v / tm)%Q) ∧
  ((5 <= tm)%Q → (ideal_speed s v edge == speed_multiplier v * (2 # 10))%Q).
Proof.
  intros tm. unfold ideal_speed. change (num_lit 1 1) with 1%Q. fold tm. clearbody tm.
  unfold pymax. exact_cases; exact_unfold.
  - assert (0 < tm)%Q as Hpos by lra.
    assert (5 < tm)%Q as H5.
    { apply Qnot_le_lt. intros Hle. apply (Qlt_not_le _ _ Hlt0).
      apply Qle_shift_div_l; [done|]. lra. }
    split; [intros; lra|]. split; [intros; lra|]. intros _. reflexivity.
  - assert (0 < tm)%Q as Hpos by lra.
    assert (tm <= 5)%Q as H5.
    { apply Qnot_lt_le. intros Hgt. apply (Qlt_not_le (1 / tm) (2 # 10)); [|done].
      apply Qlt_shift_div_r; [done|]. lra. }
    split; [intros; lra|]. split.
    + intros _ _. field. lra.
    + intros H5'. assert (tm == 5)%Q as -> by lra. field.
  - split; [done|]. split; intros; lra.
Qed.

(** X11: the congestion speed control of the tick, in exact arithmetic.
    The ideal speed is the maximum speed on an edge with multiplier at
    most 1, the maximum speed divided by the multiplier up to 5, and a
    fifth of the maximum speed from 5 on.  Below 10 pixels per second the
    control only resets a target speed under nine tenths of the maximum
    speed to the maximum speed.  From 10 pixels per second on it moves the
    target speed towards the ideal speed by exactly 0.1 when the two
    differ by more than 2, by exactly 0.2 when they differ by more than
    0.5 and at most 2, and not at all when they differ by 0.5 or less.
    The status becomes Stuck on a multiplier above 3 at a speed below 1,
    a Stuck vehicle above 3 pixels per second becomes Moving, and any
    other status is kept.  Position and current speed are left alone. *)
Theorem congestion_speed_control_deadband (s : MultiVehicleSimulator Q A)
    (v : Vehicle Q) (edge : Edge) :
  let v' := congestion_speed_control s v edge in
  let ideal := ideal_speed s v edge in
  let tm := default 1%Q (traffic_multipliers s !! edge) in
  ((tm <= 1)%Q → ideal = speed_multiplier v) ∧
  ((1 < tm)%Q → (tm <= 5)%Q → (ideal == speed_multiplier v / tm)%Q) ∧
  ((5 <= tm)%Q → (ideal == speed_multiplier v * (2 # 10))%Q) ∧
  ((current_speed v < 10)%Q →
     ((target_speed v < speed_multiplier v * (9 # 10))%Q →
        target_speed v' = speed_multiplier v) ∧
     ((speed_multiplier v * (9 # 10) <= target_speed v)%Q →
        target_speed v' = target_speed v)) ∧
  ((10 <= current_speed v)%Q →
     ((2 < ideal - target_speed v)%Q →
        (target_speed v' == target_speed v + (1 # 10))%Q) ∧
     ((ideal - target_speed v < - (2))%Q →
        (target_speed v' == target_speed v - (1 # 10))%Q) ∧
     ((1 # 2 < ideal - target_speed v)%Q → (ideal - target_speed v <= 2)%Q →
        (target_speed v' == target_speed v + (2 # 10))%Q) ∧
     ((- (2) <= ideal - target_speed v)%Q → (ideal - target_speed v < - (1 # 2))%Q →
        (target_speed v' == target_speed v - (2 # 10))%Q) ∧
     ((Qabs (ideal - target_speed v) <= 1 # 2)%Q → target_speed v' = target_speed v)) ∧
  ((3 < tm)%Q → (current_speed v < 1)%Q → status v' = STUCK) ∧
  ((tm <= 3)%Q ∨ (1 <= current_speed v)%Q →
     (status v = STUCK → (3 < current_speed v)%Q → status v' = MOVING) ∧
     (status v ≠ STUCK ∨ (current_speed v <= 3)%Q → status v' = status v)) ∧
  position_on_edge v' = position_on_edge v ∧
  current_speed v' = current_speed v.
Proof.
  intros v' ideal tm.
  destruct (ideal_speed_cases s v edge) as (Hi1 & Hi2 & Hi3).
  split; [exact Hi1|]. split; [exact Hi2|]. split; [exact Hi3|]. clear Hi1 Hi2 Hi3.
  subst v' ideal. unfold congestion_speed_control.
  change (if num_ltb (num_lit 1 1) (default (num_lit 1 1) (traffic_multipliers s !! edge))
          then num_mul (speed_multiplier v)
                 (pymax (num_div (num_lit 1 1)
                           (default (num_lit 1 1) (traffic_multipliers s !! edge)))
                        (num_lit 2 10))
          else speed_multiplier v) with (ideal_speed s v edge).
  change (default (num_lit 1 1) (traffic_multipliers s !! edge)) with tm.
  set (ideal := ideal_speed s v edge). clearbody ideal tm.
  set (v1 := if num_ltb (current_speed v) _ then _ else _).
  assert (((current_speed v < 10)%Q →
             ((target_speed v < speed_multiplier v * (9 # 10))%Q →
                target_speed v1 = speed_multiplier v) ∧
             ((speed_multiplier v * (9 # 10) <= target_speed v)%Q →
                target_speed v1 = target_speed v)) ∧
          ((10 <= current_speed v)%Q →
             ((2 < ideal - target_speed v)%Q →
                (target_speed v1 == target_speed v + (1 # 10))%Q) ∧
             ((ideal - target_speed v < - (2))%Q →
                (target_speed v1 == target_speed v - (1 # 10))%Q) ∧
             ((1 # 2 < ideal - target_speed v)%Q → (ideal - target_speed v <= 2)%Q →
                (target_speed v1 == target_speed v + (2 # 10))%Q) ∧
             ((- (2) <= ideal - target_speed v)%Q → (ideal - target_speed v < - (1 # 2))%Q →
                (target_speed v1 == target_speed v - (2 # 10))%Q) ∧
             ((Qabs (ideal - target_speed v) <= 1 # 2)%Q →
                target_speed v1 = target_speed v)) ∧
          position_on_edge v1 = position_on_edge v ∧
          current_speed v1 = current_speed v ∧
          status v1 = status v) as (Hlow & Hhigh & Hpos & Hcur & Hst).
  { subst v1. unfold pymin, pymax. exact_cases; vsimpl; exact_unfold;
      change (10 # 1) with 10%Q in *; change (2 # 1) with 2%Q in *;
      change (0 # 1) with 0%Q in *;
      repeat match goal with
             | H : (_ < Qabs _)%Q |- _ => apply Qabs_gt_cases in H
             | H : (Qabs _ <= _)%Q |- _ => apply Qabs_Qle_condition in H
             end;
      (split; [intros Hc; split; intros; try lra; reflexivity|]);
      (split; [intros Hc; repeat split; intros;
               repeat match goal with
                      | H : (Qabs _ <= _)%Q |- _ => apply Qabs_Qle_condition in H
                      end; try lra; try reflexivity|]);
      done. }
  clearbody v1.
  split; [intros Hc; destruct (Hlow Hc) as [Ha Hb]; split; intros Hx;
          [specialize (Ha Hx)|specialize (Hb Hx)];
          repeat (match goal with |- context [if ?b then _ else _] => destruct b end);
          vsimpl; done|].
  split; [intros Hc; destruct (Hhigh Hc) as (H1 & H2 & H3 & H4 & H5);
          repeat (match goal with |- context [if ?b then _ else _] => destruct b end);
          vsimpl; repeat split; assumption|].
  exact_cases; cbn [andb]; try case_bool_decide; cbn [andb]; vsimpl;
    rewrite ?Hpos, ?Hcur, ?Hst in *; exact_unfold;
    change (3 # 1) with 3%Q in *; change (1 # 1) with 1%Q in *;
    repeat split; intros;
    repeat match goal with H : _ ∨ _ |- _ => destruct H end;
    try lra; try done; try congruence.
Qed.

End SpeedControl.

(** At a concrete input: one hotspot with multiplier 1 at full
    congestion and a draw of 1 goes to 1.3. *)
Lemma hotspot_drift_towards_cap_witness :
  ∃ m', hotspot_drift 1%Q (λ _, 1%Q) 0 [("A", "B")] {[("A", "B") := 1%Q]} !! ("A", "B")
          = Some m' ∧ (1 < m' <= 5)%Q.
Proof.
  assert (Hm : ({[("A", "B") := 1%Q]} : gmap Edge Q) !! ("A", "B") = Some 1%Q)
    by apply lookup_singleton_eq.
  destruct (proj1 (proj2 hotspot_drift_towards_cap 1%Q (λ _, 1%Q) 0 [("A", "B")]
                     {[("A", "B") := 1%Q]} ("A", "B") 1%Q Hm))
    as (m' & Hm' & Hlo & _).
  - vm_compute. reflexivity.
  - intros i. vm_compute. reflexivity.
  - apply list_elem_of_here.
  - vm_compute. reflexivity.
  - exists m'. split; [exact Hm'|]. apply Hlo. vm_compute. reflexivity.
Defined.

(** At a concrete input: the car of the diamond 45 pixels behind a
    leader. *)
Lemma slow_down_regimes_witness :
  status (slow_down_for_vehicle_ahead 45%Q 30%Q DQ.route_car) = STUCK ∧
  (15 <= target_speed (slow_down_for_vehicle_ahead 45%Q 30%Q DQ.route_car))%Q.
Proof.
  destruct (slow_down_regimes 45%Q DQ.route_car) as (_ & Hmid & _).
  - vm_compute. reflexivity.
  - destruct Hmid as (_ & Hlo & _ & Hst).
    + vm_compute. discriminate.
    + vm_compute. reflexivity.
    + split; [exact Hst|exact Hlo].
Defined.

(** At a concrete input: the car of the diamond at 20 pixels per second
    with target speed 30 on the edge [A → B], which a moderate accident
    has taken to multiplier 4: the ideal speed is 7.5 and the target
    speed goes to 29.9. *)
Lemma congestion_speed_control_deadband_witness :
  (target_speed
     (congestion_speed_control
        (create_accident (Diamond.draw_of moderate) (Some "A") (Some "B") DQ.sim0).1
        (with_current_speed 20%Q DQ.route_car) ("A", "B"))
   == 299 # 10)%Q.
Proof.
  pose proof (congestion_speed_control_deadband
                (create_accident (Diamond.draw_of moderate) (Some "A") (Some "B")
                                 DQ.sim0).1
                (with_current_speed 20%Q DQ.route_car) ("A", "B")) as H.
  cbv zeta in H. destruct H as (_ & _ & _ & _ & Hhigh & _).
  destruct Hhigh as (_ & Hdown & _); [vm_compute; discriminate|].
  rewrite Hdown; [vm_compute; reflexivity|]. vm_compute. reflexivity.
Defined.

(** ** Construction, blocks and random incidents *)

Section Construction.
Context {F : Type} `{!Number F} {A : Type}.

Lemma init_inner_keys (u : string) (tos : list string) (tm : gmap Edge F) e :
  is_Some (foldl (λ (tm : gmap Edge F) (t : string),
                    <[(u, t) := DEFAULT_TRAFFIC_MULTIPLIER]> tm) tm tos !! e) →
  is_Some (tm !! e) ∨ ∃ t, t ∈ tos ∧ e = (u, t).
Proof.
  revert tm. induction tos as [|t tos IH]; intros tm He; cbn in He; [by left|].
  apply IH in He as [He|(t' & Ht' & ->)].
  - destruct (decide ((u, t) = e)) as [<-|Hne].
    + right. exists t. split; [apply list_elem_of_here|done].
    + left. by rewrite lookup_insert_ne in He.
  - right. exists t'. split; [by apply list_elem_of_further|done].
Qed.

Lemma init_outer_keys (l : list (string * list string)) (tm : gmap Edge F) e :
  is_Some (foldl (λ (tm : gmap Edge F) (entry : string * list string),
                    foldl (λ (tm : gmap Edge F) (to_node : string),
                             <[(entry.1, to_node) := DEFAULT_TRAFFIC_MULTIPLIER]> tm)
                          tm entry.2) tm l !! e) →
  is_Some (tm !! e) ∨ ∃ u tos t, (u, tos) ∈ l ∧ t ∈ tos ∧ e = (u, t).
Proof.
  revert tm. induction l as [|[u tos] l IH]; intros tm He; cbn in He; [by left|].
  apply IH in He as [He|(u' & tos' & t & Hin & Ht & ->)].
  - apply init_inner_keys in He as [He|(t & Ht & ->)]; [by left|].
    right. exists u, tos, t. split; [apply list_elem_of_here|done].
  - right. exists u', tos', t. split; [by apply list_elem_of_further|done].
Qed.

Lemma fresh_kernel_multipliers pow_half (g : gmap string (list string))
    (coords : gmap string (F * F)) (analyzer : A) (now : F) (hotspots : list Edge)
    (u v : string) :
  traffic_multipliers
    (MultiVehicleSimulator_init pow_half g coords analyzer now hotspots) !! (u, v)
  = match g !! u with
    | Some tos => if decide (v ∈ tos) then Some DEFAULT_TRAFFIC_MULTIPLIER else None
    | None => None
    end.
Proof.
  unfold MultiVehicleSimulator_init.
  change (traffic_multipliers (_calculate_edge_lengths pow_half ?s))
    with (traffic_multipliers s).
  match goal with |- traffic_multipliers (_initialize_traffic_multipliers ?s) !! _ = _ =>
    set (s0 := s) end.
  assert (Hno : (∀ tos, g !! u = Some tos → v ∉ tos) →
    traffic_multipliers (_initialize_traffic_multipliers s0) !! (u, v) = None).
  { intros Hno. apply eq_None_not_Some. intros He.
    unfold _initialize_traffic_multipliers in He. cbn in He.
    apply init_outer_keys in He as [He|(u' & tos & t & Hin & Ht & Heq)].
    - rewrite lookup_empty in He. by destruct He.
    - simplify_eq. apply elem_of_map_to_list in Hin. by apply (Hno tos). }
  destruct (g !! u) as [tos|] eqn:Hu.
  - destruct (decide (v ∈ tos)) as [Hv|Hv].
    + by apply (initialize_traffic_multipliers_graph _ u tos v).
    + apply Hno. intros tos' Heq. by simplify_eq.
  - apply Hno. intros tos' Heq. by simplify_eq.
Qed.

(** X12: a freshly constructed kernel has a multiplier, the default one, for
    the edges of the graph and for nothing else. *)
Theorem init_traffic_multipliers pow_half (g : gmap string (list string))
    (coords : gmap string (F * F)) (analyzer : A) (now : F) (hotspots : list Edge)
    (u v : string) :
  traffic_multipliers
    (MultiVehicleSimulator_init pow_half g coords analyzer now hotspots) !! (u, v)
  = match g !! u with
    | Some tos => if decide (v ∈ tos) then Some DEFAULT_TRAFFIC_MULTIPLIER else None
    | None => None
    end.
Proof. apply fresh_kernel_multipliers. Qed.

Lemma choice_elem {X} (n : nat) (l : list X) (x : X) : choice n l = Some x → x ∈ l.
Proof. unfold choice. intros Hx. by eapply list_elem_of_lookup_2. Qed.

(** X13: [create_accident] without an edge picks an edge of the graph and does
    not raise as long as every edge of the graph has a multiplier; on a
    graph without edges at the chosen node it returns [None] and changes
    nothing. *)
Theorem create_accident_random_edge (d : AccidentDraw F) (s : MultiVehicleSimulator F A) :
  (∀ u tos v, graph s !! u = Some tos → v ∈ tos →
              is_Some (traffic_multipliers s !! (u, v))) →
  match (create_accident d None None s).2 with
  | Ok (Some acc) =>
      (∃ tos, graph s !! acc_from_node acc = Some tos ∧ acc_to_node acc ∈ tos) ∧
      alist_lookup (acc_id acc) (accidents (create_accident d None None s).1) = Some acc
  | Ok None => create_accident d None None s = (s, Ok None)
  | Raise _ => False
  end.
Proof.
  intros Hcov. unfold create_accident.
  destruct (choice (draw_node d) _) as [f|] eqn:Hf; [|done].
  destruct (choice (draw_edge d) _) as [t|] eqn:Ht; [|done].
  apply choice_elem in Ht.
  destruct (graph s !! f) as [tos|] eqn:Hg; [|by apply elem_of_nil in Ht].
  cbn in Ht. destruct (Hcov f tos t Hg Ht) as [m Hm].
  rewrite (record_accident_known_edge d f t m s Hm). cbn. split.
  - exists tos. by rewrite Hg.
  - apply alist_lookup_insert.
Qed.

(** X14: blocking an edge and unblocking it does not restore the multiplier the
    edge had: it leaves the default multiplier, whatever incidents or
    drift had made of it; the edge is out of the block set again, a second
    unblock fails, and no other edge is touched. *)
Theorem block_unblock_round_trip (s : MultiVehicleSimulator F A) (now : F)
    (u v r : string) (m : F) :
  traffic_multipliers s !! (u, v) = Some m →
  (block_road now u v r s).2 = true ∧
  (unblock_road u v (block_road now u v r s).1).2 = true ∧
  traffic_multipliers (unblock_road u v (block_road now u v r s).1).1 !! (u, v)
    = Some DEFAULT_TRAFFIC_MULTIPLIER ∧
  blocked_roads (unblock_road u v (block_road now u v r s).1).1 !! (u, v) = None ∧
  (unblock_road u v (unblock_road u v (block_road now u v r s).1).1).2 = false ∧
  (∀ e, e ≠ (u, v) →
     traffic_multipliers (unblock_road u v (block_road now u v r s).1).1 !! e
       = traffic_multipliers s !! e ∧
     blocked_roads (unblock_road u v (block_road now u v r s).1).1 !! e
       = blocked_roads s !! e).
Proof.
  intros Hm.
  set (blk := {| blk_from_node := u; blk_to_node := v; reason := r; blocked_at := now |}).
  set (s1 := with_traffic_multipliers (<[(u, v) := num_lit 100 1]> (traffic_multipliers s))
               (with_blocked_roads (<[(u, v) := blk]> (blocked_roads s)) s)).
  assert (Hb : block_road now u v r s = (s1, true)).
  { unfold block_road. by rewrite Hm. }
  set (s2 := with_traffic_multipliers
               (<[(u, v) := DEFAULT_TRAFFIC_MULTIPLIER]> (traffic_multipliers s1))
               (with_blocked_roads (delete (u, v) (blocked_roads s1)) s1)).
  assert (Hu : unblock_road u v s1 = (s2, true)).
  { unfold unblock_road. subst s1. cbn. by rewrite lookup_insert_eq. }
  assert (Hu2 : unblock_road u v s2 = (s2, false)).
  { unfold unblock_road. subst s2 s1. cbn. by rewrite lookup_delete_eq. }
  rewrite Hb. cbn [fst snd]. rewrite Hu. cbn [fst snd]. rewrite Hu2. cbn [fst snd].
  split; [done|]. split; [done|].
  split; [subst s2; cbn; apply lookup_insert_eq|].
  split; [subst s2; cbn; apply lookup_delete_eq|].
  split; [done|].
  intros e He. subst s2 s1. cbn. split.
  - by rewrite !lookup_insert_ne.
  - by rewrite lookup_delete_ne, lookup_insert_ne.
Qed.

End Construction.

(** At a concrete input: on the fresh diamond the draw 0, 0 picks the
    edge [C → D]. *)
Lemma create_accident_random_edge_witness :
  match (create_accident (D64.draw_of moderate) None None D64.sim0).2 with
  | Ok (Some acc) => acc_from_node acc = "C" ∧ acc_to_node acc = "D"
  | _ => False
  end.
Proof.
  pose proof (create_accident_random_edge (D64.draw_of moderate) D64.sim0) as H.
  assert (Hg : graph D64.sim0 = Diamond.graph) by (vm_compute; reflexivity).
  assert (Hcov : ∀ u tos v, graph D64.sim0 !! u = Some tos → v ∈ tos →
                            is_Some (traffic_multipliers D64.sim0 !! (u, v))).
  { intros u tos v Hu Hv. rewrite Hg in Hu.
    unfold Diamond.sim0, Diamond.sim_init. rewrite fresh_kernel_multipliers, Hu.
    by rewrite decide_True. }
  specialize (H Hcov). clear Hcov Hg.
  destruct (create_accident (D64.draw_of moderate) None None D64.sim0).2
    as [[acc|]|e] eqn:Hr.
  - clear H. vm_compute in Hr. injection Hr as <-. by split.
  - clear H. vm_compute in Hr. discriminate.
  - done.
Defined.

(** At a concrete input: a severe accident has taken [A → B] to 10; after
    a block and an unblock the edge is at 1. *)
Lemma block_unblock_round_trip_witness :
  let s := (create_accident (D64.draw_of severe) (Some "A") (Some "B") D64.sim0).1 in
  traffic_multipliers s !! ("A", "B") = Some 10%float ∧
  traffic_multipliers
    (unblock_road "A" "B" (block_road 2%float "A" "B" "road_work" s).1).1 !! ("A", "B")
    = Some 1%float.
Proof.
  intros s.
  assert (Hm : traffic_multipliers s !! ("A", "B") = Some 10%float)
    by (vm_compute; reflexivity).
  split; [exact Hm|].
  exact (proj1 (proj2 (proj2 (block_unblock_round_trip s 2%float "A" "B" "road_work"
                                 10%float Hm)))).
Defined.

(** ** Journeys and statistics *)

Section JourneyFacts.
Context {F : Type} `{!Number F}.

Lemma drive_S (now : F) (k : nat) (v : Vehicle F) :
  drive now (S k) v = (move_to_next_node now (drive now k v)).1.
Proof. done. Qed.

(** The state of a vehicle after [k] moves along the path [p]. *)
Lemma drive_state (p : list string) (c now : F) (v : Vehicle F) (k : nat) :
  (k ≤ List.length p - 1)%nat →
  path (drive now k (set_path p c v)) = p ∧
  path_index (drive now k (set_path p c v)) = k ∧
  spawn_time (drive now k (set_path p c v)) = spawn_time v ∧
  ((0 < k)%nat → p !! k = Some (current_node (drive now k (set_path p c v)))) ∧
  ((k < List.length p - 1)%nat →
     next_node (drive now k (set_path p c v)) = p !! S k ∧
     status (drive now k (set_path p c v)) = MOVING) ∧
  ((0 < k)%nat → k = (List.length p - 1)%nat →
     next_node (drive now k (set_path p c v)) = None ∧
     status (drive now k (set_path p c v)) = ARRIVED ∧
     arrival_time (drive now k (set_path p c v)) = Some now).
Proof.
  induction k as [|k IH]; intros Hk.
  - unfold drive, set_path. cbn [Nat.iter].
    destruct (decide (1 < List.length p)%nat) as [Hl|Hl]; cbn.
    + repeat split; try done; lia.
    + repeat split; try done; lia.
  - destruct IH as (Hp & Hi & Hsp & _ & Hnext & _); [lia|].
    destruct Hnext as [Hn Hst]; [lia|].
    rewrite drive_S. set (w := drive now k (set_path p c v)) in *.
    unfold move_to_next_node. rewrite Hp, Hi.
    destruct (decide (p = [] ∨ (List.length p - 1 ≤ k)%nat)) as [[->|Hge]|_];
      [cbn in Hk; lia|lia|].
    destruct (lookup_lt_is_Some_2 p (S k)) as [x Hx]; [lia|].
    cbn [with_path_index with_current_node path path_index current_node].
    rewrite Hp, Hx. cbn [default].
    destruct (decide (S k < List.length p - 1)%nat) as [Hlt|Hlt]; cbn.
    + repeat split; try done; lia.
    + repeat split; try done; lia.
Qed.

(** X15: moves along a path set with [set_path] visit its nodes in order: after
    [k] moves the vehicle stands on the [k]-th node; it is [MOVING] with
    the following node as its next node until the last node, where the
    move that reaches it returns [True] and leaves the vehicle [ARRIVED],
    and the move after that returns [False].  The travel time is then the
    clock reading minus the spawn time, unless that reading is [0.0]. *)
Theorem drive_along_path (p : list string) (c now : F) (v : Vehicle F) (k : nat) :
  (2 ≤ List.length p)%nat →
  (1 ≤ k ≤ List.length p - 1)%nat →
  path_index (drive now k (set_path p c v)) = k ∧
  p !! k = Some (current_node (drive now k (set_path p c v))) ∧
  (move_to_next_node now (drive now (k - 1) (set_path p c v))).2 = true ∧
  if decide (k = List.length p - 1)%nat then
    status (drive now k (set_path p c v)) = ARRIVED ∧
    next_node (drive now k (set_path p c v)) = None ∧
    (move_to_next_node now (drive now k (set_path p c v))).2 = false ∧
    get_travel_time (drive now k (set_path p c v))
      = (if num_eqb now (num_lit 0 1) then None
         else Some (num_sub now (spawn_time v)))
  else
    status (drive now k (set_path p c v)) = MOVING ∧
    next_node (drive now k (set_path p c v)) = p !! S k.
Proof.
  intros Hlen [Hk1 Hk2].
  destruct (drive_state p c now v k Hk2) as (Hp & Hi & Hsp & Hcur & Hnext & Hend).
  destruct (drive_state p c now v (k - 1)) as (Hp' & Hi' & _); [lia|].
  split; [done|]. split; [apply Hcur; lia|]. split.
  - unfold move_to_next_node. rewrite Hp', Hi'.
    destruct (decide (p = [] ∨ (List.length p - 1 ≤ k - 1)%nat)) as [[->|Hge]|_];
      [cbn in Hlen; lia|lia|].
    by destruct (decide _).
  - destruct (decide (k = List.length p - 1)%nat) as [Hlast|Hlast].
    + destruct Hend as (Hn & Hst & Hat); [lia|done|].
      split; [done|]. split; [done|]. split.
      * unfold move_to_next_node. rewrite Hp, Hi.
        destruct (decide (p = [] ∨ (List.length p - 1 ≤ k)%nat)) as [_|Hno]; [done|].
        exfalso. apply Hno. right. lia.
      * unfold get_travel_time. by rewrite Hat, Hsp.
    + destruct Hnext as [Hn Hst]; [lia|]. by split.
Qed.

Lemma length_filter_fmap_snd {X} (P : Vehicle F → Prop) `{!∀ v, Decision (P v)}
    (l : list (X * Vehicle F)) :
  List.length (filter P (snd <$> l)) = List.length (filter (λ kv, P kv.2) l).
Proof.
  induction l as [|kv l IH]; [done|].
  rewrite fmap_cons, !filter_cons. destruct (decide (P kv.2)); cbn; by rewrite IH.
Qed.

Lemma length_filter_split {X} (P : X → Prop) `{!∀ x, Decision (P x)} (l : list X) :
  List.length l
  = (List.length (filter P l) + List.length (filter (λ x, ¬ P x) l))%nat.
Proof.
  induction l as [|x l IH]; [done|].
  rewrite !filter_cons. destruct (decide (P x)), (decide (¬ P x)); cbn; try done; lia.
Qed.

Lemma length_filter_types (l : list (Vehicle F)) :
  List.length l
  = (List.length (filter (λ v, veh_type v = CAR) l) +
     List.length (filter (λ v, veh_type v = BIKE) l) +
     List.length (filter (λ v, veh_type v = PEDESTRIAN) l))%nat.
Proof.
  induction l as [|x l IH]; [done|].
  rewrite !filter_cons.
  destruct (veh_type x) eqn:Ht; repeat case_decide; try done; cbn; lia.
Qed.

(** X16: the counts of [get_statistics] add up: the three type counts to the
    total, and, in a registry whose active set holds the vehicles that
    have not arrived, the active and the arrived count as well. *)
Theorem get_statistics_counts (m : VehicleManager F) :
  registry_consistent m →
  stat_total_vehicles (get_statistics m)
  = (stat_active_vehicles (get_statistics m) +
     stat_arrived_vehicles (get_statistics m))%nat ∧
  stat_total_vehicles (get_statistics m)
  = (stat_car (get_statistics m) + stat_bicycle (get_statistics m) +
     stat_pedestrian (get_statistics m))%nat.
Proof.
  intros Hm. split; [|apply length_filter_types].
  unfold get_statistics, get_all_vehicles, get_active_vehicles. cbn.
  rewrite length_filter_fmap_snd, length_fmap.
  rewrite (length_filter_split (λ kv, status kv.2 = ARRIVED) (map_to_list (vehicles m))).
  rewrite Nat.add_comm. f_equal. symmetry.
  assert (Hperm : elements (active_vehicles m)
                  ≡ₚ fst <$> filter (λ kv : string * Vehicle F, ¬ status kv.2 = ARRIVED)
                                    (map_to_list (vehicles m))).
  { apply NoDup_Permutation.
    - apply NoDup_elements.
    - apply NoDup_fmap_fst.
      + intros k x y Hx Hy. apply list_elem_of_filter in Hx as [_ Hx], Hy as [_ Hy].
        apply elem_of_map_to_list in Hx, Hy. congruence.
      + apply NoDup_filter, NoDup_map_to_list.
    - intros vid. rewrite elem_of_elements, (Hm vid), list_elem_of_fmap. split.
      + intros (w & Hw & Hst). exists (vid, w). split; [done|].
        apply list_elem_of_filter. split; [done|]. by apply elem_of_map_to_list.
      + intros ([k w] & -> & Hin). apply list_elem_of_filter in Hin as [Hst Hin].
        apply elem_of_map_to_list in Hin. by exists w. }
  assert (Hall : ∀ vid, vid ∈ elements (active_vehicles m) →
                        is_Some (vehicles m !! vid)).
  { intros vid Hin. apply elem_of_elements, (Hm vid) in Hin as (w & Hw & _). by exists w. }
  transitivity (List.length (elements (active_vehicles m))).
  - clear Hperm. induction (elements (active_vehicles m)) as [|x l IH]; [done|].
    cbn. destruct (Hall x) as [w Hw]; [apply list_elem_of_here|]. rewrite Hw. cbn.
    f_equal. apply IH. intros y Hy. apply Hall. by apply list_elem_of_further.
  - by rewrite Hperm, length_fmap.
Qed.

End JourneyFacts.

(** At a concrete input: two moves take the car of the diamond to [D],
    at clock reading 5 after a spawn at 0. *)
Lemma drive_along_path_witness :
  status (drive 5%float 2 D64.route_car) = ARRIVED ∧
  get_travel_time (drive 5%float 2 D64.route_car) = Some 5%float.
Proof.
  destruct (drive_along_path ["A"; "B"; "D"] 2%float 5%float
              (Vehicle_init 1 0%float CAR "A" "D") 2) as (_ & _ & _ & H);
    [cbn; lia|cbn; lia|].
  rewrite decide_True in H by done. destruct H as (H1 & _ & _ & H2).
  split; [exact H1|exact H2].
Defined.

(** At a concrete input: the registry that holds the car of the
    diamond. *)
Lemma get_statistics_counts_witness :
  stat_total_vehicles (get_statistics (add_vehicle D64.route_car VehicleManager_init).1)
  = (stat_active_vehicles (get_statistics (add_vehicle D64.route_car VehicleManager_init).1) +
     stat_arrived_vehicles (get_statistics (add_vehicle D64.route_car VehicleManager_init).1))%nat.
Proof.
  apply (get_statistics_counts (add_vehicle D64.route_car VehicleManager_init).1).
  apply add_vehicle_consistent; [|discriminate].
  intros vid. cbn. rewrite lookup_empty. split; [set_solver|]. by intros (? & ? & _).
Defined.

(** ** What a tick reports *)

Section TickProgress.
Context {F : Type} `{!Number F} {A : Type}.
Variable a_star :
  gmap string (list string) → gmap string (F * F) → gmap Edge F →
  string → string → string → list string * F.
Variable update_traffic_multipliers :
  A → VehicleManager F → gmap Edge F → A * gmap Edge F.
Variable get_congestion_probability :
  A → VehicleManager F → string → string → F.

Lemma same_clock_trans (s1 s2 s3 : MultiVehicleSimulator F A) :
  same_clock s1 s2 → same_clock s2 s3 → same_clock s1 s3.
Proof.
  intros (? & ? & ?) (? & ? & ?). split; [congruence|]. split; congruence.
Qed.

Lemma create_accident_clock d from_node to_node (s : MultiVehicleSimulator F A) :
  same_clock s (create_accident d from_node to_node s).1.
Proof.
  assert (∀ u v, same_clock s (record_accident d u v s).1) as Hrec.
  { intros u v. unfold record_accident. cbn.
    by destruct (traffic_multipliers s !! (u, v)). }
  unfold create_accident.
  destruct from_node, to_node; try apply Hrec;
    repeat (match goal with
            | |- context [match choice ?n ?l with _ => _ end] => destruct (choice n l)
            end); try apply Hrec; done.
Qed.

Lemma resolve_accident_clock accident_id (s : MultiVehicleSimulator F A) :
  same_clock s (resolve_accident accident_id s).1.
Proof.
  unfold resolve_accident.
  destruct (alist_lookup _ _) as [acc|]; [|done].
  by destruct (traffic_multipliers s !! _).
Qed.

Lemma resolve_expired_clock now ids (s : MultiVehicleSimulator F A) :
  same_clock s (resolve_expired now ids s).1.
Proof.
  revert s. induction ids as [|x ids IH]; intros s; cbn [resolve_expired]; [done|].
  destruct (alist_lookup x (accidents s)) as [acc|]; [|done].
  destruct (num_ltb _ _); [|apply IH].
  pose proof (resolve_accident_clock x s) as Hr.
  destruct (resolve_accident x s) as [s1 [b|e]]; cbn [fst] in *; [|done].
  eapply same_clock_trans; [exact Hr|apply IH].
Qed.

Lemma first_pass_clock ids (s : MultiVehicleSimulator F A) :
  same_clock s (first_pass a_star get_congestion_probability ids s).
Proof.
  revert s. induction ids as [|x ids IH]; intros s; cbn [first_pass foldl]; [done|].
  destruct (vehicles (vehicle_manager s) !! x) as [w|]; [|apply IH].
  eapply same_clock_trans; [|apply IH]. done.
Qed.

Lemma second_pass_clock dt clock ids moved arrived (s : MultiVehicleSimulator F A) :
  same_clock s (second_pass dt clock ids moved arrived s).1.
Proof.
  revert s moved arrived.
  induction ids as [|x ids IH]; intros s moved arrived; cbn [second_pass]; [done|].
  destruct (vehicles (vehicle_manager s) !! x) as [w|]; [|apply IH].
  destruct (second_pass_vehicle dt (clock x) s w) as [w' [[m a]|e]]; [|done].
  eapply same_clock_trans; [|apply IH]. done.
Qed.

(** Each vehicle of the second loop counts at most once as moved and at
    most once as arrived. *)
Lemma second_pass_counts dt clock ids moved arrived (s s' : MultiVehicleSimulator F A)
    moved' arrived' :
  second_pass dt clock ids moved arrived s = (s', Ok (moved', arrived')) →
  (moved ≤ moved' ≤ moved + List.length ids)%nat ∧
  (arrived ≤ arrived' ≤ arrived + List.length ids)%nat.
Proof.
  revert s moved arrived.
  induction ids as [|x ids IH]; intros s moved arrived Hr; cbn [second_pass] in Hr.
  - simplify_eq. cbn. lia.
  - cbn [List.length].
    destruct (vehicles (vehicle_manager s) !! x) as [w|].
    + destruct (second_pass_vehicle dt (clock x) s w) as [w' [[m a]|e]]; [|done].
      apply IH in Hr. destruct m, a; lia.
    + apply IH in Hr. lia.
Qed.

Lemma simulation_tick_report inp (s : MultiVehicleSimulator F A) :
  simulation_step (simulation_tick a_star update_traffic_multipliers
                     get_congestion_probability inp s).1 = S (simulation_step s) ∧
  last_update_time (simulation_tick a_star update_traffic_multipliers
                      get_congestion_probability inp s).1 = tick_time inp ∧
  is_running (simulation_tick a_star update_traffic_multipliers
                get_congestion_probability inp s).1 = is_running s ∧
  match (simulation_tick a_star update_traffic_multipliers
           get_congestion_probability inp s).2 with
  | Ok r =>
      res_step r = S (simulation_step s) ∧
      (res_moved r ≤ List.length (active_ids (vehicle_manager s)))%nat ∧
      (res_arrived r ≤ List.length (active_ids (vehicle_manager s)))%nat ∧
      (0 ≤ res_active_vehicles r)%Z ∧
      res_total_vehicles r = size (vehicles (vehicle_manager s))
  | Raise _ => True
  end.
Proof.
  unfold simulation_tick.
  set (s0 := with_simulation_step _ _).
  assert (vehicle_manager s0 = vehicle_manager s) as Hm0 by done.
  assert (simulation_step s0 = S (simulation_step s) ∧
          last_update_time s0 = tick_time inp ∧
          is_running s0 = is_running s) as Hc0 by done.
  clearbody s0.
  set (c := if num_ltb _ _ then _ else _).
  assert (vehicle_manager c.1 = vehicle_manager s ∧ same_clock s0 c.1) as (Hm1 & Hc1).
  { subst c. destruct (num_ltb _ _); [|done].
    rewrite create_accident_manager. split; [done|]. apply create_accident_clock. }
  destruct c as [s1 [o|e]]; cbn [fst snd] in Hm1, Hc1 |- *.
  2:{ destruct Hc0 as (? & ? & ?), Hc1 as (? & ? & ?).
      split; [congruence|]. split; [congruence|]. split; [congruence|done]. }
  pose proof (resolve_expired_manager (tick_time inp) (accidents s1).*1 s1) as Hm2.
  pose proof (resolve_expired_clock (tick_time inp) (accidents s1).*1 s1) as Hc2.
  destruct (resolve_expired _ _ s1) as [s2 [[]|e]]; cbn [fst snd] in Hm2, Hc2 |- *.
  2:{ destruct Hc0 as (? & ? & ?), Hc1 as (? & ? & ?), Hc2 as (? & ? & ?).
      split; [congruence|]. split; [congruence|]. split; [congruence|done]. }
  destruct (update_traffic_multipliers _ _ _) as [an tm].
  set (s3 := if bool_decide _ then _ else _).
  assert (vehicle_manager s3 = vehicle_manager s ∧ same_clock s2 s3) as (Hm3 & Hc3).
  { subst s3. unfold same_clock.
    case_bool_decide;
      cbn [vehicle_manager simulation_step last_update_time is_running
           with_traffic_multipliers with_traffic_analyzer].
    all: split; [congruence|done]. }
  clearbody s3. rewrite Hm3.
  set (ids := active_ids (vehicle_manager s)).
  pose proof (first_pass_clock ids s3) as Hc4.
  assert (same_keys "" None s3 (first_pass a_star get_congestion_probability ids s3))
    as (Hd4 & _ & _) by by apply first_pass_same_keys.
  set (s4 := first_pass a_star get_congestion_probability ids s3) in *. clearbody s4.
  set (dt := pymin _ _). clearbody dt.
  pose proof (second_pass_clock dt (arrival_clock inp) ids 0 0 s4) as Hc5.
  assert (same_keys "" None s4 (second_pass dt (arrival_clock inp) ids 0 0 s4).1)
    as (Hd5 & _ & _) by by apply second_pass_same_keys.
  destruct Hc0 as (? & ? & ?), Hc1 as (? & ? & ?), Hc2 as (? & ? & ?),
           Hc3 as (? & ? & ?), Hc4 as (? & ? & ?).
  destruct (second_pass dt (arrival_clock inp) ids 0 0 s4) as [s5 [[moved arrived]|e]]
    eqn:Hsp; cbn [fst snd] in *; destruct Hc5 as (? & ? & ?).
  2:{ split; [congruence|]. split; [congruence|]. split; [congruence|done]. }
  apply second_pass_counts in Hsp as [Hmv Har].
  cbn [simulation_step last_update_time is_running with_vehicle_manager res_step
       res_moved res_arrived res_active_vehicles res_total_vehicles].
  split; [congruence|]. split; [congruence|]. split; [congruence|].
  split; [congruence|]. split; [lia|]. split; [lia|]. split; [lia|].
  unfold get_all_vehicles.
  cbn [vehicle_manager with_vehicle_manager update_edge_occupancy with_edge_occupancy
       vehicles].
  rewrite length_fmap, length_map_to_list.
  rewrite <- !(size_dom (D := gset string)). congruence.
Qed.

(** X17: a tick advances the step counter by one and moves the time of the
    last update to its clock reading, also when it raises.  When it
    returns, the step it reports is the new counter, the counts of moved
    and of arrived vehicles are at most the number of active vehicles the
    tick found, the number of active vehicles it reports is not negative,
    and the total is the size of the registry before the tick. *)
Theorem simulation_tick_progress inp (s : MultiVehicleSimulator F A) :
  simulation_step (simulation_tick a_star update_traffic_multipliers
                     get_congestion_probability inp s).1 = S (simulation_step s) ∧
  last_update_time (simulation_tick a_star update_traffic_multipliers
                      get_congestion_probability inp s).1 = tick_time inp ∧
  match (simulation_tick a_star update_traffic_multipliers
           get_congestion_probability inp s).2 with
  | Ok r =>
      res_step r = S (simulation_step s) ∧
      (res_moved r ≤ List.length (active_ids (vehicle_manager s)))%nat ∧
      (res_arrived r ≤ List.length (active_ids (vehicle_manager s)))%nat ∧
      (0 ≤ res_active_vehicles r)%Z ∧
      res_total_vehicles r = size (vehicles (vehicle_manager s))
  | Raise _ => True
  end.
Proof.
  destruct (simulation_tick_report inp s) as (? & ? & _ & ?). done.
Qed.

End TickProgress.

(** ** The JSON view of the multipliers *)

Section JsonView.
Context {F : Type} `{!Number F}.

Lemma json_key_inj (u v u' v' : string) :
  has_comma u = false → has_comma u' = false →
  json_key (u, v) = json_key (u', v') → u = u' ∧ v = v'.
Proof.
  unfold json_key. cbn [fst snd]. revert u'.
  induction u as [|c u IH]; intros [|c' u'] Hu Hu' Heq; cbn in *.
  1-3: by simplify_eq.
  - apply orb_false_iff in Hu as [_ Hu], Hu' as [_ Hu'].
    injection Heq as -> Heq. destruct (IH u' Hu Hu' Heq) as [-> ->]. done.
Qed.

Lemma json_fold_lookup (items : list (Edge * F)) (d : gmap string F) (k : string) :
  NoDup ((λ item : Edge * F, json_key item.1) <$> items) →
  foldl (λ (d : gmap string F) (item : Edge * F), <[json_key item.1 := item.2]> d)
        d items !! k
  = match list_find (λ item : Edge * F, json_key item.1 = k) items with
    | Some (_, item) => Some item.2
    | None => d !! k
    end.
Proof.
  revert d. induction items as [|item items IH]; intros d Hnd; [done|].
  rewrite fmap_cons in Hnd. apply NoDup_cons in Hnd as [Hnotin Hnd].
  cbn [foldl list_find]. rewrite IH by done.
  destruct (decide (json_key item.1 = k)) as [<-|Hne].
  - destruct (list_find _ items) as [[i item']|] eqn:Hfind; cbn.
    + apply list_find_Some in Hfind as (Hin & Hk & _). exfalso. apply Hnotin.
      rewrite <- Hk. apply list_elem_of_fmap. exists item'. split; [done|].
      by eapply list_elem_of_lookup_2.
    + apply lookup_insert_eq.
  - destruct (list_find _ items) as [[i item']|]; cbn; [done|].
    by rewrite lookup_insert_ne.
Qed.

(** X18: as long as no source node of an edge has a comma in its name, the
    JSON view of the multipliers loses nothing: under the key [u,v] it
    has the multiplier of the edge from [u] to [v], and it has no other
    keys. *)
Theorem traffic_multipliers_json_lookup (tm : gmap Edge F) (items : list (Edge * F)) :
  items ≡ₚ map_to_list tm →
  (∀ u v, is_Some (tm !! (u, v)) → has_comma u = false) →
  (∀ u v, has_comma u = false →
          get_traffic_multipliers_json items !! json_key (u, v) = tm !! (u, v)) ∧
  (∀ k, is_Some (get_traffic_multipliers_json items !! k) →
        ∃ u v, k = json_key (u, v) ∧ is_Some (tm !! (u, v))).
Proof.
  intros Hperm Hcomma.
  assert (Hin : ∀ e m, (e, m) ∈ items ↔ tm !! e = Some m).
  { intros e m. rewrite Hperm. apply elem_of_map_to_list. }
  assert (Hnd : NoDup ((λ item : Edge * F, json_key item.1) <$> items)).
  { apply NoDup_fmap_2_strong.
    - intros [[u v] m] [[u' v'] m'] Hx Hy Hk. cbn in Hk.
      apply Hin in Hx, Hy.
      destruct (json_key_inj u v u' v') as [-> ->]; [by eapply Hcomma..|done|].
      congruence.
    - rewrite Hperm. apply NoDup_map_to_list. }
  unfold get_traffic_multipliers_json. split.
  - intros u v Hu. rewrite json_fold_lookup by done.
    destruct (list_find _ items) as [[i [[u' v'] m]]|] eqn:Hfind.
    + apply list_find_Some in Hfind as (Hi & Hk & _). cbn in Hk.
      apply list_elem_of_lookup_2, Hin in Hi.
      destruct (json_key_inj u' v' u v) as [-> ->]; [by eapply Hcomma|done|done|].
      done.
    + rewrite lookup_empty. symmetry. apply eq_None_not_Some. intros [m Hm].
      apply Hin, list_elem_of_lookup_1 in Hm as [i Hi].
      apply list_find_None in Hfind. rewrite Forall_lookup in Hfind.
      by apply (Hfind i _ Hi).
  - intros k. rewrite json_fold_lookup by done.
    destruct (list_find _ items) as [[i [[u v] m]]|] eqn:Hfind.
    + intros _. apply list_find_Some in Hfind as (Hi & Hk & _). cbn in Hk.
      apply list_elem_of_lookup_2, Hin in Hi. exists u, v. by rewrite Hi.
    + rewrite lookup_empty. by intros [? ?].
Qed.

End JsonView.

(** At a concrete input: the edge [A → B] with multiplier 4. *)
Lemma traffic_multipliers_json_lookup_witness :
  get_traffic_multipliers_json [(("A", "B"), 4%float)] !! "A,B" = Some 4%float.
Proof.
  destruct (traffic_multipliers_json_lookup
              {[("A", "B") := 4%float]} [(("A", "B"), 4%float)]) as [H _].
  - by rewrite map_to_list_singleton.
  - intros u v [m Hm]. apply lookup_singleton_Some in Hm as [[= <- <-] _]. done.
  - rewrite <- (lookup_singleton_eq (M := gmap Edge) ("A", "B") 4%float).
    apply (H "A" "B"). done.
Defined.

(** ** The accident book *)

Section AccidentBook.
Context {F : Type} `{!Number F} {A : Type}.

Lemma alist_insert_fresh {V} (k : string) (x : V) (l : list (string * V)) :
  k ∉ l.*1 → alist_insert k x l = (l ++ [(k, x)])%list.
Proof.
  induction l as [|[k' y] l IH]; intros Hk; cbn; [done|].
  rewrite fmap_cons in Hk. apply not_elem_of_cons in Hk as [Hne Hk]. cbn in Hne.
  destruct (String.eqb_spec k k') as [->|_]; [done|]. by rewrite IH.
Qed.

Lemma alist_lookup_fresh {V} (k : string) (l : list (string * V)) :
  k ∉ l.*1 → alist_lookup k l = None.
Proof.
  induction l as [|[k' y] l IH]; intros Hk; cbn; [done|].
  rewrite fmap_cons in Hk. apply not_elem_of_cons in Hk as [Hne Hk]. cbn in Hne.
  destruct (String.eqb_spec k k') as [->|_]; [done|]. by apply IH.
Qed.

Lemma alist_delete_sublist {V} (k : string) (l : list (string * V)) :
  alist_delete k l `sublist_of` l.
Proof.
  induction l as [|[k' y] l IH]; cbn; [done|].
  destruct (String.eqb k k'); [by apply sublist_cons|by apply sublist_skip].
Qed.

Lemma accident_id_fresh (s : MultiVehicleSimulator F A) :
  accident_book_ok s →
  "accident_" +:+ pretty (S (accident_counter s)) ∉ (accidents s).*1.
Proof.
  intros [_ Hbook] Hin. apply list_elem_of_fmap in Hin as ([k acc] & Hk & Hin).
  cbn in Hk. subst k. destruct (Hbook _ _ Hin) as (_ & n & Hn & Heq).
  apply (inj (String.append "accident_")), (inj pretty) in Heq. lia.
Qed.

Lemma record_accident_book d u v (s : MultiVehicleSimulator F A) :
  accident_book_ok s →
  accidents (record_accident d u v s).1
    = (accidents s ++ [(acc_id (new_accident d u v s), new_accident d u v s)])%list ∧
  accident_counter (record_accident d u v s).1 = S (accident_counter s).
Proof.
  intros Hok. pose proof (accident_id_fresh s Hok) as Hfresh.
  unfold record_accident.
  cbn [accident_counter with_accident_counter accidents with_accidents
       traffic_multipliers].
  destruct (traffic_multipliers s !! (u, v));
    cbn [fst accidents with_accidents with_traffic_multipliers with_accident_counter
         accident_counter];
    by rewrite alist_insert_fresh.
Qed.

Lemma appended_book_ok (s s' : MultiVehicleSimulator F A) d u v :
  accident_book_ok s →
  accidents s'
    = (accidents s ++ [(acc_id (new_accident d u v s), new_accident d u v s)])%list →
  accident_counter s' = S (accident_counter s) →
  accident_book_ok s'.
Proof.
  intros Hok Hacc Hcnt. pose proof (accident_id_fresh s Hok) as Hfresh.
  destruct Hok as [Hnd Hbook]. unfold accident_book_ok. rewrite Hacc, Hcnt. split.
  - rewrite fmap_app. apply NoDup_app. split; [done|]. split.
    + intros k Hk Hk'. cbn in Hk'. apply list_elem_of_singleton in Hk'. by subst k.
    + cbn. apply NoDup_singleton.
  - intros k acc Hin. apply elem_of_app in Hin as [Hin|Hin].
    + destruct (Hbook k acc Hin) as (? & n & ? & ?). split; [done|].
      exists n. split; [lia|done].
    + apply list_elem_of_singleton in Hin. simplify_eq. split; [done|].
      exists (S (accident_counter s)). split; [lia|done].
Qed.

(** X19: the ids of the accidents on the book never collide.  An accident that
    [create_accident] files gets an id no accident on the book has, and
    goes to the end of the book; this holds also when the call raises
    for an unknown edge.  [resolve_accident] keeps the book in order. *)
Theorem accident_ids_unique d from_node to_node accident_id
    (s : MultiVehicleSimulator F A) :
  accident_book_ok s →
  accident_book_ok (create_accident d from_node to_node s).1 ∧
  accident_book_ok (resolve_accident accident_id s).1 ∧
  match (create_accident d from_node to_node s).2 with
  | Ok (Some acc) =>
      alist_lookup (acc_id acc) (accidents s) = None ∧
      accidents (create_accident d from_node to_node s).1
        = (accidents s ++ [(acc_id acc, acc)])%list
  | _ => True
  end.
Proof.
  intros Hok.
  assert (Hrec : ∀ u v,
    accident_book_ok (record_accident d u v s).1 ∧
    match (record_accident d u v s).2 with
    | Ok (Some acc) =>
        alist_lookup (acc_id acc) (accidents s) = None ∧
        accidents (record_accident d u v s).1 = (accidents s ++ [(acc_id acc, acc)])%list
    | _ => True
    end).
  { intros u v. destruct (record_accident_book d u v s Hok) as [Hacc Hcnt]. split.
    - by eapply appended_book_ok.
    - destruct (traffic_multipliers s !! (u, v)) as [m|] eqn:Hm.
      + rewrite (record_accident_known_edge d u v m s Hm) in Hacc |- *.
        cbn [fst snd] in *. split; [|done].
        apply alist_lookup_fresh, accident_id_fresh, Hok.
      + unfold record_accident. cbn. by rewrite Hm. }
  split; [|split].
  - unfold create_accident.
    destruct from_node, to_node; try apply Hrec;
      repeat (match goal with
              | |- context [match choice ?n ?l with _ => _ end] => destruct (choice n l)
              end); try apply Hrec; done.
  - unfold resolve_accident.
    destruct (alist_lookup accident_id (accidents s)) as [acc|]; [|done].
    destruct (traffic_multipliers s !! _); [|done].
    cbn. destruct Hok as [Hnd Hbook]. split.
    + cbn. eapply sublist_NoDup; [exact Hnd|].
      apply fmap_sublist, alist_delete_sublist.
    + intros k a Hin. apply (Hbook k a).
      eapply elem_of_sublist; [exact Hin|]. apply alist_delete_sublist.
  - unfold create_accident.
    destruct from_node, to_node; try apply Hrec;
      repeat (match goal with
              | |- context [match choice ?n ?l with _ => _ end] => destruct (choice n l)
              end); try apply Hrec; done.
Qed.

End AccidentBook.

(** At a concrete input: the first accident on the fresh diamond. *)
Lemma accident_ids_unique_witness :
  accident_book_ok
    (create_accident (D64.draw_of minor) (Some "A") (Some "B") D64.sim0).1.
Proof.
  assert (Hok : accident_book_ok D64.sim0).
  { split; [apply NoDup_nil_2|]. intros k acc Hin. exfalso.
    change (accidents D64.sim0) with (@nil (string * Accident float)) in Hin.
    by apply elem_of_nil in Hin. }
  exact (proj1 (accident_ids_unique (D64.draw_of minor) (Some "A") (Some "B")
                  "accident_1" D64.sim0 Hok)).
Defined.

(** ** Spawning and moving single vehicles *)

Section SpawnFacts.
Context {F : Type} `{!Number F} {A : Type}.
Variable a_star :
  gmap string (list string) → gmap string (F * F) → gmap Edge F →
  string → string → string → list string * F.
Variable get_congestion_probability :
  A → VehicleManager F → string → string → F.

Lemma set_path_facts new_path cost (v : Vehicle F) :
  status v = WAITING →
  path (set_path new_path cost v) = new_path ∧
  path_index (set_path new_path cost v) = 0%nat ∧
  current_node (set_path new_path cost v) = current_node v ∧
  start_node (set_path new_path cost v) = start_node v ∧
  status (set_path new_path cost v) ≠ ARRIVED.
Proof.
  intros Hst. unfold set_path. destruct (decide _); cbn; by rewrite ?Hst.
Qed.

Lemma spawn_vehicle_outcome d now vt start goal c (s : MultiVehicleSimulator F A) :
  match spawn_vehicle a_star d now vt start goal c s with
  | (c', s', Some v) =>
      c' = S c ∧ veh_id v = value vt +:+ "_" +:+ pretty (S c) ∧
      vehicles (vehicle_manager s') !! veh_id v = Some v ∧
      veh_id v ∈ active_vehicles (vehicle_manager s') ∧
      (∀ vid, vid ≠ veh_id v →
              vehicles (vehicle_manager s') !! vid = vehicles (vehicle_manager s) !! vid) ∧
      (∀ vid, vid ∈ active_vehicles (vehicle_manager s) →
              vid ∈ active_vehicles (vehicle_manager s')) ∧
      path v ≠ [] ∧ path_index v = 0%nat ∧ current_node v = start_node v ∧
      status v ≠ ARRIVED ∧
      total_spawned s' = S (total_spawned s) ∧ same_clock s s'
  | (c', s', None) => s' = s ∧ (c' = c ∨ c' = S c)
  end.
Proof.
  unfold spawn_vehicle.
  destruct (choice (draw_start d) _) as [drawn|]; [|by split; [|left]].
  assert (∀ g,
    match
      (let counter := S c in
       let vehicle := Vehicle_init counter now vt (default drawn start) g in
       let '(new_path, cost) :=
         a_star (graph s) (heuristic_coords s) (traffic_multipliers s)
                (default drawn start) g (value vt) in
       match new_path with
       | [] => (counter, s, None)
       | _ :: _ =>
           let vehicle := set_path new_path cost vehicle in
           let s := with_vehicle_manager (add_vehicle vehicle (vehicle_manager s)).1 s in
           (counter, with_total_spawned (S (total_spawned s)) s, Some vehicle)
       end)
    with
    | (c', s', Some v) =>
        c' = S c ∧ veh_id v = value vt +:+ "_" +:+ pretty (S c) ∧
        vehicles (vehicle_manager s') !! veh_id v = Some v ∧
        veh_id v ∈ active_vehicles (vehicle_manager s') ∧
        (∀ vid, vid ≠ veh_id v →
                vehicles (vehicle_manager s') !! vid
                  = vehicles (vehicle_manager s) !! vid) ∧
        (∀ vid, vid ∈ active_vehicles (vehicle_manager s) →
                vid ∈ active_vehicles (vehicle_manager s')) ∧
        path v ≠ [] ∧ path_index v = 0%nat ∧ current_node v = start_node v ∧
        status v ≠ ARRIVED ∧
        total_spawned s' = S (total_spawned s) ∧ same_clock s s'
    | (c', s', None) => s' = s ∧ (c' = c ∨ c' = S c)
    end) as Hbody.
  { intros g. cbn zeta.
    destruct (a_star _ _ _ _ _ _) as [[|x p] cost]; [by split; [|right]|].
    set (v0 := Vehicle_init (S c) now vt (default drawn start) g).
    destruct (set_path_facts (x :: p) cost v0) as (Hp & Hi & Hc & Hs & Hst); [done|].
    set (v := set_path (x :: p) cost v0) in *.
    assert (veh_id v = value vt +:+ "_" +:+ pretty (S c)) as Hid
      by (subst v; by rewrite set_path_veh_id).
    unfold add_vehicle. rewrite (bool_decide_eq_true_2 _ Hst).
    cbn [fst vehicle_manager with_vehicle_manager with_total_spawned vehicles
         with_vehicles active_vehicles with_active_vehicles total_spawned].
    split; [done|]. split; [done|]. split; [apply lookup_insert_eq|].
    split; [set_solver|]. split; [intros vid Hne; by rewrite lookup_insert_ne|].
    split; [set_solver|]. split; [by rewrite Hp|]. split; [done|].
    split; [by rewrite Hc, Hs|]. done. }
  destruct goal as [g|]; [apply Hbody|].
  destruct (choice (draw_goal d) _) as [g|]; [apply Hbody|by split; [|left]].
Qed.

(** X20: a spawn that returns a vehicle has registered it, active, under an
    id made of its type and the advanced counter, at the start of a
    non-empty path, and has touched no other vehicle; a spawn that
    returns nothing leaves the kernel as it was, though the counter may
    have advanced. *)
Theorem spawn_vehicle_result d now vt start goal c (s : MultiVehicleSimulator F A) :
  match spawn_vehicle a_star d now vt start goal c s with
  | (c', s', Some v) =>
      c' = S c ∧ veh_id v = value vt +:+ "_" +:+ pretty (S c) ∧
      vehicles (vehicle_manager s') !! veh_id v = Some v ∧
      veh_id v ∈ active_vehicles (vehicle_manager s') ∧
      (∀ vid, vid ≠ veh_id v →
              vehicles (vehicle_manager s') !! vid = vehicles (vehicle_manager s) !! vid) ∧
      path v ≠ [] ∧ path_index v = 0%nat ∧ current_node v = start_node v ∧
      status v ≠ ARRIVED ∧
      total_spawned s' = S (total_spawned s)
  | (c', s', None) => s' = s ∧ (c' = c ∨ c' = S c)
  end.
Proof.
  pose proof (spawn_vehicle_outcome d now vt start goal c s) as H.
  destruct (spawn_vehicle a_star d now vt start goal c s) as [[c' s'] [v|]]; [|done].
  destruct H as (? & ? & ? & ? & ? & _ & ? & ? & ? & ? & ? & _). done.
Qed.

Lemma reroute_vehicle_veh_id (s : MultiVehicleSimulator F A) (v : Vehicle F) :
  veh_id (_reroute_vehicle a_star s v) = veh_id v.
Proof.
  unfold _reroute_vehicle. destruct (a_star _ _ _ _ _ _) as [p c].
  destruct (_ && _); [|done]. cbn. apply set_path_veh_id.
Qed.

Lemma move_to_next_node_veh_id now (v : Vehicle F) :
  veh_id (move_to_next_node now v).1 = veh_id v.
Proof. unfold move_to_next_node. by repeat destruct (decide _). Qed.

(** X21: [move_vehicle] keeps the active set in step with the registry: in a
    registry whose active set holds the vehicles that have not arrived,
    and where the vehicle is filed under its own id, a vehicle that
    arrives by the move leaves the active set. *)
Theorem move_vehicle_keeps_registry now vid (s : MultiVehicleSimulator F A) :
  registry_consistent (vehicle_manager s) →
  (∀ v, vehicles (vehicle_manager s) !! vid = Some v → veh_id v = vid) →
  registry_consistent
    (vehicle_manager (move_vehicle a_star get_congestion_probability now vid s).1).
Proof.
  intros Hm Hid. unfold move_vehicle.
  destruct (vehicles (vehicle_manager s) !! vid) as [v|] eqn:Hv; [|done].
  case_bool_decide as Hst; [done|].
  set (v1 := if _should_reroute _ _ _ then _ else v).
  assert (veh_id v1 = vid) as Hid1.
  { subst v1. destruct (_should_reroute _ _ _); [rewrite reroute_vehicle_veh_id|];
      by apply Hid. }
  clearbody v1.
  pose proof (move_to_next_node_veh_id now v1) as Hid2.
  destruct (move_to_next_node now v1) as [v2 ok]. cbn [fst] in *.
  rewrite Hid1 in Hid2.
  assert (registry_consistent (vehicle_manager (store_vehicle vid v2 s)) ∨
          status v2 = ARRIVED) as Hstore.
  { destruct (decide (status v2 = ARRIVED)) as [|Hne]; [by right|]. left.
    intros x. cbn. destruct (decide (vid = x)) as [<-|Hx].
    - rewrite lookup_insert_eq. split; [by exists v2|]. intros _.
      apply Hm. by exists v.
    - rewrite lookup_insert_ne by done. apply Hm. }
  case_bool_decide as Harr.
  - rewrite Hid2. intros x. unfold mark_vehicle_arrived.
    cbn [vehicle_manager store_vehicle with_vehicle_manager fst active_vehicles
         with_vehicles vehicles].
    assert (vid ∈ active_vehicles (vehicle_manager s)) as Hact
      by (apply Hm; by exists v).
    rewrite (bool_decide_eq_true_2 _ Hact).
    cbn [vehicles with_active_vehicles with_vehicles active_vehicles].
    rewrite lookup_insert_eq.
    cbn [vehicles with_active_vehicles with_vehicles active_vehicles].
    destruct (decide (vid = x)) as [<-|Hx].
    + rewrite lookup_insert_eq. split; [set_solver|].
      intros (? & [= <-] & Hs). by cbn in Hs.
    + rewrite !lookup_insert_ne by done. rewrite <- (Hm x). set_solver.
  - destruct Hstore as [Hok|Harr']; [exact Hok|done].
Qed.

End SpawnFacts.

(** At a concrete input: the car spawned on the diamond, moved once. *)
Lemma move_vehicle_keeps_registry_witness :
  registry_consistent
    (vehicle_manager
       (move_vehicle D64.a_star D64.get_congestion_probability 1%float "car_1"
                     D64.sim1).1).
Proof.
  apply (move_vehicle_keeps_registry D64.a_star D64.get_congestion_probability
           1%float "car_1" D64.sim1).
  - assert (vehicle_manager D64.sim1 = (add_vehicle D64.route_car VehicleManager_init).1)
      as -> by (vm_compute; reflexivity).
    apply add_vehicle_consistent; [|discriminate].
    intros vid. cbn. rewrite lookup_empty. split; [set_solver|]. by intros (? & ? & _).
  - intros v Hv. vm_compute in Hv. injection Hv as <-. reflexivity.
Defined.

(** ** Spawning at random and the continuous run *)

Section PickType.

Lemma distribution_mass_nonneg (distribution : list (VehicleType * Q)) :
  (∀ ty p, (ty, p) ∈ distribution → 0 <= p)%Q → (0 <= distribution_mass distribution)%Q.
Proof.
  induction distribution as [|[ty p] rest IH]; intros Hpos.
  - vm_compute. discriminate.
  - assert (0 <= p)%Q as Hp by (apply (Hpos ty), list_elem_of_here).
    assert (0 <= distribution_mass rest)%Q as Hm.
    { apply IH. intros ty' p' Hin. apply (Hpos ty'). by apply list_elem_of_further. }
    unfold distribution_mass in *. cbn [foldr snd]. exact_unfold.
    set (m := foldr _ _ rest) in *. clearbody m. lra.
Qed.

Lemma pick_type_reached (rand c : Q) (distribution : list (VehicleType * Q)) :
  (∀ ty p, (ty, p) ∈ distribution → 0 <= p)%Q →
  ((distribution ≠ [] ∨ c < rand)%Q → (rand <= c + distribution_mass distribution)%Q →
     ∃ p, (pick_type rand c distribution, p) ∈ distribution) ∧
  ((c + distribution_mass distribution < rand)%Q →
     pick_type rand c distribution = CAR).
Proof.
  revert c. induction distribution as [|[ty p] rest IH]; intros c Hpos.
  - unfold distribution_mass. cbn [foldr]. exact_unfold. split; [|done].
    intros [?|Hlt] Hle; [done|]. change (Qmake 0 1) with 0%Q in Hle. lra.
  - assert (0 <= p)%Q as Hp by (apply (Hpos ty), list_elem_of_here).
    destruct (IH (c + p)%Q) as [IH1 IH2].
    { intros ty' p' Hin. apply (Hpos ty'). by apply list_elem_of_further. }
    assert (0 <= distribution_mass rest)%Q as Hm.
    { apply distribution_mass_nonneg. intros ty' p' Hin. apply (Hpos ty').
      by apply list_elem_of_further. }
    unfold distribution_mass in *. cbn [foldr pick_type snd]. exact_unfold.
    set (m := foldr _ _ rest) in *. clearbody m.
    exact_cases.
    + split; [|intros; lra]. intros _ _. exists p. apply list_elem_of_here.
    + split.
      * intros _ Hmass. destruct IH1 as [q Hq]; [right; lra|lra|].
        exists q. by apply list_elem_of_further.
      * intros Hlt. apply IH2. lra.
Qed.

(** X22: the type [spawn_random_vehicles] picks is one the distribution lists
    as long as the draw is within the sum of its probabilities, and a car
    beyond that sum, whether the distribution lists cars or not.  With
    the default distribution the draw picks a car up to 0.6, a bicycle up
    to 0.85 and a pedestrian up to 1. *)
Theorem pick_type_mass (rand : Q) (distribution : list (VehicleType * Q)) :
  (∀ ty p, (ty, p) ∈ distribution → 0 <= p)%Q →
  distribution ≠ [] →
  ((rand <= distribution_mass distribution)%Q →
     ∃ p, (pick_type rand 0%Q distribution, p) ∈ distribution) ∧
  ((distribution_mass distribution < rand)%Q → pick_type rand 0%Q distribution = CAR) ∧
  pick_type rand 0%Q DEFAULT_DISTRIBUTION
  = (if Qle_bool rand (6 # 10) then CAR
     else if Qle_bool rand (85 # 100) then BIKE
     else if Qle_bool rand 1 then PEDESTRIAN else CAR).
Proof.
  intros Hpos Hne. destruct (pick_type_reached rand 0%Q distribution Hpos) as [H1 H2].
  split; [|split].
  - intros Hle. apply H1; [by left|lra].
  - intros Hlt. apply H2. lra.
  - unfold DEFAULT_DISTRIBUTION. cbn [pick_type]. exact_unfold.
    destruct (Qle_bool rand (6 # 10)) eqn:H6;
      destruct (Qle_bool rand (85 # 100)) eqn:H85;
      destruct (Qle_bool rand 1) eqn:H100;
      rewrite ?Qle_bool_iff in *;
      repeat match goal with
             | H : Qle_bool _ _ = false |- _ =>
                 apply not_true_iff_false in H; rewrite Qle_bool_iff in H
             end;
      exact_cases; try done; exfalso; lra.
Qed.

End PickType.

(** At a concrete input: a distribution of bicycles with probability one
    half and the draw 0.7 give a car. *)
Lemma pick_type_mass_witness :
  pick_type (7 # 10) 0%Q [(BIKE, 1 # 2)] = CAR.
Proof.
  destruct (pick_type_mass (7 # 10) [(BIKE, 1 # 2)]) as (_ & H & _).
  - intros ty p Hin. apply list_elem_of_singleton in Hin. injection Hin as -> ->.
    vm_compute. discriminate.
  - discriminate.
  - apply H. vm_compute. reflexivity.
Defined.

Section FleetFacts.
Context {F : Type} `{!Number F} {A : Type}.
Variable a_star :
  gmap string (list string) → gmap string (F * F) → gmap Edge F →
  string → string → string → list string * F.
Variable update_traffic_multipliers :
  A → VehicleManager F → gmap Edge F → A * gmap Edge F.
Variable get_congestion_probability :
  A → VehicleManager F → string → string → F.

Lemma spawn_random_loop_outcome count draws i distribution c
    (s : MultiVehicleSimulator F A) :
  let '(c', s', spawned) := spawn_random_loop a_star count draws i distribution c s in
  (List.length spawned ≤ count)%nat ∧ (c ≤ c' ≤ c + count)%nat ∧
  total_spawned s' = (total_spawned s + List.length spawned)%nat ∧
  same_clock s s' ∧
  (∀ v, v ∈ spawned →
        (∃ ty n, (c < n ≤ c')%nat ∧ veh_id v = value ty +:+ "_" +:+ pretty n) ∧
        vehicles (vehicle_manager s') !! veh_id v = Some v ∧
        veh_id v ∈ active_vehicles (vehicle_manager s')) ∧
  (∀ vid, (∀ ty n, (c < n ≤ c')%nat → vid ≠ value ty +:+ "_" +:+ pretty n) →
          vehicles (vehicle_manager s') !! vid = vehicles (vehicle_manager s) !! vid) ∧
  (∀ vid, vid ∈ active_vehicles (vehicle_manager s) →
          vid ∈ active_vehicles (vehicle_manager s')).
Proof.
  revert i c s. induction count as [|count IH]; intros i c s; cbn [spawn_random_loop].
  - split; [done|]. split; [lia|]. split; [cbn; lia|]. split; [done|].
    split; [intros v Hv; by apply elem_of_nil in Hv|]. done.
  - set (ty := pick_type _ _ _). clearbody ty.
    pose proof (spawn_vehicle_outcome a_star (spawn_draw (draws i))
                  (spawn_clock (draws i)) ty None None c s) as H1.
    destruct (spawn_vehicle a_star _ _ ty None None c s) as [[c1 s1] r].
    specialize (IH (S i) c1 s1).
    destruct (spawn_random_loop a_star count draws (S i) distribution c1 s1)
      as [[c2 s2] l].
    destruct IH as (Hlen & Hc & Htot & Hclk & Hreg & Hrest & Hact).
    destruct r as [v|].
    + destruct H1 as (-> & Hid & Hv & Hva & Hother & Hact1 & _ & _ & _ & _ & Htot1 & Hclk1).
      change (option_list (Some v) ++ l)%list with (v :: l). cbn [List.length].
      split; [lia|]. split; [lia|]. split; [lia|].
      split; [destruct Hclk as (? & ? & ?), Hclk1 as (? & ? & ?);
              split; [congruence|split; congruence]|].
      split; [|split].
      * intros w Hw. apply elem_of_cons in Hw as [->|Hw].
        -- split; [exists ty, (S c); split; [lia|done]|].
           split; [|by apply Hact].
           rewrite Hrest; [done|]. intros ty' n Hn Heq. rewrite Hid in Heq.
           apply vehicle_id_inj in Heq. lia.
        -- destruct (Hreg w Hw) as ((ty' & n & Hn & Hw1) & Hw2 & Hw3).
           split; [exists ty', n; split; [lia|done]|done].
      * intros vid Hvid. rewrite Hrest.
        -- apply Hother. rewrite Hid. apply Hvid. lia.
        -- intros ty' n Hn. apply Hvid. lia.
      * intros vid Hin. by apply Hact, Hact1.
    + destruct H1 as [-> Hc1]. change (option_list None ++ l)%list with l.
      split; [lia|]. split; [lia|]. split; [lia|]. split; [done|].
      split; [|split; [|done]].
      * intros w Hw. destruct (Hreg w Hw) as ((ty' & n & Hn & Hw1) & Hw2 & Hw3).
        split; [exists ty', n; split; [lia|done]|done].
      * intros vid Hvid. apply Hrest. intros ty' n Hn. apply Hvid. lia.
Qed.

(** X23: [spawn_random_vehicles] returns at most [count] vehicles and adds
    their number to [total_spawned].  The vehicles it returns carry
    distinct counter values consumed by the call and are all registered
    and active when it returns; vehicles with other ids are as they
    were, and no vehicle has left the active set. *)
Theorem spawn_random_vehicles_result count draws distribution c
    (s : MultiVehicleSimulator F A) :
  let '(c', s', spawned) :=
    spawn_random_vehicles a_star count draws distribution c s in
  (List.length spawned ≤ count)%nat ∧ (c ≤ c' ≤ c + count)%nat ∧
  total_spawned s' = (total_spawned s + List.length spawned)%nat ∧
  simulation_step s' = simulation_step s ∧
  (∀ v, v ∈ spawned →
        (∃ ty n, (c < n ≤ c')%nat ∧ veh_id v = value ty +:+ "_" +:+ pretty n) ∧
        vehicles (vehicle_manager s') !! veh_id v = Some v ∧
        veh_id v ∈ active_vehicles (vehicle_manager s')) ∧
  (∀ vid, (∀ ty n, (c < n ≤ c')%nat → vid ≠ value ty +:+ "_" +:+ pretty n) →
          vehicles (vehicle_manager s') !! vid = vehicles (vehicle_manager s) !! vid) ∧
  (∀ vid, vid ∈ active_vehicles (vehicle_manager s) →
          vid ∈ active_vehicles (vehicle_manager s')).
Proof.
  unfold spawn_random_vehicles.
  pose proof (spawn_random_loop_outcome count draws 0
                (default DEFAULT_DISTRIBUTION distribution) c s) as H.
  destruct (spawn_random_loop a_star count draws 0 _ c s) as [[c' s'] l].
  destruct H as (? & ? & ? & (? & _) & ? & ? & ?). done.
Qed.

Lemma run_steps_outcome steps step rate c (s : MultiVehicleSimulator F A) :
  is_running s = true →
  let '(_, s', r) :=
    run_steps a_star update_traffic_multipliers get_congestion_probability
              steps step rate c s in
  is_running s' = true ∧
  match r with
  | Ok _ => simulation_step s' = (simulation_step s + List.length steps)%nat
  | Raise _ =>
      (simulation_step s < simulation_step s' ≤ simulation_step s + List.length steps)%nat
  end.
Proof.
  revert step c s. induction steps as [|inp steps IH]; intros step c s Hrun;
    cbn [run_steps List.length].
  - split; [done|lia].
  - rewrite Hrun. cbn [negb].
    set (sp := if bool_decide _ then _ else _).
    assert (same_clock s sp.2) as Hsp.
    { subst sp. case_bool_decide; [|done]. unfold spawn_random_vehicles.
      pose proof (spawn_random_loop_outcome rate (step_spawns inp) 0
                    (default DEFAULT_DISTRIBUTION None) c s) as Hloop.
      destruct (spawn_random_loop a_star rate _ 0 _ c s) as [[c' s'] l].
      by destruct Hloop as (_ & _ & _ & ? & _). }
    destruct sp as [c1 s1]. cbn [snd] in Hsp. destruct Hsp as (Hst1 & _ & Hrun1).
    pose proof (simulation_tick_report a_star update_traffic_multipliers
                  get_congestion_probability (step_tick inp) s1)
      as (Hst2 & _ & Hrun2 & _).
    destruct (simulation_tick a_star update_traffic_multipliers
                get_congestion_probability (step_tick inp) s1) as [s2 [r|e]];
      cbn [fst] in Hst2, Hrun2.
    + set (s3 := if bool_decide _ then _ else s2).
      assert (simulation_step s3 = simulation_step s2 ∧ is_running s3 = is_running s2)
        as [Hst3 Hrun3] by (subst s3; by case_bool_decide).
      clearbody s3. specialize (IH (S step) c1 s3).
      destruct (run_steps a_star update_traffic_multipliers get_congestion_probability
                  steps (S step) rate c1 s3) as [[c4 s4] r4].
      destruct IH as [Hrun4 Hst4]; [congruence|]. split; [done|].
      destruct r4; lia.
    + split; [congruence|lia].
Qed.

(** X24: [run_continuous_simulation] ticks once per step.  When it returns,
    the step counter has advanced by the number of steps and the running
    flag is cleared; when a tick raises, the exception leaves the run
    with the flag still set, after at least one and at most that many
    steps. *)
Theorem run_continuous_simulation_outcome steps rate c (s : MultiVehicleSimulator F A) :
  let '(_, s', r) :=
    run_continuous_simulation a_star update_traffic_multipliers
                              get_congestion_probability steps rate c s in
  match r with
  | Ok _ =>
      is_running s' = false ∧
      simulation_step s' = (simulation_step s + List.length steps)%nat
  | Raise _ =>
      is_running s' = true ∧
      (simulation_step s < simulation_step s' ≤ simulation_step s + List.length steps)%nat
  end.
Proof.
  unfold run_continuous_simulation.
  pose proof (run_steps_outcome steps 0 rate c (with_is_running true s) eq_refl) as H.
  destruct (run_steps a_star update_traffic_multipliers get_congestion_probability
              steps 0 rate c (with_is_running true s)) as [[c' s'] [[]|e]];
    destruct H as [Hrun Hst]; cbn in *; done.
Qed.

End FleetFacts.

(** ** Kernels on which a tick cannot fail *)

Section TickReturns.
Context {F : Type} `{!Number F} {A : Type}.
Variable a_star :
  gmap string (list string) → gmap string (F * F) → gmap Edge F →
  string → string → string → list string * F.
Variable update_traffic_multipliers :
  A → VehicleManager F → gmap Edge F → A * gmap Edge F.
Variable get_congestion_probability :
  A → VehicleManager F → string → string → F.

Lemma alist_insert_keys {V} (k : string) (x : V) (l : list (string * V)) :
  NoDup l.*1 → NoDup (alist_insert k x l).*1 ∧
  ∀ k', k' ∈ (alist_insert k x l).*1 → k' = k ∨ k' ∈ l.*1.
Proof.
  induction l as [|[k0 y] l IH]; intros Hnd; cbn.
  - split; [apply NoDup_singleton|]. intros k' Hk'.
    apply list_elem_of_singleton in Hk'. by left.
  - rewrite fmap_cons in Hnd. apply NoDup_cons in Hnd as [Hk0 Hnd]. cbn in Hk0.
    destruct (String.eqb_spec k k0) as [->|Hne]; cbn.
    + split; [by apply NoDup_cons|]. intros k' Hk'. by right.
    + destruct (IH Hnd) as [IH1 IH2]. split.
      * apply NoDup_cons. split; [|done]. intros Hin.
        apply IH2 in Hin as [->|Hin]; done.
      * intros k' Hk'. apply elem_of_cons in Hk' as [->|Hk'].
        -- right. apply list_elem_of_here.
        -- apply IH2 in Hk' as [->|Hk']; [by left|]. right.
           by apply list_elem_of_further.
Qed.

Lemma alist_lookup_insert_ne {V} (k k' : string) (x : V) (l : list (string * V)) :
  k' ≠ k → alist_lookup k' (alist_insert k x l) = alist_lookup k' l.
Proof.
  intros Hne. induction l as [|[k0 y] l IH]; cbn.
  - by destruct (String.eqb_spec k' k).
  - destruct (String.eqb_spec k k0) as [->|Hk]; cbn.
    + by destruct (String.eqb_spec k' k0).
    + destruct (String.eqb_spec k' k0); [done|apply IH].
Qed.

Lemma alist_lookup_delete_ne {V} (k k' : string) (l : list (string * V)) :
  k' ≠ k → alist_lookup k' (alist_delete k l) = alist_lookup k' l.
Proof.
  intros Hne. induction l as [|[k0 y] l IH]; cbn; [done|].
  destruct (String.eqb_spec k k0) as [->|Hk]; cbn.
  - by destruct (String.eqb_spec k' k0).
  - destruct (String.eqb_spec k' k0); [done|apply IH].
Qed.

Lemma alist_delete_keys {V} (k : string) (l : list (string * V)) :
  NoDup l.*1 → k ∉ (alist_delete k l).*1.
Proof.
  induction l as [|[k0 y] l IH]; intros Hnd; [apply not_elem_of_nil|].
  rewrite fmap_cons in Hnd. apply NoDup_cons in Hnd as [Hk0 Hnd].
  cbn [alist_delete fst] in *.
  destruct (String.eqb_spec k k0) as [->|Hk]; [done|].
  rewrite fmap_cons. apply not_elem_of_cons. split; [done|by apply IH].
Qed.

Lemma alist_lookup_delete_Some {V} (k k' : string) (x : V) (l : list (string * V)) :
  NoDup l.*1 → alist_lookup k' (alist_delete k l) = Some x → alist_lookup k' l = Some x.
Proof.
  intros Hnd. destruct (decide (k' = k)) as [->|Hne].
  - rewrite alist_lookup_fresh; [done|by apply alist_delete_keys].
  - by rewrite alist_lookup_delete_ne.
Qed.

Lemma alist_lookup_is_Some {V} (k : string) (l : list (string * V)) :
  k ∈ l.*1 → is_Some (alist_lookup k l).
Proof.
  induction l as [|[k0 y] l IH]; cbn; intros Hk; [by apply elem_of_nil in Hk|].
  destruct (String.eqb_spec k k0); [done|].
  apply elem_of_cons in Hk as [?|Hk]; [done|]. by apply IH.
Qed.

Lemma create_accident_random_ready d (s : MultiVehicleSimulator F A) :
  tick_ready s →
  tick_ready (create_accident d None None s).1 ∧
  ∃ o, (create_accident d None None s).2 = Ok o.
Proof.
  intros (Hcov & Hnd & Hacc & Hlen). unfold create_accident.
  destruct (choice (draw_node d) _) as [f|] eqn:Hf; [|by split; [|eexists]].
  destruct (choice (draw_edge d) _) as [t|] eqn:Ht; [|by split; [|eexists]].
  apply choice_elem in Ht.
  destruct (graph s !! f) as [tos|] eqn:Hg; [|by apply elem_of_nil in Ht].
  cbn in Ht. destruct (Hcov f tos t Hg Ht) as [m Hm].
  rewrite (record_accident_known_edge d f t m s Hm). cbn [fst snd].
  split; [|by eexists].
  destruct (alist_insert_keys (acc_id (new_accident d f t s)) (new_accident d f t s)
              (accidents s) Hnd) as [Hnd' _].
  split; [|split; [exact Hnd'|split; [|exact Hlen]]].
  - intros u tos' v Hu Hv. cbn. destruct (decide ((f, t) = (u, v))) as [<-|Hne].
    + by rewrite lookup_insert_eq.
    + rewrite lookup_insert_ne by done. by eapply Hcov.
  - intros k acc. cbn.
    destruct (decide (k = acc_id (new_accident d f t s))) as [->|Hne].
    + rewrite alist_lookup_insert. intros [= <-]. cbn. by rewrite lookup_insert_eq.
    + rewrite alist_lookup_insert_ne by done. intros Hk.
      destruct (decide ((f, t) = (acc_from_node acc, acc_to_node acc))) as [<-|Hne'].
      * by rewrite lookup_insert_eq.
      * rewrite lookup_insert_ne by done. by eapply Hacc.
Qed.

Lemma resolve_expired_returns now ids (s : MultiVehicleSimulator F A) :
  NoDup ids → NoDup (accidents s).*1 →
  (∀ k, k ∈ ids → is_Some (alist_lookup k (accidents s))) →
  (∀ k acc, alist_lookup k (accidents s) = Some acc →
            is_Some (traffic_multipliers s !! (acc_from_node acc, acc_to_node acc))) →
  (resolve_expired now ids s).2 = Ok tt ∧
  edge_lengths (resolve_expired now ids s).1 = edge_lengths s.
Proof.
  revert s. induction ids as [|x ids IH]; intros s Hids Hnd Hin Hacc;
    cbn [resolve_expired]; [done|].
  apply NoDup_cons in Hids as [Hx Hids].
  destruct (Hin x) as [acc Hl]; [apply list_elem_of_here|]. rewrite Hl.
  assert (∀ k, k ∈ ids → is_Some (alist_lookup k (accidents s))) as Hin'.
  { intros k Hk. apply Hin. by apply list_elem_of_further. }
  destruct (num_ltb _ _); [|by apply IH].
  unfold resolve_accident. rewrite Hl.
  destruct (Hacc x acc Hl) as [m Hm]. rewrite Hm.
  set (s1 := with_accidents _ _).
  destruct (IH s1) as [IH1 IH2]; [done|..|by split].
  - subst s1. cbn. eapply sublist_NoDup; [exact Hnd|].
    apply fmap_sublist, alist_delete_sublist.
  - intros k Hk. subst s1. cbn. rewrite alist_lookup_delete_ne; [by apply Hin'|].
    intros ->. done.
  - intros k acc' Hk. subst s1. cbn in *.
    apply alist_lookup_delete_Some in Hk; [|done].
    destruct (decide ((acc_from_node acc, acc_to_node acc)
                      = (acc_from_node acc', acc_to_node acc'))) as [<-|Hne].
    + by rewrite lookup_insert_eq.
    + rewrite lookup_insert_ne by done. by eapply Hacc.
Qed.

Lemma first_pass_lengths ids (s : MultiVehicleSimulator F A) :
  edge_lengths (first_pass a_star get_congestion_probability ids s) = edge_lengths s.
Proof.
  revert s. induction ids as [|x ids IH]; intros s; cbn [first_pass foldl]; [done|].
  destruct (vehicles (vehicle_manager s) !! x) as [w|]; [|apply IH].
  unfold first_pass in IH. by rewrite IH.
Qed.

Lemma update_position_returns dt L (v : Vehicle F) :
  num_eqb L (num_lit 0 1) = false → ∃ b, (update_position dt L v).2 = Ok b.
Proof.
  intros HL. unfold update_position. rewrite HL.
  destruct (_ && _); [by eexists|]. destruct (num_leb _ _); by eexists.
Qed.

Lemma second_pass_returns dt clock ids moved arrived (s : MultiVehicleSimulator F A) :
  (∀ e, num_eqb (default (num_lit 100 1) (edge_lengths s !! e)) (num_lit 0 1) = false) →
  ∃ r, (second_pass dt clock ids moved arrived s).2 = Ok r.
Proof.
  revert s moved arrived.
  induction ids as [|x ids IH]; intros s moved arrived Hlen; cbn [second_pass];
    [by eexists|].
  destruct (vehicles (vehicle_manager s) !! x) as [w|]; [|by apply IH].
  assert (∃ w' b, second_pass_vehicle dt (clock x) s w = (w', Ok b)) as (w' & [m a] & ->).
  { unfold second_pass_vehicle. destruct (_ || _); [by do 2 eexists|].
    destruct (update_position_returns dt
                (default (num_lit 100 1)
                   (edge_lengths s !! (current_node w, default "" (next_node w)))) w)
      as [b Hb]; [apply Hlen|].
    destruct (update_position _ _ w) as [w1 r]. cbn in Hb. subst r.
    destruct b; [|by do 2 eexists].
    destruct (move_to_next_node (clock x) w1). by do 2 eexists. }
  by apply IH.
Qed.

(** X25: on a kernel where every edge of the graph and of an accident has a
    multiplier and no edge length is zero, [simulation_tick] returns: it
    raises neither [KeyError] nor [ZeroDivisionError], whatever the clock
    and the random draws. *)
Theorem simulation_tick_returns inp (s : MultiVehicleSimulator F A) :
  tick_ready s →
  ∃ r, (simulation_tick a_star update_traffic_multipliers
                        get_congestion_probability inp s).2 = Ok r.
Proof.
  intros Hready. unfold simulation_tick.
  set (s0 := with_simulation_step _ _).
  assert (tick_ready s0) as Hready0 by exact Hready.
  clearbody s0.
  set (c := if num_ltb _ _ then _ else _).
  assert (tick_ready c.1 ∧ ∃ o, c.2 = Ok o) as [Hready1 [o Ho]].
  { subst c. destruct (num_ltb _ _); [|by split; [|eexists]].
    by apply create_accident_random_ready. }
  destruct c as [s1 r1]. cbn [fst snd] in Hready1, Ho. subst r1.
  destruct Hready1 as (_ & Hnd & Hacc & Hlen).
  destruct (resolve_expired_returns (tick_time inp) (accidents s1).*1 s1)
    as [Hr Hl2]; [done|done| |done|].
  { intros k Hk. by apply alist_lookup_is_Some. }
  destruct (resolve_expired _ _ s1) as [s2 r2]. cbn [fst snd] in Hr, Hl2. subst r2.
  destruct (update_traffic_multipliers _ _ _) as [an tm].
  set (s3 := if bool_decide _ then _ else _).
  assert (edge_lengths s3 = edge_lengths s1) as Hl3.
  { subst s3. by case_bool_decide. }
  clearbody s3.
  set (ids := active_ids _). clearbody ids.
  pose proof (first_pass_lengths ids s3) as Hl4.
  set (s4 := first_pass a_star get_congestion_probability ids s3) in *. clearbody s4.
  destruct (second_pass_returns
              (pymin (num_sub (tick_time inp) (last_update_time s)) (num_lit 2 10))
              (arrival_clock inp) ids 0 0 s4) as [[moved arrived] Hsp].
  { intros e. rewrite Hl4, Hl3. apply Hlen. }
  destruct (second_pass _ _ ids 0 0 s4) as [s5 r5]. cbn [snd] in Hsp. subst r5.
  by eexists.
Qed.

End TickReturns.

(** At a concrete input: the first tick of the diamond with its car. *)
Lemma simulation_tick_returns_witness :
  ∃ r, (D64.tick 0.125%float D64.sim1).2 = Ok r.
Proof.
  apply (simulation_tick_returns D64.a_star D64.update_traffic_multipliers
           D64.get_congestion_probability (Diamond.tick_inputs 0.125%float) D64.sim1).
  assert (Hg : graph D64.sim1 = Diamond.graph) by (vm_compute; reflexivity).
  assert (Htm : traffic_multipliers D64.sim1 = traffic_multipliers D64.sim0)
    by (vm_compute; reflexivity).
  assert (Hacc : accidents D64.sim1 = []) by (vm_compute; reflexivity).
  assert (Hel : edge_lengths D64.sim1 = ∅) by (vm_compute; reflexivity).
  unfold tick_ready. rewrite Hg, Htm, Hacc, Hel. clear.
  split; [|split; [apply NoDup_nil_2|split; [done|]]].
  - intros u tos v Hu Hv. unfold Diamond.sim0, Diamond.sim_init.
    rewrite fresh_kernel_multipliers, Hu. by rewrite decide_True.
  - intros e. rewrite lookup_empty. vm_compute. reflexivity.
Defined.

(** ** What the simulation never updates *)

Section Identity.
Context {F : Type} `{!Number F} {A : Type}.
Variable a_star :
  gmap string (list string) → gmap string (F * F) → gmap Edge F →
  string → string → string → list string * F.
Variable update_traffic_multipliers :
  A → VehicleManager F → gmap Edge F → A * gmap Edge F.
Variable get_congestion_probability :
  A → VehicleManager F → string → string → F.

Lemma same_identity_refl (v : Vehicle F) : same_identity v v.
Proof. by repeat split. Qed.

Lemma same_identity_trans (v1 v2 v3 : Vehicle F) :
  same_identity v1 v2 → same_identity v2 v3 → same_identity v1 v3.
Proof.
  unfold same_identity. intros (? & ? & ? & ? & ? & ? & ? & ? & ? & ?)
    (? & ? & ? & ? & ? & ? & ? & ? & ? & ?).
  repeat split; congruence.
Qed.

Ltac identity_cases :=
  repeat match goal with
         | |- context [if ?b then _ else _] => destruct b
         end;
  try apply same_identity_refl; by repeat split.

Lemma set_path_identity new_path cost (v : Vehicle F) :
  same_identity v (set_path new_path cost v).
Proof. unfold set_path. identity_cases. Qed.

Lemma move_to_next_node_identity now (v : Vehicle F) :
  same_identity v (move_to_next_node now v).1.
Proof. unfold move_to_next_node. identity_cases. Qed.

Lemma update_position_identity dt L (v : Vehicle F) :
  same_identity v (update_position dt L v).1.
Proof. unfold update_position. identity_cases. Qed.

Lemma slow_down_identity d m (v : Vehicle F) :
  same_identity v (slow_down_for_vehicle_ahead d m v).
Proof. unfold slow_down_for_vehicle_ahead. identity_cases. Qed.

Lemma congestion_speed_control_identity (s : MultiVehicleSimulator F A) v edge :
  same_identity v (congestion_speed_control s v edge).
Proof. unfold congestion_speed_control. identity_cases. Qed.

Lemma reroute_vehicle_identity (s : MultiVehicleSimulator F A) (v : Vehicle F) :
  same_identity v (_reroute_vehicle a_star s v).
Proof.
  unfold _reroute_vehicle. destruct (a_star _ _ _ _ _ _) as [p c].
  destruct (_ && _); [|apply same_identity_refl].
  pose proof (set_path_identity p c v) as H. unfold same_identity in *.
  cbn. exact H.
Qed.

Lemma first_pass_vehicle_identity (s : MultiVehicleSimulator F A) (v : Vehicle F) :
  same_identity v (first_pass_vehicle a_star get_congestion_probability s v).
Proof.
  unfold first_pass_vehicle.
  destruct (_ || _); [apply same_identity_refl|].
  destruct (bool_decide _).
  - destruct (_should_reroute _ _ _); [apply reroute_vehicle_identity|by repeat split].
  - destruct (find_ahead _ _ _) as [[o d]|];
      [apply slow_down_identity|apply congestion_speed_control_identity].
Qed.

Lemma second_pass_vehicle_identity dt now (s : MultiVehicleSimulator F A) (v : Vehicle F) :
  same_identity v (second_pass_vehicle dt now s v).1.
Proof.
  unfold second_pass_vehicle.
  destruct (_ || _); [apply same_identity_refl|].
  pose proof (update_position_identity dt
                (default (num_lit 100 1)
                   (edge_lengths s !! (current_node v, default "" (next_node v)))) v) as H1.
  destruct (update_position _ _ v) as [v1 [[]|e]]; cbn [fst] in *; try done.
  pose proof (move_to_next_node_identity now v1) as H2.
  destruct (move_to_next_node now v1) as [v2 ok]. cbn [fst] in *.
  by eapply same_identity_trans.
Qed.

Lemma first_pass_identity ids (s : MultiVehicleSimulator F A) vid v :
  vehicles (vehicle_manager s) !! vid = Some v →
  ∃ v', vehicles (vehicle_manager
                    (first_pass a_star get_congestion_probability ids s)) !! vid = Some v' ∧
        same_identity v v'.
Proof.
  revert s v. induction ids as [|x ids IH]; intros s v Hv; cbn [first_pass foldl].
  - exists v. split; [done|apply same_identity_refl].
  - destruct (vehicles (vehicle_manager s) !! x) as [w|] eqn:Hx; [|by apply IH].
    destruct (decide (x = vid)) as [->|Hne].
    + rewrite Hv in Hx. injection Hx as <-.
      destruct (IH (store_vehicle vid
                      (first_pass_vehicle a_star get_congestion_probability s v) s)
                  (first_pass_vehicle a_star get_congestion_probability s v))
        as (v' & Hv' & Hid); [cbn; apply lookup_insert_eq|].
      exists v'. split; [exact Hv'|].
      eapply same_identity_trans; [apply first_pass_vehicle_identity|exact Hid].
    + apply IH. cbn. by rewrite lookup_insert_ne.
Qed.

Lemma second_pass_identity dt clock ids moved arrived (s : MultiVehicleSimulator F A)
    vid v :
  vehicles (vehicle_manager s) !! vid = Some v →
  ∃ v', vehicles (vehicle_manager (second_pass dt clock ids moved arrived s).1) !! vid
          = Some v' ∧
        same_identity v v'.
Proof.
  revert s v moved arrived.
  induction ids as [|x ids IH]; intros s v moved arrived Hv; cbn [second_pass].
  - exists v. split; [done|apply same_identity_refl].
  - destruct (vehicles (vehicle_manager s) !! x) as [w|] eqn:Hx; [|by apply IH].
    pose proof (second_pass_vehicle_identity dt (clock x) s w) as Hw.
    destruct (second_pass_vehicle dt (clock x) s w) as [w' r]. cbn [fst] in Hw.
    assert (∃ v1, vehicles (vehicle_manager (store_vehicle x w' s)) !! vid = Some v1 ∧
                  same_identity v v1) as (v1 & Hv1 & Hid1).
    { destruct (decide (x = vid)) as [->|Hne].
      - rewrite Hv in Hx. injection Hx as <-. exists w'. split; [|done].
        cbn. apply lookup_insert_eq.
      - exists v. split; [|apply same_identity_refl]. cbn. by rewrite lookup_insert_ne. }
    destruct r as [[m a]|e]; cbn [fst].
    + destruct (IH (store_vehicle x w' s) v1 (if m then S moved else moved)
                  (if a then S arrived else arrived) Hv1) as (v' & Hv' & Hid).
      exists v'. split; [exact Hv'|]. by eapply same_identity_trans.
    + by exists v1.
Qed.

Lemma simulation_tick_identity inp (s : MultiVehicleSimulator F A) vid v :
  vehicles (vehicle_manager s) !! vid = Some v →
  ∃ v', vehicles (vehicle_manager
                    (simulation_tick a_star update_traffic_multipliers
                                     get_congestion_probability inp s).1) !! vid = Some v' ∧
        same_identity v v'.
Proof.
  intros Hv. unfold simulation_tick.
  set (s0 := with_simulation_step _ _).
  assert (vehicle_manager s0 = vehicle_manager s) as Hs0 by done.
  clearbody s0.
  set (c := if num_ltb _ _ then _ else _).
  assert (vehicle_manager c.1 = vehicle_manager s) as Hc.
  { subst c. destruct (num_ltb _ _); [|done]. by rewrite create_accident_manager. }
  destruct c as [s1 [o|e]]; cbn [fst] in Hc.
  2:{ exists v. split; [cbn [fst]; by rewrite Hc|apply same_identity_refl]. }
  pose proof (resolve_expired_manager (tick_time inp) (accidents s1).*1 s1) as Hr.
  destruct (resolve_expired _ _ s1) as [s2 [[]|e]]; cbn [fst] in Hr.
  2:{ exists v. split; [cbn [fst]; by rewrite Hr, Hc|apply same_identity_refl]. }
  destruct (update_traffic_multipliers _ _ _) as [an tm].
  set (s3 := if bool_decide _ then _ else _).
  assert (vehicle_manager s3 = vehicle_manager s) as Hs3.
  { subst s3.
    case_bool_decide;
      cbn [vehicle_manager with_traffic_multipliers with_traffic_analyzer].
    all: congruence. }
  clearbody s3.
  set (ids := active_ids _). clearbody ids.
  destruct (first_pass_identity ids s3 vid v) as (v1 & Hv1 & Hid1); [by rewrite Hs3|].
  set (s4 := first_pass a_star get_congestion_probability ids s3) in *. clearbody s4.
  destruct (second_pass_identity
              (pymin (num_sub (tick_time inp) (last_update_time s)) (num_lit 2 10))
              (arrival_clock inp) ids 0 0 s4 vid v1 Hv1) as (v2 & Hv2 & Hid2).
  exists v2. split; [|by eapply same_identity_trans].
  destruct (second_pass _ _ ids 0 0 s4) as [s5 [[moved arrived]|e]]; cbn [fst] in *;
    exact Hv2.
Qed.

(** X26: neither a tick nor [move_vehicle] ever updates the distance
    travelled or the waiting time of a vehicle: a registered vehicle is
    registered afterwards with the same id, type, end points, class
    constants, spawn time, [total_distance] and [wait_time], so the last
    two stay at the 0.0 the constructor gives them. *)
Theorem simulation_keeps_identity inp now (s : MultiVehicleSimulator F A) vid v :
  vehicles (vehicle_manager s) !! vid = Some v →
  (∃ v', vehicles (vehicle_manager
                     (simulation_tick a_star update_traffic_multipliers
                                      get_congestion_probability inp s).1) !! vid = Some v' ∧
         same_identity v v') ∧
  (∃ v', vehicles (vehicle_manager
                     (move_vehicle a_star get_congestion_probability now vid s).1) !! vid
           = Some v' ∧
         same_identity v v').
Proof.
  intros Hv. split; [by apply simulation_tick_identity|].
  unfold move_vehicle. rewrite Hv.
  case_bool_decide as Hst; [exists v; split; [done|apply same_identity_refl]|].
  set (v1 := if _should_reroute _ _ _ then _ else v).
  assert (same_identity v v1) as Hid1.
  { subst v1. destruct (_should_reroute _ _ _);
      [apply reroute_vehicle_identity|apply same_identity_refl]. }
  clearbody v1.
  pose proof (move_to_next_node_identity now v1) as Hid2.
  destruct (move_to_next_node now v1) as [v2 ok]. cbn [fst] in *.
  pose proof (same_identity_trans _ _ _ Hid1 Hid2) as Hid.
  case_bool_decide as Harr; cbn [fst].
  - unfold mark_vehicle_arrived.
    cbn [vehicle_manager store_vehicle with_vehicle_manager active_vehicles
         with_vehicles vehicles].
    case_bool_decide as Hact.
    + cbn [vehicles with_active_vehicles with_vehicles active_vehicles].
      destruct (decide (veh_id v2 = vid)) as [Heq|Hne].
      * rewrite Heq, lookup_insert_eq.
        cbn [vehicles with_active_vehicles with_vehicles active_vehicles].
        rewrite lookup_insert_eq. eexists. split; [done|].
        eapply same_identity_trans; [exact Hid|by repeat split].
      * destruct (<[vid:=v2]> (vehicles (vehicle_manager s)) !! veh_id v2) as [w|];
          cbn [vehicles with_active_vehicles with_vehicles active_vehicles].
        -- rewrite lookup_insert_ne by done. rewrite lookup_insert_eq. by exists v2.
        -- rewrite lookup_insert_eq. by exists v2.
    + cbn. rewrite lookup_insert_eq. by exists v2.
  - cbn. rewrite lookup_insert_eq. by exists v2.
Qed.

End Identity.

(** At a concrete input: the car of the diamond after its first tick. *)
Lemma simulation_keeps_identity_witness :
  ∃ v', D64.car (D64.tick 0.125%float D64.sim1).1 = Some v' ∧
        same_identity D64.route_car v'.
Proof.
  assert (Hv : vehicles (vehicle_manager D64.sim1) !! "car_1" = Some D64.route_car)
    by (vm_compute; reflexivity).
  exact (proj1 (simulation_keeps_identity D64.a_star D64.update_traffic_multipliers
                  D64.get_congestion_probability (Diamond.tick_inputs 0.125%float)
                  1%float D64.sim1 "car_1" D64.route_car Hv)).
Defined.
